(** * code-quality-checker: structural extraction and rule evaluation

    A shallow embedding of the Go sources of the checker
    ([internal/parser], [internal/config], [internal/rules]) together with
    the properties of its extraction helpers and algorithmic rules.

    Go strings are byte sequences; they are modelled as [list N] (every
    element below 256).  The parts of the Go standard library the rules
    call ([unicode/utf8], [strings], [regexp], [strconv]) are modelled
    first, then the repository's own functions, then the theorems. *)

From Stdlib Require Import NArith ZArith Lia Bool Ascii String DecimalString
  DecimalNat.
From stdpp Require Import base list gmap.

Local Open Scope N_scope.

(** ** Go strings *)

Abbreviation gostring := (list N).

(** A string literal of the source, as its bytes. *)
Definition B (s : string) : gostring :=
  List.map N_of_ascii (list_ascii_of_string s).

Definition ch (a : ascii) : N := N_of_ascii a.

Global Arguments B _ : simpl never.

(** The double quote, U+0022. *)
Definition dquote : N := 34.

Definition gostring_eqb (a b : gostring) : bool := bool_decide (a = b).

(** ** unicode/utf8 *)

Definition RuneError : N := 65533.
Definition RuneSelf : N := 128.

Definition is_cont (b : N) : bool := (128 <=? b) && (b <=? 191).

(** [utf8.DecodeRune]: the first rune of [s] and its width in bytes.  An
    ill-formed or truncated sequence decodes to [(RuneError, 1)]. *)
Definition DecodeRune (s : gostring) : N * nat :=
  match s with
  | [] => (RuneError, 0%nat)
  | b0 :: t =>
    if b0 <? 128 then (b0, 1%nat)
    else if (194 <=? b0) && (b0 <=? 223) then
      match t with
      | b1 :: _ =>
        if is_cont b1 then ((b0 - 192) * 64 + (b1 - 128), 2%nat)
        else (RuneError, 1%nat)
      | _ => (RuneError, 1%nat)
      end
    else if (224 <=? b0) && (b0 <=? 239) then
      match t with
      | b1 :: b2 :: _ =>
        let lo := if b0 =? 224 then 160 else 128 in
        let hi := if b0 =? 237 then 159 else 191 in
        if (lo <=? b1) && (b1 <=? hi) && is_cont b2 then
          ((b0 - 224) * 4096 + (b1 - 128) * 64 + (b2 - 128), 3%nat)
        else (RuneError, 1%nat)
      | _ => (RuneError, 1%nat)
      end
    else if (240 <=? b0) && (b0 <=? 244) then
      match t with
      | b1 :: b2 :: b3 :: _ =>
        let lo := if b0 =? 240 then 144 else 128 in
        let hi := if b0 =? 244 then 143 else 191 in
        if (lo <=? b1) && (b1 <=? hi) && is_cont b2 && is_cont b3 then
          ((b0 - 240) * 262144 + (b1 - 128) * 4096
           + (b2 - 128) * 64 + (b3 - 128), 4%nat)
        else (RuneError, 1%nat)
      | _ => (RuneError, 1%nat)
      end
    else (RuneError, 1%nat)
  end.

(** [utf8.AppendRune]: the encoding of one rune; surrogates and values
    beyond U+10FFFF are written as U+FFFD. *)
Definition EncodeRune (r : N) : gostring :=
  if r <? 128 then [r]
  else if r <? 2048 then [192 + r / 64; 128 + r mod 64]
  else if ((55296 <=? r) && (r <=? 57343)) || (1114111 <? r) then
    [239; 191; 189]
  else if r <? 65536 then
    [224 + r / 4096; 128 + (r / 64) mod 64; 128 + r mod 64]
  else
    [240 + r / 262144; 128 + (r / 4096) mod 64;
     128 + (r / 64) mod 64; 128 + r mod 64].

(** One decoded rune together with the bytes it was read from. *)
Abbreviation chunk := (N * gostring)%type.

(** The runes of a string in order, as [for _, r := range s] visits them.
    [skip] counts the bytes of the current rune still to be passed. *)
Fixpoint chunks_from (s : gostring) (skip : nat) : list chunk :=
  match s with
  | [] => []
  | _ :: t =>
    match skip with
    | S k => chunks_from t k
    | O =>
      let '(r, w) := DecodeRune s in
      (r, firstn w s) :: chunks_from t (Nat.pred w)
    end
  end.

Definition chunks (s : gostring) : list chunk := chunks_from s 0.

(** [[]rune(s)] *)
Definition to_runes (s : gostring) : list N := List.map fst (chunks s).

(** [string(rs)] for a rune slice. *)
Definition of_runes (rs : list N) : gostring := List.flat_map EncodeRune rs.

(** ** regexp

    The patterns of the rules use literals, character classes, greedy
    repetition of one class, alternation and the word boundary.  Matching
    follows Go's leftmost-first rule: the candidates at one start position
    are tried in priority order and the first that succeeds wins.  The
    engine reads runes, as Go's does. *)

Inductive regex : Type :=
| Eps
| Cls (p : N -> bool)
| Cat (a b : regex)
| Alt (a b : regex)
| StarC (p : N -> bool)
| WordB.

Definition in_range (lo hi r : N) : bool := (lo <=? r) && (r <=? hi).

Definition is_digit (r : N) : bool := in_range 48 57 r.
Definition is_upper (r : N) : bool := in_range 65 90 r.
Definition is_lower (r : N) : bool := in_range 97 122 r.
Definition is_letter (r : N) : bool := is_upper r || is_lower r.

(** [\w], also the class [\b] looks at. *)
Definition is_word_char (r : N) : bool :=
  is_digit r || is_letter r || (r =? 95).

(** [\s] is [[\t\n\f\r ]]. *)
Definition is_re_space (r : N) : bool :=
  (r =? 9) || (r =? 10) || (r =? 12) || (r =? 13) || (r =? 32).

Definition is_c (c : N) (r : N) : bool := r =? c.
Definition not_c (c : N) (r : N) : bool := negb (r =? c).
(** [.] without the [s] flag. *)
Definition any_but_nl (r : N) : bool := negb (r =? 10).

(** Under [(?i)] a letter also matches its other case and the runes that
    fold to it: U+212A (Kelvin sign) for k and U+017F (long s) for s. *)
Definition fold_c (c : N) (r : N) : bool :=
  (r =? c)
  || (is_upper c && (r =? c + 32))
  || (is_lower c && (r =? c - 32))
  || (((c =? 107) || (c =? 75)) && (r =? 8490))
  || (((c =? 115) || (c =? 83)) && (r =? 383)).

Definition is_word_fold (r : N) : bool :=
  is_word_char r || (r =? 8490) || (r =? 383).

Definition rcat (rs : list regex) : regex := List.fold_right Cat Eps rs.
Definition alts (r : regex) (rs : list regex) : regex :=
  List.fold_left Alt rs r.
Definition plus_c (p : N -> bool) : regex := Cat (Cls p) (StarC p).
(** A literal rune sequence, and the same under [(?i)]. *)
Definition lit_runes (rs : list N) : regex := rcat (List.map (fun c => Cls (is_c c)) rs).
Definition lit (s : string) : regex := lit_runes (B s).
Definition lit_fold (s : string) : regex :=
  rcat (List.map (fun c => Cls (fold_c c)) (B s)).

(** A position of the matcher: the rune just passed and the input left. *)
Abbreviation cursor := (option N * list N)%type.

Definition word_before (prev : option N) : bool :=
  match prev with Some r => is_word_char r | None => false end.
Definition word_after (s : list N) : bool :=
  match s with r :: _ => is_word_char r | [] => false end.

(** Greedy [x*]: the longest run first. *)
Fixpoint star_c (p : N -> bool) (prev : option N) (s : list N) : list cursor :=
  match s with
  | c :: s' =>
    if p c then star_c p (Some c) s' ++ [(prev, s)] else [(prev, s)]
  | [] => [(prev, [])]
  end.

(** All ways [r] matches a prefix of the input, best first. *)
Fixpoint ms (r : regex) (prev : option N) (s : list N) : list cursor :=
  match r with
  | Eps => [(prev, s)]
  | Cls p =>
    match s with
    | c :: s' => if p c then [(Some c, s')] else []
    | [] => []
    end
  | Cat a b => List.flat_map (fun x => ms b (fst x) (snd x)) (ms a prev s)
  | Alt a b => ms a prev s ++ ms b prev s
  | StarC p => star_c p prev s
  | WordB => if xorb (word_before prev) (word_after s) then [(prev, s)] else []
  end.

(** The number of runes of the preferred match at this position. *)
Definition match_here (r : regex) (prev : option N) (s : list N) : option nat :=
  match ms r prev s with
  | (_, s') :: _ => Some (length s - length s')%nat
  | [] => None
  end.

(** The successive non-overlapping matches, as rune index pairs.  [skip]
    counts the runes left of the match being passed; [adj] tells that a
    match ended exactly here, where an empty match is not reported. *)
Fixpoint find_all_from (r : regex) (prev : option N) (s : list N)
    (pos skip : nat) (adj : bool) {struct s} : list (nat * nat) :=
  match skip with
  | S k =>
    match s with
    | [] => []
    | c :: s' => find_all_from r (Some c) s' (S pos) k true
    end
  | O =>
    match match_here r prev s with
    | Some (S n) =>
      (pos, (pos + S n)%nat) ::
      match s with
      | [] => []
      | c :: s' => find_all_from r (Some c) s' (S pos) n true
      end
    | Some O =>
      (if adj then [] else [(pos, pos)]) ++
      match s with
      | [] => []
      | c :: s' => find_all_from r (Some c) s' (S pos) 0 false
      end
    | None =>
      match s with
      | [] => []
      | c :: s' => find_all_from r (Some c) s' (S pos) 0 false
      end
    end
  end.

(** The byte offset of the [k]-th rune. *)
Definition byte_pos (cs : list chunk) (k : nat) : nat :=
  length (List.concat (List.map snd (firstn k cs))).

(** The slice expression [s[a:b]]. *)
Definition slice {A} (s : list A) (a b : nat) : list A :=
  firstn (b - a) (skipn a s).

(** [re.FindAllStringIndex(s, -1)]: byte offsets of every match. *)
Definition FindAllStringIndex (r : regex) (s : gostring) : list (nat * nat) :=
  let cs := chunks s in
  List.map (fun m => (byte_pos cs (fst m), byte_pos cs (snd m)))
           (find_all_from r None (List.map fst cs) 0 0 false).

(** [re.FindStringIndex(s)]: the leftmost match, or nil. *)
Definition FindStringIndex (r : regex) (s : gostring) : option (nat * nat) :=
  List.hd_error (FindAllStringIndex r s).

(** [re.FindAllString(s, -1)] *)
Definition FindAllString (r : regex) (s : gostring) : list gostring :=
  List.map (fun m => slice s (fst m) (snd m)) (FindAllStringIndex r s).

(** [regexp.MatchString(pattern, s)] *)
Definition MatchString (r : regex) (s : gostring) : bool :=
  match FindStringIndex r s with Some _ => true | None => false end.

(** [re.ReplaceAllString(src, repl)] for a template without [$]: the text
    between matches is copied byte for byte. *)
Fixpoint replace_from (r : regex) (repl : gostring) (prev : option N)
    (cs : list chunk) (skip : nat) (adj : bool) {struct cs} : gostring :=
  match skip with
  | S k =>
    match cs with
    | [] => []
    | c :: cs' => replace_from r repl (Some (fst c)) cs' k true
    end
  | O =>
    match match_here r prev (List.map fst cs) with
    | Some (S n) =>
      repl ++
      match cs with
      | [] => []
      | c :: cs' => replace_from r repl (Some (fst c)) cs' n true
      end
    | Some O =>
      (if adj then [] else repl) ++
      match cs with
      | [] => []
      | c :: cs' => snd c ++ replace_from r repl (Some (fst c)) cs' 0 false
      end
    | None =>
      match cs with
      | [] => []
      | c :: cs' => snd c ++ replace_from r repl (Some (fst c)) cs' 0 false
      end
    end
  end.

Definition ReplaceAllString (r : regex) (src repl : gostring) : gostring :=
  replace_from r repl None (chunks src) 0 false.

(** ** unicode and strings *)

(** [unicode.IsSpace] *)
Definition IsSpace (r : N) : bool :=
  in_range 9 13 r || (r =? 32) || (r =? 133) || (r =? 160)
  || (r =? 5760) || in_range 8192 8202 r || (r =? 8232) || (r =? 8233)
  || (r =? 8239) || (r =? 8287) || (r =? 12288).

(** The case tables of package [unicode] beyond ASCII are data of the Go
    distribution; the development is generic in them. *)
Class UnicodeTables := { lower_table : N -> N }.

(** [unicode.ToLower] *)
Definition unicode_ToLower `{UnicodeTables} (r : N) : N :=
  if r <=? 127 then (if is_upper r then r + 32 else r) else lower_table r.

Definition isASCII (s : gostring) : bool := forallb (fun b => b <? RuneSelf) s.

(** [strings.ToLower]: bytewise on ASCII-only input, otherwise rune by
    rune through [strings.Map]. *)
Definition ToLower `{UnicodeTables} (s : gostring) : gostring :=
  if isASCII s then List.map (fun b => if is_upper b then b + 32 else b) s
  else List.flat_map (fun c => EncodeRune (unicode_ToLower (fst c))) (chunks s).

Fixpoint HasPrefix (s prefix : gostring) : bool :=
  match prefix, s with
  | [], _ => true
  | p :: prefix', b :: s' => (b =? p) && HasPrefix s' prefix'
  | _ :: _, [] => false
  end.

(** [strings.Contains] *)
Fixpoint Contains (s substr : gostring) : bool :=
  HasPrefix s substr ||
  match s with
  | [] => false
  | _ :: s' => Contains s' substr
  end.

(** [strings.Split(s, sep)] for a separator of one byte, as in every call
    of the modelled code; the result is never empty. *)
Fixpoint Split (s : gostring) (sep : N) : list gostring :=
  match s with
  | [] => [[]]
  | b :: t =>
    if b =? sep then [] :: Split t sep
    else match Split t sep with
         | l :: ls => (b :: l) :: ls
         | [] => [[b]]
         end
  end.

(** [strings.Join] *)
Fixpoint Join (elems : list gostring) (sep : gostring) : gostring :=
  match elems with
  | [] => []
  | [e] => e
  | e :: rest => e ++ sep ++ Join rest sep
  end.

(** Leading white space is dropped rune by rune. *)
Fixpoint trim_left_from (s : gostring) (skip : nat) : gostring :=
  match skip with
  | S k => match s with [] => [] | _ :: t => trim_left_from t k end
  | O =>
    let '(r, w) := DecodeRune s in
    if IsSpace r
    then match s with [] => [] | _ :: t => trim_left_from t (Nat.pred w) end
    else s
  end.

(** [utf8.DecodeLastRune], on the reversed string [rs]: step back to the
    nearest byte that can start a rune, at most [UTFMax] bytes from the
    end, and decode from there; the rune must end exactly at the end. *)
Definition DecodeLastRune_rev (rs : gostring) : N * nat :=
  match rs with
  | [] => (RuneError, 0%nat)
  | b :: t =>
    if b <? RuneSelf then (b, 1%nat)
    else
      let len :=
        match t with
        | b1 :: t1 =>
          if negb (is_cont b1) then 2%nat
          else match t1 with
               | b2 :: t2 =>
                 if negb (is_cont b2) then 3%nat
                 else match t2 with
                      | _ :: _ => 4%nat
                      | [] => 3%nat
                      end
               | [] => 2%nat
               end
        | [] => 1%nat
        end in
      let '(r, size) := DecodeRune (rev (firstn len rs)) in
      if Nat.eqb size len then (r, size) else (RuneError, 1%nat)
  end.

Fixpoint trim_right_rev (rs : gostring) (skip : nat) : gostring :=
  match skip with
  | S k => match rs with [] => [] | _ :: t => trim_right_rev t k end
  | O =>
    let '(r, w) := DecodeLastRune_rev rs in
    if IsSpace r
    then match rs with [] => [] | _ :: t => trim_right_rev t (Nat.pred w) end
    else rs
  end.

(** [strings.TrimSpace] *)
Definition TrimSpace (s : gostring) : gostring :=
  rev (trim_right_rev (rev (trim_left_from s 0)) 0).

(** [strconv.Itoa] and the verb [%d], for a count. *)
Definition Itoa (n : nat) : gostring :=
  B (NilZero.string_of_uint (Nat.to_uint n)).

(** ** internal/config *)

(** [type Severity int] with its four named values. *)
Definition Severity := Z.
Definition SeverityLow : Severity := 0%Z.
Definition SeverityMedium : Severity := 1%Z.
Definition SeverityHigh : Severity := 2%Z.
Definition SeverityCritical : Severity := 3%Z.

Definition Severity_String (s : Severity) : gostring :=
  if (s =? SeverityLow)%Z then B "low"
  else if (s =? SeverityMedium)%Z then B "medium"
  else if (s =? SeverityHigh)%Z then B "high"
  else if (s =? SeverityCritical)%Z then B "critical"
  else B "unknown".

Definition ParseSeverity `{UnicodeTables} (s : gostring) : Severity :=
  let l := ToLower s in
  if gostring_eqb l (B "low") then SeverityLow
  else if gostring_eqb l (B "medium") then SeverityMedium
  else if gostring_eqb l (B "high") then SeverityHigh
  else if gostring_eqb l (B "critical") then SeverityCritical
  else SeverityLow.

Record PatternConfig := {
  pc_Type : gostring;
  pc_Regex : gostring;
  pc_ASTPattern : gostring;
  pc_Conditions : list gostring
}.

Record RuleConfig := {
  cfg_ID : gostring;
  cfg_Name : gostring;
  cfg_Severity : gostring;
  cfg_Category : gostring;
  cfg_Description : gostring;
  cfg_Enabled : bool;
  cfg_Pattern : PatternConfig;
  cfg_Exclude : list gostring;
  cfg_Custom : gmap gostring gostring
}.

(** ** internal/parser *)

Record Token := {
  tok_Type : gostring;
  tok_Value : gostring;
  tok_Line : Z;
  tok_Column : Z;
  tok_StartPos : Z;
  tok_EndPos : Z
}.

Record JavaMethod := {
  m_Name : gostring;
  m_Annotations : list gostring;
  m_Parameters : list gostring;
  m_ReturnType : gostring;
  m_Line : Z;
  m_Column : Z;
  m_Body : gostring;
  m_IsPublic : bool;
  m_IsPrivate : bool;
  m_IsProtected : bool;
  m_IsStatic : bool
}.

Record JavaField := {
  f_Name : gostring;
  f_Type : gostring;
  f_Annotations : list gostring;
  f_Line : Z;
  f_IsStatic : bool;
  f_IsFinal : bool
}.

Record JavaClass := {
  c_Name : gostring;
  c_Annotations : list gostring;
  c_Methods : list JavaMethod;
  c_Fields : list JavaField;
  c_Imports : list gostring;
  c_Package : gostring
}.

Record JSFunction := {
  js_Name : gostring;
  js_Parameters : list gostring;
  js_Line : Z;
  js_Column : Z;
  js_Body : gostring;
  js_IsArrow : bool;
  js_IsAsync : bool
}.

(** The values stored under the keys of the markup and style fact maps. *)
Inductive FactValue :=
| FactImages (imgs : list (gmap gostring gostring))
| FactStrings (l : list gostring).

(** [ParsedFile.AST] is an [interface{}]: what the builder of the file's
    language stored, or nil for a language without a builder. *)
Inductive AST :=
| ASTNil
| ASTJavaClass (c : JavaClass)
| ASTJSFunctions (fs : list JSFunction)
| ASTMap (m : gmap gostring FactValue).

Record ParsedFile := {
  Path : gostring;
  Language : gostring;
  Content : gostring;
  Lines : list gostring;
  Tokens : list Token;
  file_AST : AST
}.

Definition LF : N := 10.



(** ** internal/types *)

Record Issue := {
  RuleID : gostring;
  File : gostring;
  Line : Z;
  Column : Z;
  i_Severity : Severity;
  i_Category : gostring;
  Message : gostring;
  i_Description : gostring;
  Suggestion : gostring;
  CodeSnippet : gostring
}.

(** ** internal/rules: the engine *)

(** The [Rule] interface; an implementation closes over its configuration. *)
Record Rule := {
  rule_ID : gostring;
  rule_Name : gostring;
  rule_Severity : Severity;
  rule_Category : gostring;
  rule_Description : gostring;
  rule_Check : ParsedFile -> list Issue
}.

Record Engine := {
  engine_rules : gmap gostring (list Rule)
}.

Definition CheckFile (e : Engine) (file : ParsedFile) (language : gostring)
    : list Issue :=
  match engine_rules e !! language with
  | None => []
  | Some rules =>
    List.fold_left (fun allIssues rule => allIssues ++ rule_Check rule file)
                   rules []
  end.

(** Every rule carries the same snippet helper. *)
Definition getCodeSnippet (file : ParsedFile) (line : Z) : gostring :=
  if ((line <=? 0) || (Z.of_nat (length (Lines file)) <? line))%Z then []
  else TrimSpace (nth (Z.to_nat (line - 1)) (Lines file) []).

(** The method pattern [QuoteMeta(name) + `\s*\([^)]*\)\s*\{`].  Method
    names are the [\w+] group of the parser's method pattern, so the
    quoted name is its runes taken literally. *)
Definition methodPattern (name : gostring) : regex :=
  rcat [lit_runes (to_runes name); StarC is_re_space; lit "(";
        StarC (not_c (ch ")")); lit ")"; StarC is_re_space; lit "{"].

(** The brace loop: [rest] is [content[i:]]; it runs while runes remain and
    [braceCount > 0]. *)
Fixpoint brace_loop (rest : list N) (braceCount : Z) (i : nat) : Z * nat :=
  match rest with
  | [] => (braceCount, i)
  | c :: rest' =>
    if (0 <? braceCount)%Z then
      brace_loop rest'
        (if c =? ch "{" then (braceCount + 1)%Z
         else if c =? ch "}" then (braceCount - 1)%Z
         else braceCount)
        (S i)
    else (braceCount, i)
  end.

(** [extractMethodBody], the same text in [TransactionalRule] and in
    [CyclomaticComplexityRule]: [start] is a byte offset of the string and
    is then used as an index of the rune slice. *)
Definition extractMethodBody (file : ParsedFile) (method : JavaMethod)
    : gostring :=
  match FindStringIndex (methodPattern (m_Name method)) (Content file) with
  | None => []
  | Some m =>
    let start := (snd m - 1)%nat in
    let content := to_runes (Content file) in
    let '(braceCount, i) :=
      brace_loop (skipn (S start) content) 1 (S start) in
    if (braceCount =? 0)%Z then of_runes (slice content start i) else []
  end.

(** ** internal/rules: TransactionalRule *)

Module TransactionalRule.

Definition ID (config : RuleConfig) : gostring := cfg_ID config.
Definition Name (config : RuleConfig) : gostring := cfg_Name config.
Definition Severity `{UnicodeTables} (config : RuleConfig) : Severity :=
  ParseSeverity (cfg_Severity config).
Definition Category (config : RuleConfig) : gostring := cfg_Category config.
Definition Description (config : RuleConfig) : gostring :=
  cfg_Description config.

Definition dataChangePatterns : list gostring :=
  [B "insert"; B "update"; B "delete"; B "save"; B "modify"; B "remove";
   B "create"; B "add"; B "set"].

Definition isDataChangeMethod `{UnicodeTables} (methodName : gostring) : bool :=
  let methodLower := ToLower methodName in
  existsb (fun pattern => Contains methodLower pattern) dataChangePatterns.

Definition hasTransactionalAnnotation (annotations : list gostring) : bool :=
  existsb (fun annotation => Contains annotation (B "@Transactional"))
          annotations.

Record MethodComplexity := {
  requiresTransaction : bool;
  reason : gostring;
  repositoryCalls : nat;
  conditionalLogic : bool;
  multipleOperations : bool;
  externalCalls : bool
}.

(** [\w+Repository\.\w+\(], [\w+DAO\.\w+\(], [\w+Mapper\.\w+\(] *)
Definition repositoryPatterns : list regex :=
  List.map (fun suffix =>
              rcat [plus_c is_word_char; lit suffix; lit ".";
                    plus_c is_word_char; lit "("])
           ["Repository"; "DAO"; "Mapper"]%string.

(** [if\s*\([^)]+\)\s*\{[^}]*(?:save|update|delete|insert|remove)\([^}]*\}] *)
Definition ifPattern : regex :=
  rcat [lit "if"; StarC is_re_space; lit "("; plus_c (not_c (ch ")"));
        lit ")"; StarC is_re_space; lit "{"; StarC (not_c (ch "}"));
        alts (lit "save") [lit "update"; lit "delete"; lit "insert";
                           lit "remove"];
        lit "("; StarC (not_c (ch "}")); lit "}"].

Definition hasConditionalDataOperations (methodBody : gostring) : bool :=
  MatchString ifPattern methodBody.

Definition operations : list string :=
  ["save"; "update"; "delete"; "insert"; "remove"]%string.

(** [(?i)\w*op\w*\(] *)
Definition operationPattern (op : string) : regex :=
  rcat [StarC is_word_fold; lit_fold op; StarC is_word_fold; lit "("].

(** [foundOperations] has one key for each operation whose pattern
    matched; the operations are pairwise different. *)
Definition hasMultipleDataOperations (methodBody : gostring) : bool :=
  let foundOperations :=
    List.filter (fun op => MatchString (operationPattern op) methodBody)
                operations in
  (2 <=? length foundOperations)%nat.

(** The seven patterns, each compiled with the prefix [(?i)]. *)
Definition externalPatterns : list regex :=
  [ rcat [lit_fold "restTemplate."; plus_c is_word_fold; lit "("];
    rcat [lit_fold "webClient."; plus_c is_word_fold; lit "("];
    rcat [StarC is_word_fold; lit_fold "Client."; plus_c is_word_fold;
          lit "("];
    rcat [StarC is_word_fold; lit_fold "Service."; plus_c is_word_fold;
          lit "("; StarC any_but_nl; lit_fold "http"];
    lit_fold "@FeignClient";
    rcat [lit_fold "kafka"; StarC is_word_fold; lit "."; plus_c is_word_fold;
          lit "("];
    rcat [lit_fold "jms"; StarC is_word_fold; lit "."; plus_c is_word_fold;
          lit "("] ].

Definition hasExternalSystemCalls (methodBody : gostring) : bool :=
  existsb (fun pattern => MatchString pattern methodBody) externalPatterns.

Definition determineTransactionNeed (complexity : MethodComplexity)
    : bool * gostring :=
  let reasons : list gostring := [] in
  let reasons :=
    if (2 <=? repositoryCalls complexity)%nat
    then reasons ++ [B "여러 테이블 작업(" ++ Itoa (repositoryCalls complexity)
                       ++ B "개 Repository 호출)"]
    else reasons in
  let reasons :=
    if conditionalLogic complexity
    then reasons ++ [B "조건부 데이터 변경 로직"] else reasons in
  let reasons :=
    if multipleOperations complexity
    then reasons ++ [B "복합 데이터 작업(생성/수정/삭제)"] else reasons in
  let reasons :=
    if externalCalls complexity && (0 <? repositoryCalls complexity)%nat
    then reasons ++ [B "외부 시스템 연동과 DB 작업"] else reasons in
  let requiresTransaction := (0 <? length reasons)%nat in
  let reason := Join reasons (B ", ") in
  (requiresTransaction, reason).

Definition analyzeMethodComplexity (file : ParsedFile) (method : JavaMethod)
    : MethodComplexity :=
  let methodBody := extractMethodBody file method in
  let calls :=
    List.fold_left
      (fun n pattern => (n + length (FindAllString pattern methodBody))%nat)
      repositoryPatterns 0%nat in
  let complexity :=
    {| requiresTransaction := false; reason := [];
       repositoryCalls := calls;
       conditionalLogic := hasConditionalDataOperations methodBody;
       multipleOperations := hasMultipleDataOperations methodBody;
       externalCalls := hasExternalSystemCalls methodBody |} in
  let '(need, why) := determineTransactionNeed complexity in
  {| requiresTransaction := need; reason := why;
     repositoryCalls := repositoryCalls complexity;
     conditionalLogic := conditionalLogic complexity;
     multipleOperations := multipleOperations complexity;
     externalCalls := externalCalls complexity |}.

Definition generateTransactionalMessage (methodName : gostring)
    (complexity : MethodComplexity) : gostring :=
  B "메소드 '" ++ methodName ++ B "'에 @Transactional이 필요합니다: "
    ++ reason complexity.

Definition issue_for `{UnicodeTables} (config : RuleConfig)
    (file : ParsedFile) (method : JavaMethod)
    (complexity : MethodComplexity) : Issue :=
  {| RuleID := ID config;
     File := Path file;
     Line := m_Line method;
     Column := m_Column method;
     i_Severity := Severity config;
     i_Category := Category config;
     Message := generateTransactionalMessage (m_Name method) complexity;
     i_Description := B "복잡한 데이터 변경 작업에는 트랜잭션이 필요합니다";
     Suggestion := B "@Transactional 어노테이션을 메소드에 추가하세요";
     CodeSnippet := getCodeSnippet file (m_Line method) |}.

Definition Check `{UnicodeTables} (config : RuleConfig) (file : ParsedFile)
    : list Issue :=
  match file_AST file with
  | ASTJavaClass javaClass =>
    let hasServiceAnnotation :=
      existsb (fun annotation => Contains annotation (B "@Service"))
              (c_Annotations javaClass) in
    if negb hasServiceAnnotation then []
    else
      List.fold_left
        (fun issues method =>
           if isDataChangeMethod (m_Name method)
              && negb (hasTransactionalAnnotation (m_Annotations method))
           then
             let complexity := analyzeMethodComplexity file method in
             if requiresTransaction complexity
             then issues ++ [issue_for config file method complexity]
             else issues
           else issues)
        (c_Methods javaClass) []
  | _ => []
  end.

End TransactionalRule.

Definition NewTransactionalRule `{UnicodeTables} (cfg : RuleConfig) : Rule :=
  {| rule_ID := TransactionalRule.ID cfg;
     rule_Name := TransactionalRule.Name cfg;
     rule_Severity := TransactionalRule.Severity cfg;
     rule_Category := TransactionalRule.Category cfg;
     rule_Description := TransactionalRule.Description cfg;
     rule_Check := TransactionalRule.Check cfg |}.

(** ** internal/rules: CyclomaticComplexityRule *)

Module CyclomaticComplexityRule.

Definition ID (config : RuleConfig) : gostring := cfg_ID config.
Definition Name (config : RuleConfig) : gostring := cfg_Name config.
Definition Severity `{UnicodeTables} (config : RuleConfig) : Severity :=
  ParseSeverity (cfg_Severity config).
Definition Category (config : RuleConfig) : gostring := cfg_Category config.
Definition Description (config : RuleConfig) : gostring :=
  cfg_Description config.

Definition keyword_open (kw : string) (open : string) : regex :=
  rcat [WordB; lit kw; StarC is_re_space; lit open].

Definition re_if : regex := keyword_open "if" "(".
Definition re_else_if : regex :=
  rcat [WordB; lit "else"; plus_c is_re_space; lit "if"; StarC is_re_space;
        lit "("].
Definition re_else : regex := rcat [WordB; lit "else"; WordB].
Definition re_while : regex := keyword_open "while" "(".
Definition re_for : regex := keyword_open "for" "(".
Definition re_do : regex := keyword_open "do" "{".
Definition re_switch : regex := keyword_open "switch" "(".
Definition re_case : regex := rcat [WordB; lit "case"; plus_c is_re_space].
Definition re_catch : regex := keyword_open "catch" "(".
Definition re_ternary : regex :=
  rcat [lit "?"; StarC is_re_space; plus_c (not_c (ch ":"));
        StarC is_re_space; lit ":"].
Definition re_and : regex := lit "&&".
Definition re_or : regex := lit "||".

Definition branchPatterns : list regex :=
  [re_if; re_else_if; re_else; re_while; re_for; re_do; re_switch; re_case;
   re_catch; re_ternary; re_and; re_or].

Definition calculateComplexity (file : ParsedFile) (method : JavaMethod)
    : nat :=
  let methodBody := extractMethodBody file method in
  if gostring_eqb methodBody [] then 1%nat
  else
    List.fold_left
      (fun complexity pattern =>
         (complexity + length (FindAllString pattern methodBody))%nat)
      branchPatterns 1%nat.

Definition issue_for `{UnicodeTables} (config : RuleConfig)
    (file : ParsedFile) (method : JavaMethod) (complexity : nat) : Issue :=
  {| RuleID := ID config;
     File := Path file;
     Line := m_Line method;
     Column := m_Column method;
     i_Severity := Severity config;
     i_Category := Category config;
     Message := B "메소드 '" ++ m_Name method
                  ++ B "'의 순환 복잡도가 너무 높습니다 (복잡도: "
                  ++ Itoa complexity ++ B ")";
     i_Description := B "높은 순환 복잡도는 코드 이해도와 테스트 어려움을 증가시킵니다";
     Suggestion := B "메소드를 더 작은 단위로 분할하여 복잡도를 낮추세요";
     CodeSnippet := getCodeSnippet file (m_Line method) |}.

Definition Check `{UnicodeTables} (config : RuleConfig) (file : ParsedFile)
    : list Issue :=
  match file_AST file with
  | ASTJavaClass javaClass =>
    List.fold_left
      (fun issues method =>
         let complexity := calculateComplexity file method in
         if (10 <? complexity)%nat
         then issues ++ [issue_for config file method complexity]
         else issues)
      (c_Methods javaClass) []
  | _ => []
  end.

End CyclomaticComplexityRule.

Definition NewCyclomaticComplexityRule `{UnicodeTables} (cfg : RuleConfig)
    : Rule :=
  {| rule_ID := CyclomaticComplexityRule.ID cfg;
     rule_Name := CyclomaticComplexityRule.Name cfg;
     rule_Severity := CyclomaticComplexityRule.Severity cfg;
     rule_Category := CyclomaticComplexityRule.Category cfg;
     rule_Description := CyclomaticComplexityRule.Description cfg;
     rule_Check := CyclomaticComplexityRule.Check cfg |}.

(** ** internal/rules: DuplicateCodeRule, the block-similarity detector *)

(** Go leaves the order in which [range] visits a map unspecified: any
    enumeration of the entries can occur. *)
Class MapOrder := {
  range_order : gmap gostring (list nat) -> list (gostring * list nat);
  range_order_perm : forall m, range_order m ≡ₚ map_to_list m
}.

Module DuplicateCodeRule.

Definition ID (config : RuleConfig) : gostring := cfg_ID config.
Definition Name (config : RuleConfig) : gostring := cfg_Name config.
Definition Severity `{UnicodeTables} (config : RuleConfig) : Severity :=
  ParseSeverity (cfg_Severity config).
Definition Category (config : RuleConfig) : gostring := cfg_Category config.
Definition Description (config : RuleConfig) : gostring :=
  cfg_Description config.

Definition is_ident_start (r : N) : bool := is_letter r || (r =? 95).

(** The string pattern (a quote, any runes but quotes, a quote), then
    [\b\d+\b] and [\b[a-zA-Z_][a-zA-Z0-9_]*\b]. *)
Definition stringRegex : regex :=
  rcat [Cls (is_c dquote); StarC (not_c dquote); Cls (is_c dquote)].
Definition numberRegex : regex := rcat [WordB; plus_c is_digit; WordB].
Definition variableRegex : regex :=
  rcat [WordB; Cls is_ident_start; StarC is_word_char; WordB].

Definition STRING : gostring := dquote :: B "STRING" ++ [dquote].
Definition NUM : gostring := B "NUM".
Definition VAR : gostring := B "VAR".

Definition normalizeCodeLine (line : gostring) : gostring :=
  let line := ReplaceAllString stringRegex line STRING in
  let line := ReplaceAllString numberRegex line NUM in
  let line := ReplaceAllString variableRegex line VAR in
  line.

Definition is_excluded (trimmed : gostring) : bool :=
  gostring_eqb trimmed [] || HasPrefix trimmed (B "//")
  || HasPrefix trimmed (B "*").

Definition normalizeBlock (lines : list gostring) : gostring :=
  let normalized :=
    List.fold_left
      (fun normalized line =>
         let trimmed := TrimSpace line in
         if is_excluded trimmed then normalized
         else normalized ++ [normalizeCodeLine trimmed])
      lines [] in
  if (length normalized <? 3)%nat then [] else Join normalized [LF].

Definition blockSize : nat := 5.

(** The first loop: the map from normalized block to the 1-based start
    lines of the windows that produce it. *)
Definition collect_blocks (lines : list gostring)
    : gmap gostring (list nat) :=
  List.fold_left
    (fun blocks i =>
       let block := normalizeBlock (slice lines i (i + blockSize)) in
       if negb (gostring_eqb block [])
       then <[block := default [] (blocks !! block) ++ [S i]]> blocks
       else blocks)
    (List.seq 0 (length lines + 1 - blockSize)) ∅.

Definition issue_for `{UnicodeTables} (config : RuleConfig)
    (file : ParsedFile) (lineNum : nat) (count : nat) : Issue :=
  {| RuleID := ID config;
     File := Path file;
     Line := Z.of_nat lineNum;
     Column := 1;
     i_Severity := Severity config;
     i_Category := Category config;
     Message := B "중복된 코드 블록이 발견되었습니다 (" ++ Itoa count
                  ++ B "개 위치에서 반복)";
     i_Description := B "동일한 코드 블록이 여러 곳에서 반복되고 있습니다";
     Suggestion := B "공통 메소드로 추출하여 중복을 제거하세요";
     CodeSnippet := getCodeSnippet file (Z.of_nat lineNum) |}.

(** [issues] is the slice the caller passes by pointer; the result is
    its final content. *)
Definition checkDuplicateBlocks `{UnicodeTables} `{MapOrder}
    (config : RuleConfig) (file : ParsedFile) (issues : list Issue)
    : list Issue :=
  let blocks := collect_blocks (Lines file) in
  List.fold_left
    (fun issues entry =>
       let lines := snd entry in
       if (2 <=? length lines)%nat then
         List.fold_left
           (fun issues lineNum =>
              issues ++ [issue_for config file lineNum (length lines)])
           lines issues
       else issues)
    (range_order blocks) issues.

End DuplicateCodeRule.

(** ** internal/rules: position helpers *)

Definition Count (s : gostring) (b : N) : nat :=
  length (List.filter (fun x => x =? b) s).

Definition getLineNumberFromPosition (content : gostring) (pos : nat) : Z :=
  Z.of_nat (Count (firstn pos content) LF + 1).

Definition getColumnFromPosition (content : gostring) (pos : nat) : Z :=
  let lines := Split (firstn pos content) LF in
  Z.of_nat (length (List.last lines []) + 1).

(** ** internal/rules: LayerArchitectureRule and ExceptionHandlingRule *)

(** [isController], the same text in both rules. *)
Definition isController `{UnicodeTables} (class : JavaClass) : bool :=
  existsb (fun annotation =>
             Contains annotation (B "@Controller")
             || Contains annotation (B "@RestController"))
          (c_Annotations class)
  || Contains (ToLower (c_Name class)) (B "controller").

Module LayerArchitectureRule.

Definition ID (config : RuleConfig) : gostring := cfg_ID config.
Definition Severity `{UnicodeTables} (config : RuleConfig) : Severity :=
  ParseSeverity (cfg_Severity config).
Definition Category (config : RuleConfig) : gostring := cfg_Category config.

Definition isDAOField `{UnicodeTables} (field : JavaField) : bool :=
  let fieldTypeLower := ToLower (f_Type field) in
  Contains fieldTypeLower (B "dao")
  || Contains fieldTypeLower (B "repository")
  || Contains fieldTypeLower (B "mapper").

Definition checkControllerDAODependency `{UnicodeTables}
    (config : RuleConfig) (file : ParsedFile) (class : JavaClass)
    : list Issue :=
  List.fold_left
    (fun issues field =>
       if isDAOField field then
         issues ++
         [{| RuleID := ID config;
             File := Path file;
             Line := f_Line field;
             Column := 0;
             i_Severity := Severity config;
             i_Category := Category config;
             Message := B "Controller에서 DAO를 직접 의존하고 있습니다";
             i_Description := B "레이어 아키텍처 위반으로 유지보수성이 저하됩니다";
             Suggestion := B "Service 레이어를 통해 데이터에 접근하세요";
             CodeSnippet := getCodeSnippet file (f_Line field) |}]
       else issues)
    (c_Fields class) [].

Definition Check `{UnicodeTables} (config : RuleConfig) (file : ParsedFile)
    : list Issue :=
  match file_AST file with
  | ASTJavaClass javaClass =>
    if isController javaClass
    then [] ++ checkControllerDAODependency config file javaClass
    else []
  | _ => []
  end.

End LayerArchitectureRule.

Module ExceptionHandlingRule.

Definition ID (config : RuleConfig) : gostring := cfg_ID config.
Definition Severity `{UnicodeTables} (config : RuleConfig) : Severity :=
  ParseSeverity (cfg_Severity config).
Definition Category (config : RuleConfig) : gostring := cfg_Category config.

(** [\.printStackTrace\(\)] and [throw\s+new\s+Exception\s*\([^)]*\)] *)
Definition printStackTraceRegex : regex := lit ".printStackTrace()".
Definition throwRegex : regex :=
  rcat [lit "throw"; plus_c is_re_space; lit "new"; plus_c is_re_space;
        lit "Exception"; StarC is_re_space; lit "(";
        StarC (not_c (ch ")")); lit ")"].

Definition hasGlobalExceptionHandler (content : gostring) : bool :=
  Contains content (B "@ControllerAdvice")
  || Contains content (B "@RestControllerAdvice").

Definition text_issue `{UnicodeTables} (config : RuleConfig)
    (file : ParsedFile) (message description suggestion : gostring)
    (pos : nat) : Issue :=
  let lineNum := getLineNumberFromPosition (Content file) pos in
  {| RuleID := ID config;
     File := Path file;
     Line := lineNum;
     Column := getColumnFromPosition (Content file) pos;
     i_Severity := Severity config;
     i_Category := Category config;
     Message := message;
     i_Description := description;
     Suggestion := suggestion;
     CodeSnippet := getCodeSnippet file lineNum |}.

Definition Check `{UnicodeTables} (config : RuleConfig) (file : ParsedFile)
    : list Issue :=
  let issues :=
    List.fold_left
      (fun issues m =>
         issues ++
         [text_issue config file
            (B "printStackTrace() 사용이 발견되었습니다")
            (B "예외 스택트레이스가 콘솔에 노출되어 보안 위험이 있습니다")
            (B "Logger를 사용하여 적절한 로깅을 하세요") (fst m)])
      (FindAllStringIndex printStackTraceRegex (Content file)) [] in
  let issues :=
    List.fold_left
      (fun issues m =>
         issues ++
         [text_issue config file
            (B "일반적인 Exception 타입을 사용하고 있습니다")
            (B "구체적인 예외 타입을 사용하는 것이 좋습니다")
            (B "구체적인 예외 클래스(BusinessException 등)를 정의하여 사용하세요")
            (fst m)])
      (FindAllStringIndex throwRegex (Content file)) issues in
  match file_AST file with
  | ASTJavaClass javaClass =>
    if isController javaClass
       && negb (hasGlobalExceptionHandler (Content file))
    then issues ++
         [{| RuleID := ID config;
             File := Path file;
             Line := 1;
             Column := 1;
             i_Severity := Severity config;
             i_Category := Category config;
             Message := B "전역 예외 처리기(@ControllerAdvice)가 없습니다";
             i_Description := B "일관된 예외 처리를 위해 전역 예외 처리기가 필요합니다";
             Suggestion := B "@ControllerAdvice 클래스를 생성하여 전역 예외 처리를 구현하세요";
             CodeSnippet := [] |}]
    else issues
  | _ => issues
  end.

End ExceptionHandlingRule.

Definition NewLayerArchitectureRule `{UnicodeTables} (cfg : RuleConfig)
    : Rule :=
  {| rule_ID := cfg_ID cfg;
     rule_Name := cfg_Name cfg;
     rule_Severity := ParseSeverity (cfg_Severity cfg);
     rule_Category := cfg_Category cfg;
     rule_Description := cfg_Description cfg;
     rule_Check := LayerArchitectureRule.Check cfg |}.

Definition NewExceptionHandlingRule `{UnicodeTables} (cfg : RuleConfig)
    : Rule :=
  {| rule_ID := cfg_ID cfg;
     rule_Name := cfg_Name cfg;
     rule_Severity := ParseSeverity (cfg_Severity cfg);
     rule_Category := cfg_Category cfg;
     rule_Description := cfg_Description cfg;
     rule_Check := ExceptionHandlingRule.Check cfg |}.

(** ** Specification-side notions *)

(** Spans in increasing order that do not overlap: each starts at or after
    [lo], and the next starts at or after its end. *)
Fixpoint ordered_spans (lo : nat) (l : list (nat * nat)) : Prop :=
  match l with
  | [] => True
  | m :: l' => (lo <= fst m)%nat /\ (fst m <= snd m)%nat /\ ordered_spans (snd m) l'
  end.

Definition severity_names : list gostring :=
  [B "low"; B "medium"; B "high"; B "critical"].

Definition lower_byte (b : N) : N := if is_upper b then b + 32 else b.

(** The tables of a run in which no rune beyond ASCII changes case; used
    for concrete evaluations. *)
Definition plain_tables : UnicodeTables := {| lower_table := fun r => r |}.

(** Spec-side: equality of two strings when the case of ASCII letters is
    ignored. *)
Fixpoint same_ignoring_case (s t : gostring) : bool :=
  match s, t with
  | [], [] => true
  | a :: s', b :: t' =>
    ((a =? b) || (is_upper a && (a + 32 =? b)) || (is_upper b && (b + 32 =? a)))
    && same_ignoring_case s' t'
  | _, _ => false
  end.

(** Tables with the entry of U+0130, LATIN CAPITAL LETTER I WITH DOT
    ABOVE, which [unicode.ToLower] maps to the letter i. *)
Definition dotted_I_tables : UnicodeTables :=
  {| lower_table := fun r => if r =? 304 then 105 else r |}.





(** The findings of [ExceptionHandlingRule] that come from the text alone. *)
Definition text_findings `{UnicodeTables} (config : RuleConfig)
    (file : ParsedFile) : list Issue :=
  List.map (fun m =>
              ExceptionHandlingRule.text_issue config file
                (B "printStackTrace() 사용이 발견되었습니다")
                (B "예외 스택트레이스가 콘솔에 노출되어 보안 위험이 있습니다")
                (B "Logger를 사용하여 적절한 로깅을 하세요") (fst m))
           (FindAllStringIndex ExceptionHandlingRule.printStackTraceRegex
                               (Content file))
  ++
  List.map (fun m =>
              ExceptionHandlingRule.text_issue config file
                (B "일반적인 Exception 타입을 사용하고 있습니다")
                (B "구체적인 예외 타입을 사용하는 것이 좋습니다")
                (B "구체적인 예외 클래스(BusinessException 등)를 정의하여 사용하세요")
                (fst m))
           (FindAllStringIndex ExceptionHandlingRule.throwRegex (Content file)).

(** Sample inputs for concrete evaluations. *)
Definition sample_config : RuleConfig :=
  {| cfg_ID := B "sample-rule"; cfg_Name := B "sample";
     cfg_Severity := B "high"; cfg_Category := B "maintainability";
     cfg_Description := []; cfg_Enabled := true;
     cfg_Pattern := {| pc_Type := []; pc_Regex := []; pc_ASTPattern := [];
                       pc_Conditions := [] |};
     cfg_Exclude := []; cfg_Custom := ∅ |}.

Definition sample_file (language : string) (content : gostring) (ast : AST)
    : ParsedFile :=
  {| Path := B "Sample"; Language := B language; Content := content;
     Lines := Split content LF; Tokens := []; file_AST := ast |}.

Definition sample_method (name : string) (annotations : list gostring)
    : JavaMethod :=
  {| m_Name := B name; m_Annotations := annotations; m_Parameters := [];
     m_ReturnType := B "void"; m_Line := 1; m_Column := 0; m_Body := [];
     m_IsPublic := true; m_IsPrivate := false; m_IsProtected := false;
     m_IsStatic := false |}.

Definition sample_class (annotations : list gostring)
    (methods : list JavaMethod) : JavaClass :=
  {| c_Name := B "Sample"; c_Annotations := annotations;
     c_Methods := methods; c_Fields := []; c_Imports := [];
     c_Package := [] |}.

(** A script file, with function facts, whose text prints a stack trace. *)
Definition script_with_trace : ParsedFile :=
  sample_file "javascript" (B "try { run(); } catch (e) { e.printStackTrace(); }")
              (ASTJSFunctions []).

(** The longest prefix of a list whose elements satisfy [p]. *)
Fixpoint take_while {A} (p : A -> bool) (l : list A) : list A :=
  match l with
  | [] => []
  | x :: l' => if p x then x :: take_while p l' else []
  end.





(** A class file whose first line is a comment in Korean, as the sample
    sources of the repository have: three-byte runes precede the method. *)
Definition commented_file : ParsedFile :=
  sample_file "java" (B "// 한글" ++ LF :: B "void f() { a; }" ++ [LF]) ASTNil.

(** The same shape with a brace that is never closed. *)
Definition truncated_file : ParsedFile :=
  sample_file "java" (B "// 한" ++ LF :: B "f(){ { }") ASTNil.

(** The brace depth after each byte of a text, starting from depth [d]:
    up on an opening brace, down on a closing one. *)
Fixpoint depth_trace (s : gostring) (d : Z) : list Z :=
  match s with
  | [] => []
  | c :: s' =>
    let d' := if c =? ch "{" then (d + 1)%Z
              else if c =? ch "}" then (d - 1)%Z else d in
    d' :: depth_trace s' d'
  end.

(** The key of the window of [blockSize] lines that starts at index [i],
    and the start indices of all windows of a file. *)
Definition window_key (lines : list gostring) (i : nat) : gostring :=
  DuplicateCodeRule.normalizeBlock
    (slice lines i (i + DuplicateCodeRule.blockSize)).

Definition window_starts (lines : list gostring) : list nat :=
  List.seq 0 (length lines + 1 - DuplicateCodeRule.blockSize).

(** The 1-based start lines, in order, of the windows among [ixs] whose
    key is [k]. *)
Definition group_of (lines : list gostring) (ixs : list nat) (k : gostring)
    : list nat :=
  List.map S (List.filter (fun i => gostring_eqb (window_key lines i) k) ixs).

(** A line that is neither blank nor a comment line. *)
Definition substantive (line : gostring) : bool :=
  negb (DuplicateCodeRule.is_excluded (TrimSpace line)).

(** What the detector has to report, window by window: a window with a
    key whose group has at least two members gives one finding, at its
    start line, with the size of the group. *)
Definition expected_block_findings `{UnicodeTables} (config : RuleConfig)
    (file : ParsedFile) : list Issue :=
  List.flat_map
    (fun i =>
       let k := window_key (Lines file) i in
       let n := length (group_of (Lines file) (window_starts (Lines file)) k) in
       if negb (gostring_eqb k []) && (2 <=? n)%nat
       then [DuplicateCodeRule.issue_for config file (S i) n] else [])
    (window_starts (Lines file)).

(** One step of the first loop of [checkDuplicateBlocks]. *)
Definition add_window (lines : list gostring)
    (blocks : gmap gostring (list nat)) (i : nat) : gmap gostring (list nat) :=
  let block := window_key lines i in
  if negb (gostring_eqb block [])
  then <[block := default [] (blocks !! block) ++ [S i]]> blocks
  else blocks.

(** The order in which stdpp lists a map, as one possible [range] order. *)
Definition listed_order : MapOrder :=
  {| range_order := map_to_list;
     range_order_perm := fun m => Permutation_refl (map_to_list m) |}.


(** ** Lines as tokens

    A line is cut into maximal runs of word bytes ([Word]), double quotes
    ([Quote]) and maximal runs of other bytes ([Other]); the patterns of
    the normalization only tell these three kinds apart. *)
Inductive piece :=
| Word (w : gostring)
| Quote
| Other (g : gostring).

Definition piece_bytes (p : piece) : gostring :=
  match p with
  | Word w => w
  | Quote => [dquote]
  | Other g => g
  end.

Definition render (ps : list piece) : gostring :=
  List.flat_map piece_bytes ps.

Definition piece_ok (p : piece) : Prop :=
  match p with
  | Word w => w <> [] /\ Forall (fun b => is_word_char b = true) w
  | Quote => True
  | Other g =>
    g <> [] /\ Forall (fun b => is_word_char b = false /\ b <> dquote) g
  end.

(** Two neighbours that would merge into one run. *)
Definition clash (p q : piece) : bool :=
  match p, q with
  | Word _, Word _ => true
  | Other _, Other _ => true
  | _, _ => false
  end.

Fixpoint tokens_ok (ps : list piece) : Prop :=
  match ps with
  | [] => True
  | p :: rest =>
    piece_ok p
    /\ match rest with q :: _ => clash p q = false | [] => True end
    /\ tokens_ok rest
  end.

(** A word the variable pattern takes for an identifier. *)
Definition is_identifier (w : gostring) : bool :=
  match w with
  | c :: w' => DuplicateCodeRule.is_ident_start c && forallb is_word_char w'
  | [] => false
  end.

(** The substitution [sigma] applied to every identifier of a line. *)
Definition rename (sigma : gostring -> gostring) (ps : list piece)
    : list piece :=
  List.map (fun p => match p with
                     | Word w => if is_identifier w then Word (sigma w) else p
                     | _ => p
                     end) ps.

Definition keeps_identifiers (sigma : gostring -> gostring) : Prop :=
  forall w, is_identifier w = true -> is_identifier (sigma w) = true.

(** The runes of a piece with their bytes. *)
Definition piece_chunks (p : piece) : list chunk :=
  match p with
  | Word w => List.map (fun b => (b, [b])) w
  | Quote => [(dquote, [dquote])]
  | Other g => chunks g
  end.

Definition is_quote (p : piece) : bool :=
  match p with Quote => true | _ => false end.

(** The effect of the string pattern on tokens: from an opening quote
    that has a partner, everything up to the partner becomes the word
    STRING between the two quotes.  [inlit] tells that an opening quote
    was passed and its partner not yet. *)
Fixpoint strings_out (inlit : bool) (ps : list piece) : list piece :=
  match ps with
  | [] => []
  | p :: rest =>
    if inlit then
      match p with
      | Quote => Quote :: strings_out false rest
      | _ => strings_out true rest
      end
    else
      match p with
      | Quote =>
        if existsb is_quote rest
        then Quote :: Word (B "STRING") :: strings_out true rest
        else Quote :: strings_out false rest
      | _ => p :: strings_out false rest
      end
  end.

(** The effect of the number and of the variable pattern on one token. *)
Definition numbers_out (p : piece) : piece :=
  match p with
  | Word w => if forallb is_digit w then Word DuplicateCodeRule.NUM else p
  | _ => p
  end.

Definition variables_out (p : piece) : piece :=
  match p with
  | Word w => if is_identifier w then Word DuplicateCodeRule.VAR else p
  | _ => p
  end.

(** The rune before the position reached after passing the runes [u],
    and the same for chunks. *)
Definition last_rune (prev : option N) (u : list N) : option N :=
  List.fold_left (fun _ c => Some c) u prev.

Definition prev_after (prev : option N) (blk : list chunk) : option N :=
  last_rune prev (List.map fst blk).

Definition chunk_bytes (blk : list chunk) : gostring :=
  List.concat (List.map snd blk).

(** Text that is empty or starts with an ASCII byte. *)
Definition ascii_start (b : gostring) : Prop :=
  b = [] \/ exists c b', b = c :: b' /\ c < 128.

(** The effect of a pattern that replaces whole words: the words that
    [cond] accepts become [repl]. *)
Definition word_out (repl : gostring) (cond : gostring -> bool) (p : piece)
    : piece :=
  match p with
  | Word w => if cond w then Word repl else p
  | _ => p
  end.

(** The number of runes up to and with the first quote. *)
Fixpoint chunks_to_quote (ps : list piece) : nat :=
  match ps with
  | [] => 0
  | Quote :: _ => 1
  | p :: rest => length (piece_chunks p) + chunks_to_quote rest
  end.

(** The two halves of [TrimSpace]. *)
Definition TrimLeft (s : gostring) : gostring := trim_left_from s 0.
Definition TrimRight (s : gostring) : gostring :=
  rev (trim_right_rev (rev s) 0).

(** Text that is empty or starts with an ASCII byte that is not white
    space. *)
Definition solid_start (x : gostring) : Prop :=
  match x with
  | [] => True
  | c :: _ => c < 128 /\ IsSpace c = false
  end.

(** How far [DecodeLastRune] steps back when the last byte [b] is not
    ASCII and [t] is, in reverse, what precedes it. *)
Definition back_len (t : gostring) : nat :=
  match t with
  | b1 :: t1 =>
    if negb (is_cont b1) then 2%nat
    else match t1 with
         | b2 :: t2 =>
           if negb (is_cont b2) then 3%nat
           else match t2 with
                | _ :: _ => 4%nat
                | [] => 3%nat
                end
         | [] => 2%nat
         end
  | [] => 1%nat
  end.

(** The outer white space of a line, on tokens: it sits in the first and
    in the last piece, when these are runs of other bytes. *)
Definition trim_first (ps : list piece) : list piece :=
  match ps with
  | Other g :: rest =>
    match TrimLeft g with
    | [] => rest
    | g' => Other g' :: rest
    end
  | _ => ps
  end.

(** The same at the end of the line. *)
Fixpoint trim_last (ps : list piece) : list piece :=
  match ps with
  | [] => []
  | p :: rest =>
    match rest with
    | [] =>
      match p with
      | Other g =>
        match TrimRight g with
        | [] => []
        | g' => [Other g']
        end
      | _ => [p]
      end
    | _ :: _ => p :: trim_last rest
    end
  end.

(** Two pieces that are the same up to the name of an identifier: equal
    pieces, or two words that both are identifiers. *)
Definition same_shape (p q : piece) : bool :=
  match p, q with
  | Word w, Word w' =>
    (is_identifier w && is_identifier w') || gostring_eqb w w'
  | Quote, Quote => true
  | Other g, Other g' => gostring_eqb g g'
  | _, _ => false
  end.

(** Two lines of tokens that are of the same shape piece by piece. *)
Fixpoint renamed (ps qs : list piece) : bool :=
  match ps, qs with
  | [], [] => true
  | p :: ps', q :: qs' => same_shape p q && renamed ps' qs'
  | _, _ => false
  end.

(** The tokens of a line: each byte joins the run that follows it when
    it is of the same kind, and a quote stands alone. *)
Definition push (b : N) (ps : list piece) : list piece :=
  if b =? dquote then Quote :: ps
  else if is_word_char b then
    match ps with
    | Word w :: rest => Word (b :: w) :: rest
    | _ => Word [b] :: ps
    end
  else
    match ps with
    | Other g :: rest => Other (b :: g) :: rest
    | _ => Other [b] :: ps
    end.

Definition tokenize (s : gostring) : list piece :=
  List.fold_right push [] s.

(** Two lines that differ only in the names of identifiers. *)
Definition renamed_line (l1 l2 : gostring) : bool :=
  renamed (tokenize l1) (tokenize l2).

(** Two copies of one block of five lines that differ only in the names
    of identifiers, kept apart by a line that differs. *)
Definition renamed_copies : ParsedFile :=
  let lines :=
    [ B "int a = 1;"; B "b(c, " ++ [dquote] ++ B "x y" ++ [dquote] ++ B ");";
      B "  d.e(f);"; B "if (h) { i++; }"; B "return j + 2;";
      B "!";
      B "int total = 1;";
      B "log(msg, " ++ [dquote] ++ B "x y" ++ [dquote] ++ B ");";
      B "  repo.save(user);"; B "if (ok) { count++; }";
      B "return left + 2;" ] in
  {| Path := B "Renamed.java"; Language := B "java";
     Content := Join lines [LF]; Lines := lines; Tokens := [];
     file_AST := ASTNil |}.

(** ** Notions for the score of a body *)



(** Every match of [r] takes at least one rune. *)
Fixpoint consumes (r : regex) : bool :=
  match r with
  | Cls _ => true
  | Cat a b => consumes a || consumes b
  | Alt a b => consumes a && consumes b
  | Eps | StarC _ | WordB => false
  end.


(** The number of matches among runes. *)
Definition count_from (r : regex) (s : list N) : nat :=
  length (find_all_from r None s 0 0 false).












(** ** Notions for body extraction *)

(** Every match of [r] ends with a rune that satisfies [P]. *)
Fixpoint ends_in (P : N -> Prop) (r : regex) : Prop :=
  match r with
  | Cls p => forall x, p x = true -> P x
  | Cat a Eps => ends_in P a
  | Cat a b => ends_in P b
  | _ => False
  end.

(** The brace depth after one more byte. *)
Definition depth_step (c : N) (d : Z) : Z :=
  if c =? ch "{" then (d + 1)%Z
  else if c =? ch "}" then (d - 1)%Z else d.

(** The number of bytes of [t] after which the brace depth, [d] before
    [t], is 0 for the first time. *)
Fixpoint close_index (t : gostring) (d : Z) : option nat :=
  match t with
  | [] => None
  | c :: t' =>
    if (depth_step c d =? 0)%Z then Some 1%nat
    else option_map S (close_index t' (depth_step c d))
  end.

(** The text from an opening brace to its partner, both included; empty
    when the brace has no partner. *)
Definition balanced_from (t : gostring) : gostring :=
  match close_index t 0 with
  | Some k => firstn k t
  | None => []
  end.

(** ** internal/config: the configuration *)

Record LanguageRules := {
  lr_Language : gostring;
  lr_Rules : list RuleConfig
}.

Record Config := {
  conf_Version : gostring;
  conf_Languages : list LanguageRules
}.

(** The loop that [LoadConfig] runs on the configuration that
    [yaml.Unmarshal] has filled: a rule that is not enabled and has an ID
    becomes enabled. *)
Definition LoadConfig_defaults (config : Config) : Config :=
  {| conf_Version := conf_Version config;
     conf_Languages :=
       List.map
         (fun lr =>
            {| lr_Language := lr_Language lr;
               lr_Rules :=
                 List.map
                   (fun rule =>
                      if negb (cfg_Enabled rule)
                         && negb (gostring_eqb (cfg_ID rule) [])
                      then {| cfg_ID := cfg_ID rule;
                              cfg_Name := cfg_Name rule;
                              cfg_Severity := cfg_Severity rule;
                              cfg_Category := cfg_Category rule;
                              cfg_Description := cfg_Description rule;
                              cfg_Enabled := true;
                              cfg_Pattern := cfg_Pattern rule;
                              cfg_Exclude := cfg_Exclude rule;
                              cfg_Custom := cfg_Custom rule |}
                      else rule)
                   (lr_Rules lr) |})
         (conf_Languages config) |}.

(** [GetRulesForLanguage]: the loop returns at the first entry of the
    language. *)
Fixpoint rules_of_language (languages : list LanguageRules)
    (language : gostring) : list RuleConfig :=
  match languages with
  | [] => []
  | langRules :: rest =>
    if gostring_eqb (lr_Language langRules) language then
      List.fold_left
        (fun enabledRules rule =>
           if cfg_Enabled rule then enabledRules ++ [rule] else enabledRules)
        (lr_Rules langRules) []
    else rules_of_language rest language
  end.

Definition GetRulesForLanguage (c : Config) (language : gostring)
    : list RuleConfig :=
  rules_of_language (conf_Languages c) language.

(** The methods that filter change the configuration in place; here they
    return the new one.  [keep_rules] is their common loop
    [for i := range c.Languages { ... c.Languages[i].Rules = filteredRules }]. *)
Definition keep_rules (c : Config) (keep : RuleConfig -> bool) : Config :=
  {| conf_Version := conf_Version c;
     conf_Languages :=
       List.map
         (fun lr =>
            {| lr_Language := lr_Language lr;
               lr_Rules :=
                 List.fold_left
                   (fun filteredRules rule =>
                      if keep rule then filteredRules ++ [rule]
                      else filteredRules)
                   (lr_Rules lr) [] |})
         (conf_Languages c) |}.

Definition FilterByCategories (c : Config) (categories : gostring) : Config :=
  if gostring_eqb categories [] then c
  else
    let categoryList := Split categories (ch ",") in
    let categoryMap : gmap gostring bool :=
      List.fold_left (fun m cat => <[TrimSpace cat := true]> m)
                     categoryList ∅ in
    keep_rules c (fun rule =>
                    default false (categoryMap !! cfg_Category rule)).

Definition FilterBySeverity `{UnicodeTables} (c : Config)
    (minSeverity : Severity) : Config :=
  keep_rules c (fun rule =>
                  (minSeverity <=? ParseSeverity (cfg_Severity rule))%Z).

(** The order in which [range] visits the keys of a [map[string]bool]. *)
Class KeyOrder := {
  range_keys : gmap gostring bool -> list gostring;
  range_keys_perm : forall m, range_keys m ≡ₚ List.map fst (map_to_list m)
}.

Definition GetAllCategories `{KeyOrder} (c : Config) : list gostring :=
  let categoryMap : gmap gostring bool :=
    List.fold_left
      (fun m langRules =>
         List.fold_left (fun m rule => <[cfg_Category rule := true]> m)
                        (lr_Rules langRules) m)
      (conf_Languages c) ∅ in
  List.fold_left (fun categories category => categories ++ [category])
                 (range_keys categoryMap) [].

(** Spec-side: the first entry of a language, a rule switched on, and the
    categories a list of names stands for. *)
Definition first_entry (c : Config) (language : gostring)
    : option LanguageRules :=
  List.find (fun lr => gostring_eqb (lr_Language lr) language)
            (conf_Languages c).

Definition enabled_rule (rule : RuleConfig) : RuleConfig :=
  {| cfg_ID := cfg_ID rule; cfg_Name := cfg_Name rule;
     cfg_Severity := cfg_Severity rule; cfg_Category := cfg_Category rule;
     cfg_Description := cfg_Description rule; cfg_Enabled := true;
     cfg_Pattern := cfg_Pattern rule; cfg_Exclude := cfg_Exclude rule;
     cfg_Custom := cfg_Custom rule |}.

Definition named_categories (categories : gostring) : list gostring :=
  List.map TrimSpace (Split categories (ch ",")).

Definition all_rules (c : Config) : list RuleConfig :=
  List.flat_map lr_Rules (conf_Languages c).

Definition listed_keys : KeyOrder :=
  {| range_keys := fun m => List.map fst (map_to_list m);
     range_keys_perm := fun m => Permutation_refl _ |}.

Definition sample_rule (id category severity : string) (enabled : bool)
    : RuleConfig :=
  {| cfg_ID := B id; cfg_Name := B id; cfg_Severity := B severity;
     cfg_Category := B category; cfg_Description := [];
     cfg_Enabled := enabled;
     cfg_Pattern := {| pc_Type := []; pc_Regex := []; pc_ASTPattern := [];
                       pc_Conditions := [] |};
     cfg_Exclude := []; cfg_Custom := ∅ |}.

Definition sample_configuration : Config :=
  {| conf_Version := B "1.0";
     conf_Languages :=
       [ {| lr_Language := B "java";
            lr_Rules := [ sample_rule "java-system-out" "security" "HIGH" false;
                          sample_rule "" "style" "low" false;
                          sample_rule "java-magic-number" "style" "urgent" true ] |};
         {| lr_Language := B "css";
            lr_Rules := [ sample_rule "css-selectors" "performance" "medium" true ] |};
         {| lr_Language := B "java";
            lr_Rules := [ sample_rule "java-method-length" "style" "low" true ] |} ] |}.

(** [getLineNumber] of the parser. *)
Definition getLineNumber (content : gostring) (pos : nat) : Z :=
  Z.of_nat (Count (firstn pos content) LF + 1).

(** The positions, counted from [pos], at which [text] starts in [s]. *)
Fixpoint occurrences (s text : gostring) (pos : nat) : list nat :=
  match s with
  | [] => []
  | _ :: t =>
    (if HasPrefix s text then [pos] else []) ++ occurrences t text (S pos)
  end.

(** No end of [text] other than [text] itself is a start of it: two
    occurrences of [text] cannot overlap. *)
Definition borderless (text : gostring) : bool :=
  forallb (fun d => negb (HasPrefix text (skipn d text)))
          (List.seq 1 (length text - 1)).

(** A rune with its bytes, as [chunks] gives them: one ASCII byte that
    is the rune, or a rune from 128 on whose bytes are all from 128 on. *)
Definition chunk_ok (c : chunk) : Prop :=
  (fst c < 128 /\ snd c = [fst c])
  \/ (128 <= fst c /\ snd c <> [] /\ Forall (fun b => 128 <= b) (snd c)).

(** ** internal/rules: SystemOutRule *)

Module SystemOutRule.

Definition ID (config : RuleConfig) : gostring := cfg_ID config.
Definition Severity `{UnicodeTables} (config : RuleConfig) : Severity :=
  ParseSeverity (cfg_Severity config).
Definition Category (config : RuleConfig) : gostring := cfg_Category config.

(** [System\.out\.(print|println)] *)
Definition systemOutRegex : regex :=
  rcat [lit "System.out."; alts (lit "print") [lit "println"]].

Definition issue_for `{UnicodeTables} (config : RuleConfig)
    (file : ParsedFile) (pos : nat) : Issue :=
  let lineNum := getLineNumberFromPosition (Content file) pos in
  {| RuleID := ID config;
     File := Path file;
     Line := lineNum;
     Column := getColumnFromPosition (Content file) pos;
     i_Severity := Severity config;
     i_Category := Category config;
     Message := B "System.out.println 사용이 발견되었습니다";
     i_Description := B "프로덕션 환경에서 불필요한 정보 노출 위험이 있습니다";
     Suggestion := B "Logger를 사용하여 로깅하세요";
     CodeSnippet := getCodeSnippet file lineNum |}.

Definition Check `{UnicodeTables} (config : RuleConfig) (file : ParsedFile)
    : list Issue :=
  List.fold_left
    (fun issues m => issues ++ [issue_for config file (fst m)])
    (FindAllStringIndex systemOutRegex (Content file)) [].

End SystemOutRule.

(** A file that prints twice on its second line. *)
Definition printing_file : ParsedFile :=
  sample_file "java"
    (B "void f() {" ++ LF :: B "  System.out.println(a); System.out.printf(b);"
       ++ LF :: B "}") ASTNil.

(** ** internal/rules: MagicNumberRule *)

Module MagicNumberRule.

Definition ID (config : RuleConfig) : gostring := cfg_ID config.
Definition Severity `{UnicodeTables} (config : RuleConfig) : Severity :=
  ParseSeverity (cfg_Severity config).
Definition Category (config : RuleConfig) : gostring := cfg_Category config.

(** [\b((?:[1-9]\d{2,})|(?:\d+\.\d+))\b] *)
Definition magicNumberRegex : regex :=
  rcat [WordB;
        Alt (rcat [Cls (in_range 49 57); Cls is_digit; Cls is_digit;
                   StarC is_digit])
            (rcat [plus_c is_digit; lit "."; plus_c is_digit]);
        WordB].

Definition isExcludedNumber (number : gostring) : bool :=
  existsb (fun excluded => gostring_eqb number excluded)
          [B "0"; B "1"; B "2"; B "10"; B "100"; B "1000"].

Definition issue_for `{UnicodeTables} (config : RuleConfig)
    (file : ParsedFile) (pos : nat) (number : gostring) : Issue :=
  let lineNum := getLineNumberFromPosition (Content file) pos in
  {| RuleID := ID config;
     File := Path file;
     Line := lineNum;
     Column := getColumnFromPosition (Content file) pos;
     i_Severity := Severity config;
     i_Category := Category config;
     Message := B "매직 넘버가 발견되었습니다: " ++ number;
     i_Description := B "하드코딩된 숫자는 코드 가독성을 저하시킵니다";
     Suggestion := B "의미있는 상수로 정의하세요";
     CodeSnippet := getCodeSnippet file lineNum |}.

(** The only group of the pattern spans the whole match, the two [\b]
    having no width: [match[1]] is the matched text, and [len(match)] is
    always 2. *)
Definition Check `{UnicodeTables} (config : RuleConfig) (file : ParsedFile)
    : list Issue :=
  List.fold_left
    (fun issues m =>
       let number := slice (Content file) (fst m) (snd m) in
       if isExcludedNumber number then issues
       else issues ++ [issue_for config file (fst m) number])
    (FindAllStringIndex magicNumberRegex (Content file)) [].

End MagicNumberRule.

(** The least number of runes a match has, and the runes it can hold. *)
Fixpoint min_len (r : regex) : nat :=
  match r with
  | Cls _ => 1
  | Cat a b => min_len a + min_len b
  | Alt a b => Nat.min (min_len a) (min_len b)
  | Eps | StarC _ | WordB => 0
  end.

Fixpoint may_hold (r : regex) (c : N) : bool :=
  match r with
  | Cls p | StarC p => p c
  | Cat a b | Alt a b => may_hold a c || may_hold b c
  | Eps | WordB => false
  end.

(** [strings.Index]: where [substr] first starts in [s], or -1. *)
Fixpoint Index (s substr : gostring) : Z :=
  if HasPrefix s substr then 0%Z
  else match s with
       | [] => (-1)%Z
       | _ :: s' =>
         let i := Index s' substr in
         if (i <? 0)%Z then (-1)%Z else (i + 1)%Z
       end.

(** ** internal/rules: InputValidationRule *)

Module InputValidationRule.

Definition ID (config : RuleConfig) : gostring := cfg_ID config.
Definition Severity `{UnicodeTables} (config : RuleConfig) : Severity :=
  ParseSeverity (cfg_Severity config).
Definition Category (config : RuleConfig) : gostring := cfg_Category config.

(** [BenefitValidation\.(isEmpty|isNull|isValid)] *)
Definition benefitValidationRegex : regex :=
  rcat [lit "BenefitValidation.";
        alts (lit "isEmpty") [lit "isNull"; lit "isValid"]].

Definition isControllerMethod (method : JavaMethod) : bool :=
  existsb (fun annotation =>
             Contains annotation (B "@RequestMapping")
             || Contains annotation (B "@GetMapping")
             || Contains annotation (B "@PostMapping")
             || Contains annotation (B "@PutMapping")
             || Contains annotation (B "@DeleteMapping"))
          (m_Annotations method).

(** [hasValidAnnotation] and [hasRequestBodyParameter] are the same text
    but for the annotation that is looked for. *)
Definition found_before (annotation : gostring) (parameters : list gostring)
    (content : gostring) : bool :=
  existsb (fun param =>
             let paramIndex := Index content param in
             if negb (paramIndex =? -1)%Z then
               let startIndex := (paramIndex - 100)%Z in
               let startIndex :=
                 if (startIndex <? 0)%Z then 0%Z else startIndex in
               let context :=
                 slice content (Z.to_nat startIndex) (Z.to_nat paramIndex) in
               Contains context annotation
             else false)
          parameters.

Definition hasValidAnnotation (parameters : list gostring)
    (content : gostring) : bool :=
  found_before (B "@Valid") parameters content.

Definition hasRequestBodyParameter (parameters : list gostring)
    (content : gostring) : bool :=
  found_before (B "@RequestBody") parameters content.

Definition text_issue `{UnicodeTables} (config : RuleConfig)
    (file : ParsedFile) (pos : nat) : Issue :=
  let lineNum := getLineNumberFromPosition (Content file) pos in
  {| RuleID := ID config;
     File := Path file;
     Line := lineNum;
     Column := getColumnFromPosition (Content file) pos;
     i_Severity := Severity config;
     i_Category := Category config;
     Message := B "커스텀 검증 로직 대신 Bean Validation 표준을 사용하세요";
     i_Description :=
       B "표준 검증 미적용 시 SQL인젝션, XSS 등 보안 취약점 위험이 증가합니다";
     Suggestion :=
       B "@Valid, @NotNull, @Size 등 Bean Validation 어노테이션을 사용하세요";
     CodeSnippet := getCodeSnippet file lineNum |}.

Definition method_issue `{UnicodeTables} (config : RuleConfig)
    (file : ParsedFile) (method : JavaMethod) : Issue :=
  {| RuleID := ID config;
     File := Path file;
     Line := m_Line method;
     Column := m_Column method;
     i_Severity := Severity config;
     i_Category := Category config;
     Message := B "@RequestBody 파라미터에 @Valid 어노테이션이 누락되었습니다";
     i_Description := B "입력 검증이 누락되어 잘못된 데이터가 처리될 수 있습니다";
     Suggestion := B "@RequestBody @Valid 를 사용하여 자동 검증을 적용하세요";
     CodeSnippet := getCodeSnippet file (m_Line method) |}.

Definition Check `{UnicodeTables} (config : RuleConfig) (file : ParsedFile)
    : list Issue :=
  match file_AST file with
  | ASTJavaClass javaClass =>
    if negb (isController javaClass) then []
    else
      let issues :=
        List.fold_left
          (fun issues m => issues ++ [text_issue config file (fst m)])
          (FindAllStringIndex benefitValidationRegex (Content file)) [] in
      List.fold_left
        (fun issues method =>
           if isControllerMethod method
              && negb (hasValidAnnotation (m_Parameters method)
                                          (Content file))
           then
             if hasRequestBodyParameter (m_Parameters method) (Content file)
             then issues ++ [method_issue config file method]
             else issues
           else issues)
        (c_Methods javaClass) issues
  | _ => []
  end.

End InputValidationRule.

(** A controller whose only method takes a request body that is not
    validated. *)
Definition unvalidated_controller : ParsedFile :=
  sample_file "java"
    (B "@RestController" ++ LF :: B "class OrderController {" ++ LF ::
     B "  @PostMapping" ++ LF ::
     B "  public Order save(@RequestBody Order order) {" ++ LF ::
     B "  }" ++ LF :: B "}")
    (ASTJavaClass
       {| c_Name := B "OrderController";
          c_Annotations := [B "@RestController"];
          c_Methods :=
            [ {| m_Name := B "save"; m_Annotations := [B "@PostMapping"];
                 m_Parameters := [B "@RequestBody Order order"];
                 m_ReturnType := B "Order"; m_Line := 4; m_Column := 0;
                 m_Body := []; m_IsPublic := true; m_IsPrivate := false;
                 m_IsProtected := false; m_IsStatic := false |} ];
          c_Fields := []; c_Imports := []; c_Package := [] |}).

(** ** strconv *)

(** The value of a run of decimal digits, as the loop
    [n = n*10 + int(ch - '0')] computes it; a byte that is no digit is a
    syntax error. *)
Fixpoint digits_value (s : gostring) (n : Z) : option Z :=
  match s with
  | [] => Some n
  | ch :: s' =>
    if is_digit ch then digits_value s' (n * 10 + Z.of_N (ch - 48))%Z
    else None
  end.

(** [strconv.Atoi] where [int] has 64 bits: an optional sign and at least
    one decimal digit; [None] stands for a syntax or range error. *)
Definition Atoi (s : gostring) : option Z :=
  let '(neg, digits) :=
    match s with
    | c :: t =>
      if c =? 45 then (true, t) else if c =? 43 then (false, t) else (false, s)
    | [] => (false, [])
    end in
  match digits with
  | [] => None
  | _ :: _ =>
    match digits_value digits 0 with
    | Some n =>
      let n := if neg : bool then (- n)%Z else n in
      if ((- 2 ^ 63 <=? n) && (n <=? 2 ^ 63 - 1))%Z then Some n else None
    | None => None
    end
  end.

(** ** internal/rules: MethodLengthRule, the threshold *)

Module MethodLengthRule.

Definition getMaxLines (config : RuleConfig) : Z :=
  match cfg_Custom config !! B "max_lines" with
  | Some maxLinesStr =>
    match Atoi maxLinesStr with
    | Some maxLines => if (0 <? maxLines)%Z then maxLines else 100%Z
    | None => 100%Z
    end
  | None => 100%Z
  end.

Definition ID (config : RuleConfig) : gostring := cfg_ID config.
Definition Severity `{UnicodeTables} (config : RuleConfig) : Severity :=
  ParseSeverity (cfg_Severity config).
Definition Category (config : RuleConfig) : gostring := cfg_Category config.

(** [calculateMethodLength].  Its pattern is the method pattern followed
    by [.*?\}] under the flag [s], a lazy run of any runes up to a closing
    brace.  The method pattern matches in one way at most from a given
    start, so the leftmost match of the whole starts where the method
    pattern first matches and ends with the first closing brace after
    that match; without such a brace nothing matches. *)
Definition calculateMethodLength (file : ParsedFile) (method : JavaMethod)
    : nat :=
  match FindStringIndex (methodPattern (m_Name method)) (Content file) with
  | None => 0
  | Some (start, open) =>
    let close := Index (skipn open (Content file)) (B "}") in
    if (close <? 0)%Z then 0%nat
    else Count (slice (Content file) start (open + Z.to_nat close + 1)) LF
  end.

(** [maxLines] is positive, so [intToString] writes it as a count. *)
Definition issue_for `{UnicodeTables} (config : RuleConfig)
    (file : ParsedFile) (method : JavaMethod) (methodLength : nat)
    (maxLines : Z) : Issue :=
  {| RuleID := ID config;
     File := Path file;
     Line := m_Line method;
     Column := m_Column method;
     i_Severity := Severity config;
     i_Category := Category config;
     Message := B "메소드가 너무 깁니다 (" ++ m_Name method ++ B ": "
                  ++ Itoa methodLength ++ B " 라인, 임계값: "
                  ++ Itoa (Z.to_nat maxLines) ++ B ")";
     i_Description := B "긴 메소드는 가독성과 유지보수성을 저하시킵니다";
     Suggestion := B "메소드를 더 작은 단위로 분할하세요";
     CodeSnippet := getCodeSnippet file (m_Line method) |}.

Definition Check `{UnicodeTables} (config : RuleConfig) (file : ParsedFile)
    : list Issue :=
  match file_AST file with
  | ASTJavaClass javaClass =>
    let maxLines := getMaxLines config in
    List.fold_left
      (fun issues method =>
         let methodLength := calculateMethodLength file method in
         if (maxLines <? Z.of_nat methodLength)%Z
         then issues ++ [issue_for config file method methodLength maxLines]
         else issues)
      (c_Methods javaClass) []
  | _ => []
  end.

End MethodLengthRule.

(** A rule configuration with one custom value. *)
Definition config_with (key value : string) : RuleConfig :=
  {| cfg_ID := cfg_ID sample_config; cfg_Name := cfg_Name sample_config;
     cfg_Severity := cfg_Severity sample_config;
     cfg_Category := cfg_Category sample_config;
     cfg_Description := cfg_Description sample_config;
     cfg_Enabled := true; cfg_Pattern := cfg_Pattern sample_config;
     cfg_Exclude := []; cfg_Custom := {[ B key := B value ]} |}.

(** Spec-side: the number a run of decimal digits stands for, a value
    without its leading [+], and the threshold a value of [max_lines]
    stands for: its number when it is a run of digits, with or without
    [+], whose number is positive and fits an [int]; 100 otherwise. *)
Definition decimal (digits : gostring) : Z :=
  List.fold_left (fun n d => (n * 10 + Z.of_N (d - 48))%Z) digits 0%Z.

Definition unsigned_part (s : gostring) : gostring :=
  match s with
  | c :: t => if c =? 43 then t else s
  | [] => []
  end.

Definition threshold_of (s : gostring) : Z :=
  let digits := unsigned_part s in
  if negb (gostring_eqb digits []) && forallb is_digit digits
     && (0 <? decimal digits)%Z && (decimal digits <=? 2 ^ 63 - 1)%Z
  then decimal digits else 100%Z.

(** ** internal/reporter: grouping *)

(** The loop [grouped[key] = append(grouped[key], issue)] of the grouping
    methods, which differ in the key only. *)
Definition group_issues {K} `{Countable K} (key : Issue -> K)
    (issues : list Issue) : gmap K (list Issue) :=
  List.fold_left
    (fun grouped issue =>
       <[key issue := default [] (grouped !! key issue) ++ [issue]]> grouped)
    issues ∅.

(** [groupIssuesBySeverity] of the console and of the HTML reporter. *)
Definition groupIssuesBySeverity (issues : list Issue)
    : gmap Z (list Issue) :=
  group_issues i_Severity issues.

Definition groupIssuesByRule (issues : list Issue)
    : gmap gostring (list Issue) :=
  group_issues RuleID issues.

Definition groupIssuesByFile (issues : list Issue)
    : gmap gostring (list Issue) :=
  group_issues File issues.

(** The issues with a given key, in their order. *)
Definition issues_with {K} `{EqDecision K} (key : Issue -> K) (k : K)
    (issues : list Issue) : list Issue :=
  List.filter (fun issue => bool_decide (key issue = k)) issues.

(** The number of issues in all groups. *)
Definition grouped_count {K} `{Countable K} (grouped : gmap K (list Issue))
    : nat :=
  list_sum (List.map (fun entry => length (snd entry)) (map_to_list grouped)).

(** ** internal/rules: the Spring rules *)

(** The helpers [max] and [min] of the package, and the loop
    [for i := start; i < end; i++] over the lines of the content that
    returns at the first line containing one of the texts. *)
Module SpringHelpers.

Definition max (a b : Z) : Z := if (a >? b)%Z then a else b.
Definition min (a b : Z) : Z := if (a <? b)%Z then a else b.

Definition some_line_contains (lines : list gostring) (start end_ : Z)
    (texts : list gostring) : bool :=
  existsb (fun i => existsb (fun text => Contains (nth i lines []) text) texts)
          (List.seq (Z.to_nat start) (Z.to_nat (end_ - start))).

End SpringHelpers.

Module SpringValidationRule.

Definition ID (config : RuleConfig) : gostring := cfg_ID config.
Definition Severity `{UnicodeTables} (config : RuleConfig) : Severity :=
  ParseSeverity (cfg_Severity config).
Definition Category (config : RuleConfig) : gostring := cfg_Category config.

Definition isController (content : gostring) : bool :=
  existsb (fun pattern => Contains content pattern)
          [B "@Controller"; B "@RestController"].

Definition hasValidAnnotation (content : gostring) (lineNum : Z) : bool :=
  let lines := Split content LF in
  let start := SpringHelpers.max 0 (lineNum - 2) in
  let end_ := SpringHelpers.min (Z.of_nat (length lines)) (lineNum + 2) in
  SpringHelpers.some_line_contains lines start end_ [B "@Valid"].

(** This rule's snippet helper does not trim. *)
Definition getCodeSnippet (file : ParsedFile) (line : Z) : gostring :=
  if ((line <=? 0) || (Z.of_nat (length (Lines file)) <? line))%Z then []
  else nth (Z.to_nat (line - 1)) (Lines file) [].

(** [@RequestBody\s+(\w+\s+\w+)]; the text of the group is not used,
    and [len(match)] is always 2. *)
Definition requestBodyRegex : regex :=
  rcat [lit "@RequestBody"; plus_c is_re_space; plus_c is_word_char;
        plus_c is_re_space; plus_c is_word_char].

Definition issue_for `{UnicodeTables} (config : RuleConfig)
    (file : ParsedFile) (pos : nat) : Issue :=
  let lineNum := getLineNumberFromPosition (Content file) pos in
  {| RuleID := ID config;
     File := Path file;
     Line := lineNum;
     Column := getColumnFromPosition (Content file) pos;
     i_Severity := Severity config;
     i_Category := Category config;
     Message := B "@RequestBody 매개변수에 @Valid 어노테이션이 누락되었습니다";
     i_Description := B "입력값 검증이 없으면 보안 취약점이 발생할 수 있습니다";
     Suggestion := B "@Valid 어노테이션을 추가하여 입력값을 검증하세요";
     CodeSnippet := TrimSpace (getCodeSnippet file lineNum) |}.

Definition Check `{UnicodeTables} (config : RuleConfig) (file : ParsedFile)
    : list Issue :=
  if negb (isController (Content file)) then []
  else
    List.fold_left
      (fun issues m =>
         let lineNum := getLineNumberFromPosition (Content file) (fst m) in
         if negb (hasValidAnnotation (Content file) lineNum)
         then issues ++ [issue_for config file (fst m)]
         else issues)
      (FindAllStringIndex requestBodyRegex (Content file)) [].

End SpringValidationRule.

Module SpringTransactionalRule.

Definition hasThrowsException (content : gostring) (lineNum : Z) : bool :=
  let lines := Split content LF in
  let start := SpringHelpers.max 0 (lineNum - 1) in
  let end_ := SpringHelpers.min (Z.of_nat (length lines)) (lineNum + 5) in
  SpringHelpers.some_line_contains lines start end_ [B "throws Exception"].

End SpringTransactionalRule.

Module SpringSecurityRule.

Definition hasSecurityAnnotation (content : gostring) (lineNum : Z) : bool :=
  let lines := Split content LF in
  let start := SpringHelpers.max 0 (lineNum - 5) in
  let end_ := SpringHelpers.min (Z.of_nat (length lines)) lineNum in
  SpringHelpers.some_line_contains lines start end_
    [B "@PreAuthorize"; B "@PostAuthorize"; B "@Secured"; B "@RolesAllowed"].

End SpringSecurityRule.

(** Line [k], counted from 1, of the content holds one of the texts. *)
Definition line_holds (content : gostring) (texts : list gostring) (k : Z)
    : Prop :=
  (1 <= k <= Z.of_nat (length (Split content LF)))%Z
  /\ exists text, In text texts
                  /\ Contains (nth (Z.to_nat (k - 1)) (Split content LF) [])
                              text = true.

(** ** internal/rules: ResponsiveDesignRule *)

Module ResponsiveDesignRule.

Definition ID (config : RuleConfig) : gostring := cfg_ID config.
Definition Severity `{UnicodeTables} (config : RuleConfig) : Severity :=
  ParseSeverity (cfg_Severity config).
Definition Category (config : RuleConfig) : gostring := cfg_Category config.

(** [@media\s*\([^)]+\)] *)
Definition mediaQueryRegex : regex :=
  rcat [lit "@media"; StarC is_re_space; lit "("; plus_c (not_c (ch ")"));
        lit ")"].
Definition hasMediaQueries (content : gostring) : bool :=
  MatchString mediaQueryRegex content.

(** [width\s*:\s*\d+px] *)
Definition fixedWidthRegex : regex :=
  rcat [lit "width"; StarC is_re_space; lit ":"; StarC is_re_space;
        plus_c is_digit; lit "px"].
Definition hasFixedWidths (content : gostring) : bool :=
  MatchString fixedWidthRegex content.

(** [display\s*:\s*(flex|grid)] *)
Definition flexGridRegex : regex :=
  rcat [lit "display"; StarC is_re_space; lit ":"; StarC is_re_space;
        alts (lit "flex") [lit "grid"]].
Definition hasFlexOrGrid (content : gostring) : bool :=
  MatchString flexGridRegex content.

(** [(width|height|margin|padding|position)\s*:] *)
Definition layoutRegex : regex :=
  rcat [alts (lit "width")
             [lit "height"; lit "margin"; lit "padding"; lit "position"];
        StarC is_re_space; lit ":"].
Definition hasLayoutProperties (content : gostring) : bool :=
  MatchString layoutRegex content.

(** [:\s*\d+px] *)
Definition pxRegex : regex :=
  rcat [lit ":"; StarC is_re_space; plus_c is_digit; lit "px"].

Definition px_issue `{UnicodeTables} (config : RuleConfig)
    (file : ParsedFile) (m : nat * nat) : Issue :=
  let lineNum := getLineNumberFromPosition (Content file) (fst m) in
  {| RuleID := ID config;
     File := Path file;
     Line := lineNum;
     Column := getColumnFromPosition (Content file) (fst m);
     i_Severity := SeverityLow;
     i_Category := Category config;
     Message := B "px 단위를 과도하게 사용하고 있습니다";
     i_Description := B "고정 단위는 반응형 디자인에 제한적입니다";
     Suggestion := B "em, rem, %, vw, vh 등 상대 단위 사용을 고려하세요";
     CodeSnippet := getCodeSnippet file lineNum |}.

(** The loop over [matches[:3]], which also breaks once [i >= 2]. *)
Fixpoint px_loop `{UnicodeTables} (config : RuleConfig) (file : ParsedFile)
    (matches : list (nat * nat)) (i : nat) (issues : list Issue)
    : list Issue :=
  match matches with
  | [] => issues
  | m :: rest =>
    let issues := issues ++ [px_issue config file m] in
    if (2 <=? i)%nat then issues
    else px_loop config file rest (S i) issues
  end.

Definition checkFixedUnits `{UnicodeTables} (config : RuleConfig)
    (file : ParsedFile) : list Issue :=
  let matches := FindAllStringIndex pxRegex (Content file) in
  let pxCount := length matches in
  if (10 <? pxCount)%nat then px_loop config file (firstn 3 matches) 0 []
  else [].

Definition Check `{UnicodeTables} (config : RuleConfig) (file : ParsedFile)
    : list Issue :=
  let hasMediaQueries := hasMediaQueries (Content file) in
  let hasFixedWidths := hasFixedWidths (Content file) in
  let issues :=
    if hasFixedWidths && negb hasMediaQueries then
      [{| RuleID := ID config;
          File := Path file;
          Line := 1;
          Column := 1;
          i_Severity := Severity config;
          i_Category := Category config;
          Message := B "고정 너비를 사용하지만 미디어 쿼리가 없습니다";
          i_Description := B "반응형 디자인을 위해 미디어 쿼리가 필요합니다";
          Suggestion :=
            B "@media 쿼리를 추가하여 다양한 화면 크기에 대응하세요";
          CodeSnippet :=
            B "@media (max-width: 768px) { /* 모바일 스타일 */ }" |}]
    else [] in
  let fixedUnitIssues := checkFixedUnits config file in
  let issues := issues ++ fixedUnitIssues in
  if negb (hasFlexOrGrid (Content file))
     && hasLayoutProperties (Content file)
  then issues ++
       [{| RuleID := ID config;
           File := Path file;
           Line := 1;
           Column := 1;
           i_Severity := SeverityLow;
           i_Category := Category config;
           Message := B "모던 레이아웃 기법이 사용되지 않았습니다";
           i_Description :=
             B "Flexbox나 Grid를 사용하면 더 유연한 레이아웃을 만들 수 있습니다";
           Suggestion := B "display: flex 또는 display: grid를 고려해보세요";
           CodeSnippet := B "display: flex; /* 또는 */ display: grid;" |}]
  else issues.

End ResponsiveDesignRule.

(** ** internal/rules: CodingConventionRule, the annotation check *)

Module CodingConventionRule.

Definition ID (config : RuleConfig) : gostring := cfg_ID config.
Definition Severity `{UnicodeTables} (config : RuleConfig) : Severity :=
  ParseSeverity (cfg_Severity config).
Definition Category (config : RuleConfig) : gostring := cfg_Category config.

Definition resource_issue `{UnicodeTables} (config : RuleConfig)
    (file : ParsedFile) (pos : nat) : Issue :=
  let lineNum := getLineNumberFromPosition (Content file) pos in
  {| RuleID := ID config;
     File := Path file;
     Line := lineNum;
     Column := getColumnFromPosition (Content file) pos;
     i_Severity := Severity config;
     i_Category := Category config;
     Message := B "@Resource와 @Autowired가 혼용되고 있습니다";
     i_Description :=
       B "일관되지 않은 어노테이션 사용은 코드 품질을 저하시킵니다";
     Suggestion := B "@Autowired로 통일하여 사용하세요 (Spring 권장사항)";
     CodeSnippet := getCodeSnippet file lineNum |}.

Definition autowired_issue `{UnicodeTables} (config : RuleConfig)
    (file : ParsedFile) (pos : nat) : Issue :=
  let lineNum := getLineNumberFromPosition (Content file) pos in
  {| RuleID := ID config;
     File := Path file;
     Line := lineNum;
     Column := getColumnFromPosition (Content file) pos;
     i_Severity := SeverityLow;
     i_Category := Category config;
     Message := B "동일 클래스에서 @Resource와 @Autowired가 혼용되고 있습니다";
     i_Description := B "의존성 주입 어노테이션을 통일하는 것이 좋습니다";
     Suggestion := B "프로젝트 전체에서 @Autowired로 통일하세요";
     CodeSnippet := getCodeSnippet file lineNum |}.

(** The method appends to [*issues]; here it returns the new slice. *)
Definition checkAnnotationConsistency `{UnicodeTables} (config : RuleConfig)
    (file : ParsedFile) (issues : list Issue) : list Issue :=
  let hasResource := Contains (Content file) (B "@Resource") in
  let hasAutowired := Contains (Content file) (B "@Autowired") in
  if hasResource && hasAutowired then
    let resourceMatches :=
      FindAllStringIndex (lit "@Resource") (Content file) in
    let autowiredMatches :=
      FindAllStringIndex (lit "@Autowired") (Content file) in
    let issues :=
      List.fold_left
        (fun issues m => issues ++ [resource_issue config file (fst m)])
        resourceMatches issues in
    List.fold_left
      (fun issues m => issues ++ [autowired_issue config file (fst m)])
      autowiredMatches issues
  else issues.

Definition isPascalCase (name : gostring) : bool :=
  match name with
  | [] => false
  | b :: _ => (65 <=? b) && (b <=? 90) && negb (Contains name (B "_"))
  end.

Definition isCamelCase (name : gostring) : bool :=
  match name with
  | [] => false
  | b :: _ => (97 <=? b) && (b <=? 122) && negb (Contains name (B "_"))
  end.

Definition isSpecialMethod (name : gostring) : bool :=
  existsb (fun special => gostring_eqb name special)
          [B "toString"; B "hashCode"; B "equals"; B "main"]
  || HasPrefix name (B "get") || HasPrefix name (B "set")
  || HasPrefix name (B "is").

Definition isConstant (field : JavaField) : bool :=
  f_IsStatic field && f_IsFinal field.

Definition class_name_issue `{UnicodeTables} (config : RuleConfig)
    (file : ParsedFile) (javaClass : JavaClass) : Issue :=
  {| RuleID := ID config;
     File := Path file;
     Line := 1;
     Column := 1;
     i_Severity := Severity config;
     i_Category := Category config;
     Message := B "클래스명이 PascalCase 규칙을 따르지 않습니다: "
                  ++ c_Name javaClass;
     i_Description :=
       B "Java 네이밍 컨벤션에 따라 클래스명은 PascalCase를 사용해야 합니다";
     Suggestion := B "클래스명을 PascalCase로 변경하세요";
     CodeSnippet := B "class " ++ c_Name javaClass |}.

Definition method_name_issue `{UnicodeTables} (config : RuleConfig)
    (file : ParsedFile) (method : JavaMethod) : Issue :=
  {| RuleID := ID config;
     File := Path file;
     Line := m_Line method;
     Column := m_Column method;
     i_Severity := Severity config;
     i_Category := Category config;
     Message := B "메소드명이 camelCase 규칙을 따르지 않습니다: "
                  ++ m_Name method;
     i_Description :=
       B "Java 네이밍 컨벤션에 따라 메소드명은 camelCase를 사용해야 합니다";
     Suggestion := B "메소드명을 camelCase로 변경하세요";
     CodeSnippet := getCodeSnippet file (m_Line method) |}.

Definition field_name_issue `{UnicodeTables} (config : RuleConfig)
    (file : ParsedFile) (field : JavaField) : Issue :=
  {| RuleID := ID config;
     File := Path file;
     Line := f_Line field;
     Column := 1;
     i_Severity := Severity config;
     i_Category := Category config;
     Message := B "필드명이 camelCase 규칙을 따르지 않습니다: "
                  ++ f_Name field;
     i_Description :=
       B "Java 네이밍 컨벤션에 따라 필드명은 camelCase를 사용해야 합니다";
     Suggestion := B "필드명을 camelCase로 변경하세요";
     CodeSnippet := getCodeSnippet file (f_Line field) |}.

Definition checkNamingConvention `{UnicodeTables} (config : RuleConfig)
    (javaClass : JavaClass) (file : ParsedFile) (issues : list Issue)
    : list Issue :=
  let issues :=
    if negb (isPascalCase (c_Name javaClass))
    then issues ++ [class_name_issue config file javaClass]
    else issues in
  let issues :=
    List.fold_left
      (fun issues method =>
         if negb (isCamelCase (m_Name method))
            && negb (isSpecialMethod (m_Name method))
         then issues ++ [method_name_issue config file method]
         else issues)
      (c_Methods javaClass) issues in
  List.fold_left
    (fun issues field =>
       if negb (isCamelCase (f_Name field)) && negb (isConstant field)
       then issues ++ [field_name_issue config file field]
       else issues)
    (c_Fields javaClass) issues.

(** [^\s{4,}] has no flag [m]: it matches when the text itself starts
    with four runes of [\s]. *)
Definition hasSpaceIndent (content : gostring) : bool :=
  match content with
  | a :: b :: c :: d :: _ =>
    is_re_space a && is_re_space b && is_re_space c && is_re_space d
  | _ => false
  end.

Definition mixed_indent_issue `{UnicodeTables} (config : RuleConfig)
    (file : ParsedFile) : Issue :=
  {| RuleID := ID config;
     File := Path file;
     Line := 1;
     Column := 1;
     i_Severity := Severity config;
     i_Category := Category config;
     Message := B "탭과 스페이스가 혼용되고 있습니다";
     i_Description :=
       B "일관된 들여쓰기를 사용해야 코드 가독성이 향상됩니다";
     Suggestion := B "탭 또는 스페이스 중 하나로 통일하세요";
     CodeSnippet := [] |}.

(** [i] is the index of the line in [file.Lines]. *)
Definition long_line_issue (config : RuleConfig) (file : ParsedFile)
    (i : nat) (line : gostring) : Issue :=
  {| RuleID := ID config;
     File := Path file;
     Line := Z.of_nat (i + 1);
     Column := 121;
     i_Severity := SeverityLow;
     i_Category := Category config;
     Message := B "라인이 너무 깁니다 (" ++ Itoa (length line) ++ B "자)";
     i_Description := B "긴 라인은 가독성을 저하시킵니다";
     Suggestion := B "라인을 120자 이하로 분할하세요";
     CodeSnippet := getCodeSnippet file (Z.of_nat (i + 1)) |}.

(** The loop over [file.Lines] from the line of index [i] on. *)
Fixpoint long_lines (config : RuleConfig) (file : ParsedFile)
    (lines : list gostring) (i : nat) (issues : list Issue) : list Issue :=
  match lines with
  | [] => issues
  | line :: rest =>
    long_lines config file rest (S i)
               (if (120 <? length line)%nat
                then issues ++ [long_line_issue config file i line]
                else issues)
  end.

Definition checkCodeStyle `{UnicodeTables} (config : RuleConfig)
    (file : ParsedFile) (issues : list Issue) : list Issue :=
  let hasTab := Contains (Content file) [9] in
  let issues :=
    if hasTab && hasSpaceIndent (Content file)
    then issues ++ [mixed_indent_issue config file]
    else issues in
  long_lines config file (Lines file) 0 issues.

Definition Check `{UnicodeTables} (config : RuleConfig) (file : ParsedFile)
    : list Issue :=
  match file_AST file with
  | ASTJavaClass javaClass =>
    let issues := checkAnnotationConsistency config file [] in
    let issues := checkNamingConvention config javaClass file issues in
    checkCodeStyle config file issues
  | _ => []
  end.

End CodingConventionRule.

(** ** internal/rules: FunctionLengthRule *)

(** [getLineContent] of the script rules: the line as it is. *)
Definition getLineContent (file : ParsedFile) (lineNum : Z) : gostring :=
  if ((lineNum <=? 0) || (Z.of_nat (length (Lines file)) <? lineNum))%Z
  then []
  else nth (Z.to_nat (lineNum - 1)) (Lines file) [].

Module FunctionLengthRule.

Definition ID (config : RuleConfig) : gostring := cfg_ID config.
Definition Severity `{UnicodeTables} (config : RuleConfig) : Severity :=
  ParseSeverity (cfg_Severity config).
Definition Category (config : RuleConfig) : gostring := cfg_Category config.

(** [calculateFunctionLength].  Its pattern is the quoted name, a lazy
    run up to an opening brace and a lazy run up to a closing brace, under
    the flag [s].  If it matches anywhere it matches from the first
    occurrence of the name, so the leftmost match runs from there through
    the first opening brace after the name to the first closing brace
    after that one. *)
Definition calculateFunctionLength (file : ParsedFile)
    (function : JSFunction) : nat :=
  let content := Content file in
  let start := Index content (js_Name function) in
  if (start <? 0)%Z then 0%nat
  else
    let after := (Z.to_nat start + length (js_Name function))%nat in
    let open := Index (skipn after content) (B "{") in
    if (open <? 0)%Z then 0%nat
    else
      let inside := (after + Z.to_nat open + 1)%nat in
      let close := Index (skipn inside content) (B "}") in
      if (close <? 0)%Z then 0%nat
      else Count (slice content (Z.to_nat start)
                        (inside + Z.to_nat close + 1)) LF.

Definition issue_for `{UnicodeTables} (config : RuleConfig)
    (file : ParsedFile) (function : JSFunction) (functionLength : nat)
    : Issue :=
  {| RuleID := ID config;
     File := Path file;
     Line := js_Line function;
     Column := js_Column function;
     i_Severity := Severity config;
     i_Category := Category config;
     Message := B "함수가 너무 깁니다 (" ++ js_Name function ++ B ": "
                  ++ Itoa functionLength ++ B " 라인)";
     i_Description := B "긴 함수는 가독성과 유지보수성을 저하시킵니다";
     Suggestion := B "함수를 더 작은 단위로 분할하세요";
     CodeSnippet := getLineContent file (js_Line function) |}.

Definition Check `{UnicodeTables} (config : RuleConfig) (file : ParsedFile)
    : list Issue :=
  match file_AST file with
  | ASTJSFunctions functions =>
    List.fold_left
      (fun issues function =>
         let functionLength := calculateFunctionLength file function in
         if (30 <? functionLength)%nat
         then issues ++ [issue_for config file function functionLength]
         else issues)
      functions []
  | _ => []
  end.

End FunctionLengthRule.

(** ** internal/rules: CSSSelectorsRule and ImgAltRule *)

(** [strings.Fields]: the maximal runs of runes that are not white
    space. *)
Fixpoint fields_from (cs : list chunk) (field : gostring) (inField : bool)
    : list gostring :=
  match cs with
  | [] => if inField then [field] else []
  | c :: cs' =>
    if IsSpace (fst c)
    then (if inField then [field] else []) ++ fields_from cs' [] false
    else fields_from cs' (field ++ snd c) true
  end.

Definition Fields (s : gostring) : list gostring :=
  fields_from (chunks s) [] false.

(** [strings.Trim(s, cutset)] for a cutset of one ASCII byte. *)
Fixpoint trim_left_byte (s : gostring) (c : N) : gostring :=
  match s with
  | b :: t => if b =? c then trim_left_byte t c else s
  | [] => []
  end.

Definition Trim (s : gostring) (c : N) : gostring :=
  rev (trim_left_byte (rev (trim_left_byte s c)) c).

(** [findLineNumber], the same text in both rules: the number of the
    first line that contains [text], or 1. *)
Fixpoint find_line (lines : list gostring) (text : gostring) (i : nat) : Z :=
  match lines with
  | [] => 1%Z
  | line :: rest =>
    if Contains line text then Z.of_nat (i + 1)
    else find_line rest text (S i)
  end.

(** Go leaves the order in which [range] visits the map of style blocks
    unspecified: any enumeration of its entries can occur. *)
Class StyleOrder := {
  style_order :
    gmap gostring (list gostring) -> list (gostring * list gostring);
  style_order_perm : forall m, style_order m ≡ₚ map_to_list m
}.

Module CSSSelectorsRule.

Definition ID (config : RuleConfig) : gostring := cfg_ID config.
Definition Severity `{UnicodeTables} (config : RuleConfig) : Severity :=
  ParseSeverity (cfg_Severity config).
Definition Category (config : RuleConfig) : gostring := cfg_Category config.

Definition findLineNumber (file : ParsedFile) (text : gostring) : Z :=
  find_line (Lines file) text 0.

Definition isOverlyNested (selector : gostring) : bool :=
  (4 <? length (Fields selector))%nat.

Definition hasUniversalSelector (selector : gostring) : bool :=
  Contains selector (B "*").

(** [^[a-z]+$] has no flag [m]: it matches a text that is a run of one
    or more lower-case ASCII letters and nothing else. *)
Definition is_tag_name (firstPart : gostring) : bool :=
  negb (gostring_eqb firstPart []) && forallb is_lower firstPart.

Definition isInefficientDescendantSelector (selector : gostring) : bool :=
  let parts := Fields selector in
  if (length parts <? 3)%nat then false
  else
    let firstPart := hd [] parts in
    is_tag_name firstPart && (3 <? length parts)%nat.

Definition hasMultipleIds (selector : gostring) : bool :=
  let idCount := Count selector (ch "#") in
  (1 <? idCount)%nat.

Definition selector_issue `{UnicodeTables} (config : RuleConfig)
    (file : ParsedFile) (lineNum : Z) (selector : gostring)
    (message description suggestion : gostring) : Issue :=
  {| RuleID := ID config;
     File := Path file;
     Line := lineNum;
     Column := 0;
     i_Severity := Severity config;
     i_Category := Category config;
     Message := message;
     i_Description := description;
     Suggestion := suggestion;
     CodeSnippet := selector |}.

Definition normalizeStyles (styles : gostring) : gostring :=
  let styles := ReplaceAllString (plus_c is_re_space) styles (B " ") in
  let styles := TrimSpace styles in
  let styles := Trim styles (ch ";") in
  if gostring_eqb styles [] then []
  else
    let properties := Split styles (ch ";") in
    let normalizedProps :=
      List.fold_left
        (fun normalizedProps prop =>
           let prop := TrimSpace prop in
           if negb (gostring_eqb prop []) then normalizedProps ++ [prop]
           else normalizedProps)
        properties [] in
    Join normalizedProps (B ";").

Definition not_brace (r : N) : bool :=
  negb (r =? ch "{") && negb (r =? ch "}").

(** The pattern of a rule block: a group of one or more runes other
    than braces, [\s*], an opening brace, a group of runes other than
    braces, a closing brace. *)
Definition ruleRegex : regex :=
  rcat [plus_c not_brace; StarC is_re_space; lit "{"; StarC not_brace;
        lit "}"].

(** The two groups of a match of [ruleRegex].  Neither holds a brace and
    the first one is greedy, so the first group is the match up to its
    opening brace and the second is what lies between that brace and the
    closing one, the last byte of the match. *)
Definition rule_groups (m : gostring) : gostring * gostring :=
  let selector := take_while (fun b => negb (b =? ch "{")) m in
  let rest := skipn (length selector + 1) m in
  (selector, firstn (length rest - 1) rest).

(** The first loop of [checkDuplicateStyles]: the map from normalized
    style to the selectors that carry it. *)
Definition collect_styles (content : gostring)
    : gmap gostring (list gostring) :=
  List.fold_left
    (fun styleBlocks m =>
       let selector := TrimSpace (fst (rule_groups m)) in
       let styles := TrimSpace (snd (rule_groups m)) in
       let normalizedStyles := normalizeStyles styles in
       if negb (gostring_eqb normalizedStyles [])
       then <[normalizedStyles :=
                default [] (styleBlocks !! normalizedStyles) ++ [selector]]>
              styleBlocks
       else styleBlocks)
    (FindAllString ruleRegex content) ∅.

Definition duplicate_issue (config : RuleConfig) (file : ParsedFile)
    (styles : gostring) (selectors : list gostring) : Issue :=
  {| RuleID := ID config;
     File := Path file;
     Line := findLineNumber file (hd [] selectors);
     Column := 0;
     i_Severity := SeverityMedium;
     i_Category := B "performance";
     Message := B "중복된 CSS 스타일이 발견되었습니다";
     i_Description :=
       B "동일한 스타일이 여러 셀렉터에 중복 정의되어 있습니다";
     Suggestion := B "공통 클래스를 만들어 중복을 제거하세요";
     CodeSnippet := Join selectors (B ", ") ++ B " { " ++ styles ++ B " }" |}.

Definition checkDuplicateStyles `{StyleOrder} (config : RuleConfig)
    (file : ParsedFile) : list Issue :=
  let styleBlocks := collect_styles (Content file) in
  List.fold_left
    (fun issues entry =>
       let styles := fst entry in
       let selectors := snd entry in
       if (1 <? length selectors)%nat
       then issues ++ [duplicate_issue config file styles selectors]
       else issues)
    (style_order styleBlocks) [].

(** The body of the loop over the selectors. *)
Definition check_selector `{UnicodeTables} (config : RuleConfig)
    (file : ParsedFile) (issues : list Issue) (selector : gostring)
    : list Issue :=
  let selector := TrimSpace selector in
  let lineNum := findLineNumber file selector in
  let issues :=
    if isOverlyNested selector
    then issues ++ [selector_issue config file lineNum selector
                      (B "과도하게 중첩된 CSS 셀렉터입니다")
                      (B "깊은 중첩은 CSS 성능을 저하시키고 유지보수를 어렵게 합니다")
                      (B "셀렉터 중첩을 3단계 이하로 줄이세요")]
    else issues in
  let issues :=
    if hasUniversalSelector selector
    then issues ++ [selector_issue config file lineNum selector
                      (B "전체 셀렉터(*) 사용이 발견되었습니다")
                      (B "전체 셀렉터는 모든 요소를 검사하여 성능을 저하시킵니다")
                      (B "더 구체적인 셀렉터를 사용하세요")]
    else issues in
  let issues :=
    if isInefficientDescendantSelector selector
    then issues ++ [selector_issue config file lineNum selector
                      (B "비효율적인 자손 셀렉터입니다")
                      (B "태그명으로 시작하는 복잡한 셀렉터는 성능이 떨어집니다")
                      (B "클래스나 ID로 시작하는 셀렉터를 사용하세요")]
    else issues in
  if hasMultipleIds selector
  then issues ++ [selector_issue config file lineNum selector
                    (B "여러 ID 셀렉터가 사용되었습니다")
                    (B "ID는 문서에서 고유해야 하므로 여러 ID 셀렉터는 불필요합니다")
                    (B "하나의 ID만 사용하거나 클래스 셀렉터를 사용하세요")]
  else issues.

Definition Check `{UnicodeTables} `{StyleOrder} (config : RuleConfig)
    (file : ParsedFile) : list Issue :=
  match file_AST file with
  | ASTMap cssData =>
    match cssData !! B "selectors" with
    | Some (FactStrings selectorList) =>
      let issues :=
        List.fold_left (check_selector config file) selectorList [] in
      issues ++ checkDuplicateStyles config file
    | _ => []
    end
  | _ => []
  end.

End CSSSelectorsRule.

Module ImgAltRule.

Definition ID (config : RuleConfig) : gostring := cfg_ID config.
Definition Severity `{UnicodeTables} (config : RuleConfig) : Severity :=
  ParseSeverity (cfg_Severity config).
Definition Category (config : RuleConfig) : gostring := cfg_Category config.

Definition findLineNumber (file : ParsedFile) (tag : gostring) : Z :=
  find_line (Lines file) tag 0.

Definition issue_for `{UnicodeTables} (config : RuleConfig)
    (file : ParsedFile) (imgTag : gostring) : Issue :=
  {| RuleID := ID config;
     File := Path file;
     Line := findLineNumber file imgTag;
     Column := 0;
     i_Severity := Severity config;
     i_Category := Category config;
     Message := B "img 태그에 alt 속성이 누락되었거나 비어있습니다";
     i_Description := B "시각 장애인을 위한 대체 텍스트가 필요합니다";
     Suggestion := B "img 태그에 의미있는 alt 속성을 추가하세요";
     CodeSnippet := imgTag |}.

(** A missing key of the map of an image reads as the empty string. *)
Definition Check `{UnicodeTables} (config : RuleConfig) (file : ParsedFile)
    : list Issue :=
  match file_AST file with
  | ASTMap htmlData =>
    match htmlData !! B "images" with
    | Some (FactImages imageList) =>
      List.fold_left
        (fun issues img =>
           let imgTag := default [] (img !! B "tag") in
           let missing :=
             match img !! B "alt" with
             | Some alt => gostring_eqb (TrimSpace alt) []
             | None => true
             end in
           if missing then issues ++ [issue_for config file imgTag]
           else issues)
        imageList []
    | _ => []
    end
  | _ => []
  end.

End ImgAltRule.

(** The order in which stdpp lists a map, as one possible [range] order. *)
Definition listed_styles : StyleOrder :=
  {| style_order := map_to_list;
     style_order_perm := fun m => Permutation_refl (map_to_list m) |}.

(** A style sheet with its selector facts, and the facts of a page of
    markup with one image. *)
Definition style_sheet : ParsedFile :=
  sample_file "css" (B "a { color: red }")
              (ASTMap {[ B "selectors" := FactStrings [B "a"] ]}).

Definition markup_facts : AST :=
  ASTMap {[ B "images" := FactImages [ {[ B "tag" := B "<img>" ]} ];
            B "forms" := FactStrings [];
            B "scripts" := FactStrings [] ]}.

Definition sample_function (name : string) : JSFunction :=
  {| js_Name := B name; js_Parameters := []; js_Line := 1; js_Column := 1;
     js_Body := []; js_IsArrow := false; js_IsAsync := false |}.

(** ** internal/rules: the registration of the rules *)

Definition NewSystemOutRule `{UnicodeTables} (cfg : RuleConfig) : Rule :=
  {| rule_ID := cfg_ID cfg;
     rule_Name := cfg_Name cfg;
     rule_Severity := ParseSeverity (cfg_Severity cfg);
     rule_Category := cfg_Category cfg;
     rule_Description := cfg_Description cfg;
     rule_Check := SystemOutRule.Check cfg |}.

Definition NewInputValidationRule `{UnicodeTables} (cfg : RuleConfig)
    : Rule :=
  {| rule_ID := cfg_ID cfg;
     rule_Name := cfg_Name cfg;
     rule_Severity := ParseSeverity (cfg_Severity cfg);
     rule_Category := cfg_Category cfg;
     rule_Description := cfg_Description cfg;
     rule_Check := InputValidationRule.Check cfg |}.

Definition NewMagicNumberRule `{UnicodeTables} (cfg : RuleConfig) : Rule :=
  {| rule_ID := cfg_ID cfg;
     rule_Name := cfg_Name cfg;
     rule_Severity := ParseSeverity (cfg_Severity cfg);
     rule_Category := cfg_Category cfg;
     rule_Description := cfg_Description cfg;
     rule_Check := MagicNumberRule.Check cfg |}.

Definition NewSpringValidationRule `{UnicodeTables} (cfg : RuleConfig)
    : Rule :=
  {| rule_ID := cfg_ID cfg;
     rule_Name := cfg_Name cfg;
     rule_Severity := ParseSeverity (cfg_Severity cfg);
     rule_Category := cfg_Category cfg;
     rule_Description := cfg_Description cfg;
     rule_Check := SpringValidationRule.Check cfg |}.

Definition NewResponsiveDesignRule `{UnicodeTables} (cfg : RuleConfig)
    : Rule :=
  {| rule_ID := cfg_ID cfg;
     rule_Name := cfg_Name cfg;
     rule_Severity := ParseSeverity (cfg_Severity cfg);
     rule_Category := cfg_Category cfg;
     rule_Description := cfg_Description cfg;
     rule_Check := ResponsiveDesignRule.Check cfg |}.

(** The constructors of the rules whose checks are not modelled here.
    The engine hands them the configuration of the rule and nothing
    else, so the registration is generic in them. *)
Class RuleConstructors := {
  NewMethodLengthRule : RuleConfig -> Rule;
  NewDuplicateCodeRule : RuleConfig -> Rule;
  NewCodingConventionRule : RuleConfig -> Rule;
  NewSpringTransactionalRule : RuleConfig -> Rule;
  NewSpringSecurityRule : RuleConfig -> Rule;
  NewSpringDependencyInjectionRule : RuleConfig -> Rule;
  NewSpringExceptionHandlingRule : RuleConfig -> Rule;
  NewInnerHTMLXSSRule : RuleConfig -> Rule;
  NewMemoryLeakRule : RuleConfig -> Rule;
  NewFunctionLengthRule : RuleConfig -> Rule;
  NewConsoleLogRule : RuleConfig -> Rule;
  NewVarUsageRule : RuleConfig -> Rule;
  NewImgAltRule : RuleConfig -> Rule;
  NewAccessibilityRule : RuleConfig -> Rule;
  NewSEORule : RuleConfig -> Rule;
  NewCSSSelectorsRule : RuleConfig -> Rule
}.

(** The [switch ruleConfig.ID] of [registerJavaRules]: the rule that is
    appended, none for an ID without a case. *)
Definition java_rule `{UnicodeTables} `{RuleConstructors}
    (ruleConfig : RuleConfig) : option Rule :=
  let id := cfg_ID ruleConfig in
  if gostring_eqb id (B "java-transactional-missing")
  then Some (NewTransactionalRule ruleConfig)
  else if gostring_eqb id (B "java-system-out")
  then Some (NewSystemOutRule ruleConfig)
  else if gostring_eqb id (B "java-layer-architecture")
  then Some (NewLayerArchitectureRule ruleConfig)
  else if gostring_eqb id (B "java-exception-handling")
  then Some (NewExceptionHandlingRule ruleConfig)
  else if gostring_eqb id (B "java-input-validation")
  then Some (NewInputValidationRule ruleConfig)
  else if gostring_eqb id (B "java-magic-number")
  then Some (NewMagicNumberRule ruleConfig)
  else if gostring_eqb id (B "java-method-length")
  then Some (NewMethodLengthRule ruleConfig)
  else if gostring_eqb id (B "java-cyclomatic-complexity")
  then Some (NewCyclomaticComplexityRule ruleConfig)
  else if gostring_eqb id (B "java-duplicate-code")
  then Some (NewDuplicateCodeRule ruleConfig)
  else if gostring_eqb id (B "java-coding-conventions")
  then Some (NewCodingConventionRule ruleConfig)
  else if gostring_eqb id (B "spring-validation-missing")
  then Some (NewSpringValidationRule ruleConfig)
  else if gostring_eqb id (B "spring-transactional-private")
  then Some (NewSpringTransactionalRule ruleConfig)
  else if gostring_eqb id (B "spring-transactional-rollback")
  then Some (NewSpringTransactionalRule ruleConfig)
  else if gostring_eqb id (B "spring-security-missing")
  then Some (NewSpringSecurityRule ruleConfig)
  else if gostring_eqb id (B "spring-secured-deprecated")
  then Some (NewSpringSecurityRule ruleConfig)
  else if gostring_eqb id (B "spring-field-injection")
  then Some (NewSpringDependencyInjectionRule ruleConfig)
  else if gostring_eqb id (B "spring-controller-advice-missing")
  then Some (NewSpringExceptionHandlingRule ruleConfig)
  else None.

Definition javascript_rule `{RuleConstructors} (ruleConfig : RuleConfig)
    : option Rule :=
  let id := cfg_ID ruleConfig in
  if gostring_eqb id (B "js-innerHTML-xss")
  then Some (NewInnerHTMLXSSRule ruleConfig)
  else if gostring_eqb id (B "js-memory-leak")
  then Some (NewMemoryLeakRule ruleConfig)
  else if gostring_eqb id (B "js-function-length")
  then Some (NewFunctionLengthRule ruleConfig)
  else if gostring_eqb id (B "js-console-log")
  then Some (NewConsoleLogRule ruleConfig)
  else if gostring_eqb id (B "js-var-usage")
  then Some (NewVarUsageRule ruleConfig)
  else None.

Definition html_rule `{RuleConstructors} (ruleConfig : RuleConfig)
    : option Rule :=
  let id := cfg_ID ruleConfig in
  if gostring_eqb id (B "html-img-alt")
  then Some (NewImgAltRule ruleConfig)
  else if gostring_eqb id (B "html-accessibility")
  then Some (NewAccessibilityRule ruleConfig)
  else if gostring_eqb id (B "html-seo")
  then Some (NewSEORule ruleConfig)
  else None.

Definition css_rule `{UnicodeTables} `{RuleConstructors}
    (ruleConfig : RuleConfig) : option Rule :=
  let id := cfg_ID ruleConfig in
  if gostring_eqb id (B "css-selectors")
  then Some (NewCSSSelectorsRule ruleConfig)
  else if gostring_eqb id (B "css-responsive-design")
  then Some (NewResponsiveDesignRule ruleConfig)
  else None.

(** The loop [for _, ruleConfig := range ...Rules { switch ... }]. *)
Definition register (rule_for : RuleConfig -> option Rule)
    (ruleConfigs : list RuleConfig) : list Rule :=
  List.fold_left
    (fun rules ruleConfig =>
       match rule_for ruleConfig with
       | Some rule => rules ++ [rule]
       | None => rules
       end)
    ruleConfigs [].

(** The four methods write to [e.rules]; here they take the map and
    return the new one. *)
Definition registerJavaRules `{UnicodeTables} `{RuleConstructors}
    (config : Config) (rules : gmap gostring (list Rule))
    : gmap gostring (list Rule) :=
  let javaRules := GetRulesForLanguage config (B "java") in
  <[B "java" := register java_rule javaRules]> rules.

Definition registerJavaScriptRules `{RuleConstructors}
    (config : Config) (rules : gmap gostring (list Rule))
    : gmap gostring (list Rule) :=
  let jsRules := GetRulesForLanguage config (B "javascript") in
  <[B "typescript" := register javascript_rule jsRules]>
    (<[B "javascript" := register javascript_rule jsRules]> rules).

Definition registerHTMLRules `{RuleConstructors}
    (config : Config) (rules : gmap gostring (list Rule))
    : gmap gostring (list Rule) :=
  let htmlRules := GetRulesForLanguage config (B "html") in
  <[B "html" := register html_rule htmlRules]> rules.

Definition registerCSSRules `{UnicodeTables} `{RuleConstructors}
    (config : Config) (rules : gmap gostring (list Rule))
    : gmap gostring (list Rule) :=
  let cssRules := GetRulesForLanguage config (B "css") in
  <[B "css" := register css_rule cssRules]> rules.

Definition initializeRules `{UnicodeTables} `{RuleConstructors}
    (config : Config) (rules : gmap gostring (list Rule))
    : gmap gostring (list Rule) :=
  registerCSSRules config
    (registerHTMLRules config
       (registerJavaScriptRules config (registerJavaRules config rules))).

Definition NewEngine `{UnicodeTables} `{RuleConstructors} (cfg : Config)
    : Engine :=
  {| engine_rules := initializeRules cfg ∅ |}.

(** Spec-side: a rule with an ID, the configuration with every rule
    switched on, and the languages that have rules. *)
Definition has_id (r : RuleConfig) : bool :=
  negb (gostring_eqb (cfg_ID r) []).

Definition all_enabled (c : Config) : Config :=
  {| conf_Version := conf_Version c;
     conf_Languages :=
       List.map (fun lr => {| lr_Language := lr_Language lr;
                              lr_Rules := List.map enabled_rule (lr_Rules lr) |})
                (conf_Languages c) |}.

Definition rule_languages : list gostring :=
  [B "java"; B "javascript"; B "html"; B "css"].

(** Constructors of rules that find nothing, for concrete evaluations. *)
Definition silent_rule (cfg : RuleConfig) : Rule :=
  {| rule_ID := cfg_ID cfg;
     rule_Name := cfg_Name cfg;
     rule_Severity := SeverityLow;
     rule_Category := cfg_Category cfg;
     rule_Description := cfg_Description cfg;
     rule_Check := fun _ => [] |}.

Definition silent_constructors : RuleConstructors :=
  {| NewMethodLengthRule := silent_rule;
     NewDuplicateCodeRule := silent_rule;
     NewCodingConventionRule := silent_rule;
     NewSpringTransactionalRule := silent_rule;
     NewSpringSecurityRule := silent_rule;
     NewSpringDependencyInjectionRule := silent_rule;
     NewSpringExceptionHandlingRule := silent_rule;
     NewInnerHTMLXSSRule := silent_rule;
     NewMemoryLeakRule := silent_rule;
     NewFunctionLengthRule := silent_rule;
     NewConsoleLogRule := silent_rule;
     NewVarUsageRule := silent_rule;
     NewImgAltRule := silent_rule;
     NewAccessibilityRule := silent_rule;
     NewSEORule := silent_rule;
     NewCSSSelectorsRule := silent_rule |}.

(** * Theorems *)

(** ** Lists and loops *)

Lemma fold_left_append {A X} (f : X -> list A) (l : list X) (init : list A) :
  List.fold_left (fun acc x => acc ++ f x) l init = init ++ List.flat_map f l.
Proof.
  revert init; induction l as [|x l IH]; intros init; simpl.
  - by rewrite app_nil_r.
  - rewrite IH. by rewrite <- app_assoc.
Qed.

Lemma fold_left_ext {A X} (f g : A -> X -> A) (l : list X) (a : A) :
  (forall a x, f a x = g a x) ->
  List.fold_left f l a = List.fold_left g l a.
Proof.
  intros E; revert a; induction l as [|x l IH]; intros a; simpl; [done|].
  by rewrite E, IH.
Qed.

Lemma fold_left_add_sum {X} (f : X -> nat) (l : list X) (n : nat) :
  List.fold_left (fun acc x => (acc + f x)%nat) l n
  = (n + list_sum (List.map f l))%nat.
Proof.
  revert n; induction l as [|x l IH]; intros n; simpl; [lia|].
  rewrite IH. lia.
Qed.

(** ** Severity (C10) *)

Lemma ToLower_ascii `{UnicodeTables} (s : gostring) :
  isASCII s = true -> ToLower s = List.map lower_byte s.
Proof. intros E. unfold ToLower. by rewrite E. Qed.

Lemma lower_byte_same (s t : gostring) :
  List.map lower_byte s = t -> same_ignoring_case s t = true.
Proof.
  revert t. induction s as [|a s IH]; intros t E; subst t; [done|].
  cbn [List.map same_ignoring_case]. rewrite (IH _ eq_refl), andb_true_r.
  unfold lower_byte. destruct (is_upper a); cbn [andb].
  - rewrite N.eqb_refl. by rewrite orb_true_r.
  - by rewrite N.eqb_refl.
Qed.

Lemma same_lower_byte (s t : gostring) :
  isASCII t = true -> List.map lower_byte t = t ->
  same_ignoring_case s t = true ->
  isASCII s = true /\ List.map lower_byte s = t.
Proof.
  revert t. induction s as [|a s IH]; intros [|b t] Ha Hl E; try done.
  cbn [same_ignoring_case] in E. apply andb_true_iff in E as [E1 E2].
  cbn [isASCII forallb] in Ha. apply andb_true_iff in Ha as [Hb Ha].
  cbn [List.map] in Hl. injection Hl as Hlb Hl.
  destruct (IH t Ha Hl E2) as [I1 I2].
  assert (Hub : is_upper b = false).
  { unfold lower_byte in Hlb. destruct (is_upper b); [lia|done]. }
  rewrite Hub in E1. cbn [andb] in E1. rewrite orb_false_r in E1.
  cbn [isASCII forallb List.map]. fold (isASCII s). rewrite I1, I2.
  apply orb_true_iff in E1 as [E1|E1].
  - apply N.eqb_eq in E1 as ->. rewrite Hb. split; [done|].
    unfold lower_byte. by rewrite Hub.
  - apply andb_true_iff in E1 as [U E1]. apply N.eqb_eq in E1.
    unfold lower_byte. rewrite U. subst b. rewrite andb_true_r. split; [|done].
    unfold is_upper, in_range in U. unfold RuneSelf.
    apply andb_true_iff in U as [_ U]. apply N.leb_le in U.
    apply N.ltb_lt. lia.
Qed.

Lemma ParseSeverity_names `{UnicodeTables} (s : gostring) (v : Severity) :
  In v [SeverityLow; SeverityMedium; SeverityHigh; SeverityCritical] ->
  ToLower s = Severity_String v -> ParseSeverity s = v.
Proof.
  intros Hv E. unfold ParseSeverity. rewrite E. simpl in Hv.
  destruct Hv as [<-|[<-|[<-|[<-|[]]]]]; vm_compute; reflexivity.
Qed.

Lemma ParseSeverity_other `{UnicodeTables} (s : gostring) :
  ~ In (ToLower s) severity_names -> ParseSeverity s = SeverityLow.
Proof.
  intros Hn. unfold ParseSeverity, gostring_eqb.
  repeat case_bool_decide; try reflexivity;
    exfalso; apply Hn; unfold severity_names; simpl; auto.
Qed.

Lemma ParseSeverity_only `{UnicodeTables} (s : gostring) (v : Severity) :
  v <> SeverityLow -> ParseSeverity s = v -> ToLower s = Severity_String v.
Proof.
  intros Hv E. unfold ParseSeverity, gostring_eqb in E. cbn zeta in E.
  repeat case_bool_decide; subst v; try done.
Qed.

(** C10, amended.  Parsing inverts printing on the four named severities,
    and the result depends on the input only through its lower-case form.  A
    string that equals a severity name when ASCII letter case is ignored
    parses to that severity, and an ASCII string that equals none of
    the four names when letter case is ignored parses to
    [SeverityLow].  Beyond ASCII the lower-case form decides: a
    severity other than [SeverityLow] is returned exactly when the
    lower-case form of the input is its name. *)
Theorem ParseSeverity_round_trip `{UnicodeTables} :
  (forall s : Severity,
      In s [SeverityLow; SeverityMedium; SeverityHigh; SeverityCritical] ->
      ParseSeverity (Severity_String s) = s)
  /\ (forall s t : gostring, ToLower s = ToLower t ->
        ParseSeverity s = ParseSeverity t)
  /\ (forall s t : gostring, isASCII s = true -> isASCII t = true ->
        List.map lower_byte s = List.map lower_byte t ->
        ParseSeverity s = ParseSeverity t)
  /\ (forall s : gostring, ~ In (ToLower s) severity_names ->
        ParseSeverity s = SeverityLow)
  /\ (forall (s : gostring) (v : Severity),
        In v [SeverityLow; SeverityMedium; SeverityHigh; SeverityCritical] ->
        same_ignoring_case s (Severity_String v) = true ->
        ParseSeverity s = v)
  /\ (forall s : gostring,
        isASCII s = true ->
        (forall name, In name severity_names ->
                      same_ignoring_case s name = false) ->
        ParseSeverity s = SeverityLow)
  /\ (forall (s : gostring) (v : Severity),
        In v [SeverityMedium; SeverityHigh; SeverityCritical] ->
        ParseSeverity s = v <-> ToLower s = Severity_String v).
Proof.
  split; [|split; [|split; [|split; [|split; [|split]]]]].
  - intros s Hs. simpl in Hs.
    destruct Hs as [<-|[<-|[<-|[<-|[]]]]]; vm_compute; reflexivity.
  - intros s t E. unfold ParseSeverity. by rewrite E.
  - intros s t Hs Ht E. unfold ParseSeverity.
    by rewrite (ToLower_ascii s Hs), (ToLower_ascii t Ht), E.
  - apply ParseSeverity_other.
  - intros s v Hv E. apply (ParseSeverity_names s v Hv).
    assert (Hn : isASCII (Severity_String v) = true
                 /\ List.map lower_byte (Severity_String v)
                    = Severity_String v).
    { simpl in Hv. destruct Hv as [<-|[<-|[<-|[<-|[]]]]]; by vm_compute. }
    destruct (same_lower_byte s _ (proj1 Hn) (proj2 Hn) E) as [Ha El].
    by rewrite (ToLower_ascii s Ha).
  - intros s Ha Hn. apply ParseSeverity_other.
    rewrite (ToLower_ascii s Ha). intros Hin.
    specialize (Hn _ Hin). by rewrite (lower_byte_same s _ eq_refl) in Hn.
  - intros s v Hv. split.
    + apply ParseSeverity_only. simpl in Hv.
      by destruct Hv as [<-|[<-|[<-|[]]]].
    + apply ParseSeverity_names. simpl in Hv |- *. tauto.
Qed.

Lemma ParseSeverity_round_trip_witness :
  In SeverityHigh [SeverityLow; SeverityMedium; SeverityHigh; SeverityCritical]
  /\ @ParseSeverity plain_tables (Severity_String SeverityHigh) = SeverityHigh
  /\ @ParseSeverity plain_tables (B "CRITICAL")
     = @ParseSeverity plain_tables (B "critical")
  /\ @ParseSeverity plain_tables (B "severe") = SeverityLow
  /\ same_ignoring_case (B "MeDiuM") (Severity_String SeverityMedium) = true
  /\ @ParseSeverity plain_tables (B "MeDiuM") = SeverityMedium
  /\ isASCII (B "height") = true
  /\ @ParseSeverity plain_tables (B "height") = SeverityLow.
Proof.
  pose proof (@ParseSeverity_round_trip plain_tables)
    as (H1 & H2 & H3 & H4 & H5 & H6 & H7).
  split; [simpl; auto|]. split; [apply H1; simpl; auto|].
  split; [apply H3; reflexivity|].
  split; [apply H4; vm_compute;
          intros [E|[E|[E|[E|[]]]]]; discriminate E|].
  split; [reflexivity|]. split; [apply H5; [simpl; auto|reflexivity]|].
  split; [reflexivity|].
  apply H6; [reflexivity|].
  intros name [<-|[<-|[<-|[<-|[]]]]]; reflexivity.
Defined.

(** C10, as stated, fails beyond ASCII.  With the entry of the case
    tables for U+0130, a string that is none of the four names, whatever
    the case of its ASCII letters, parses to a severity other than
    [SeverityLow]. *)
Lemma dotted_I_parses_high :
  let s := B "HİGH" in
  let t := B "CRİTİCAL" in
  @lower_table dotted_I_tables 304 = 105
  /\ to_runes s = [72; 304; 71; 72]
  /\ ~ In s severity_names
  /\ (forall name, In name severity_names -> same_ignoring_case s name = false)
  /\ @ToLower dotted_I_tables s = B "high"
  /\ @ParseSeverity dotted_I_tables s = SeverityHigh
  /\ @ParseSeverity dotted_I_tables s <> SeverityLow
  /\ (forall name, In name severity_names -> same_ignoring_case t name = false)
  /\ @ParseSeverity dotted_I_tables t = SeverityCritical.
Proof.
  cbv zeta. split; [reflexivity|]. split; [by vm_compute|].
  split; [vm_compute; intros [E|[E|[E|[E|[]]]]]; discriminate E|].
  split; [intros name [<-|[<-|[<-|[<-|[]]]]]; reflexivity|].
  split; [by vm_compute|]. split; [by vm_compute|].
  split; [by vm_compute|].
  split; [intros name [<-|[<-|[<-|[<-|[]]]]]; reflexivity|].
  by vm_compute.
Qed.

(** ** The engine and fact-type mismatches (C9) *)

Lemma fold_left_push_if {A X} (c : X -> bool) (f : X -> A) (l : list X)
    (init : list A) :
  List.fold_left (fun acc x => if c x then acc ++ [f x] else acc) l init
  = init ++ List.flat_map (fun x => if c x then [f x] else []) l.
Proof.
  rewrite <- fold_left_append. apply fold_left_ext.
  intros a x. destruct (c x); [done|by rewrite app_nil_r].
Qed.

Lemma fold_left_push_map {A X} (f : X -> A) (l : list X) (init : list A) :
  List.fold_left (fun acc x => acc ++ [f x]) l init = init ++ List.map f l.
Proof.
  revert init; induction l as [|x l IH]; intros init; simpl.
  - by rewrite app_nil_r.
  - rewrite IH. by rewrite <- app_assoc.
Qed.

Lemma CheckFile_all_empty (e : Engine) (file : ParsedFile)
    (language : gostring) (rules : list Rule) :
  engine_rules e !! language = Some rules ->
  Forall (fun rule => rule_Check rule file = []) rules ->
  CheckFile e file language = [].
Proof.
  intros E Hall. unfold CheckFile. rewrite E.
  rewrite (fold_left_append (fun rule => rule_Check rule file)). simpl.
  clear E. induction Hall as [|r rs Hr _ IH]; simpl; [done|]. by rewrite Hr, IH.
Qed.

Lemma ExceptionHandlingRule_text_part `{UnicodeTables} (cfg : RuleConfig)
    (file : ParsedFile) :
  (forall c, file_AST file <> ASTJavaClass c) ->
  ExceptionHandlingRule.Check cfg file = text_findings cfg file.
Proof.
  intros Hne. unfold ExceptionHandlingRule.Check, text_findings.
  rewrite !fold_left_push_map. simpl.
  destruct (file_AST file) as [|c| |] eqn:E; try reflexivity.
  by destruct (Hne c).
Qed.

(** On facts of the type they assert the rules do report: a selector
    with two ids and a repeated style block, an image without text, a
    function of 31 lines, a method of 2 lines under a threshold of 1, a
    method name with a capital first letter. *)
Lemma matching_facts_are_read :
  length (@CSSSelectorsRule.Check plain_tables listed_styles sample_config
            (sample_file "css" (B "a { color: red } b { color: red }")
               (ASTMap {[ B "selectors"
                            := FactStrings [B "a"; B "#x #y"] ]})))
  = 2%nat
  /\ length (@ImgAltRule.Check plain_tables sample_config
               (sample_file "html" (B "<img>") markup_facts)) = 1%nat
  /\ length (@FunctionLengthRule.Check plain_tables sample_config
               (sample_file "javascript"
                  (B "f() {" ++ List.repeat LF 31 ++ B "}")
                  (ASTJSFunctions [sample_function "f"]))) = 1%nat
  /\ length (@MethodLengthRule.Check plain_tables
               (config_with "max_lines" "1")
               (sample_file "java" (B "run() {" ++ [LF; LF] ++ B "}")
                  (ASTJavaClass
                     (sample_class [] [sample_method "run" []]))))
     = 1%nat
  /\ length (@CodingConventionRule.Check plain_tables sample_config
               (sample_file "java" (B "class Sample {}")
                  (ASTJavaClass
                     (sample_class [] [sample_method "Run" []]))))
     = 1%nat.
Proof. repeat split; vm_compute; reflexivity. Qed.

(** C9, the claim as stated fails: [ExceptionHandlingRule] asserts the
    class fact type only for its last check, so on a file with other
    facts it still reports what it found in the text. *)
Lemma fact_mismatch_can_report :
  ~ (forall (cfg : RuleConfig) (file : ParsedFile),
        (forall c, file_AST file <> ASTJavaClass c) ->
        @ExceptionHandlingRule.Check plain_tables cfg file = []).
Proof.
  intros Hall.
  specialize (Hall sample_config script_with_trace).
  assert (Hne : forall c, file_AST script_with_trace <> ASTJavaClass c)
    by (intros c; discriminate).
  specialize (Hall Hne).
  apply (f_equal (@length Issue)) in Hall.
  vm_compute in Hall. discriminate Hall.
Qed.

(** C9, amended.  Every rule that asserts a fact type, but for
    [ExceptionHandlingRule], yields no finding when the assertion fails:
    the six rules on class facts other than that one on a file whose
    facts are not class facts, [FunctionLengthRule] on a file whose facts
    are not a list of functions, [CSSSelectorsRule] and [ImgAltRule] on a
    file whose facts are not a map, or whose map has no entry of the
    expected type under the key they read.  [ExceptionHandlingRule]
    yields exactly its text findings; none fails.  [CheckFile] yields no
    finding for a language without a rule list, and none when every rule
    registered for the language yields none. *)
Theorem fact_mismatch_is_not_an_error `{UnicodeTables} `{StyleOrder} :
  (forall (cfg : RuleConfig) (file : ParsedFile),
      (forall c, file_AST file <> ASTJavaClass c) ->
      TransactionalRule.Check cfg file = []
      /\ CyclomaticComplexityRule.Check cfg file = []
      /\ LayerArchitectureRule.Check cfg file = []
      /\ ExceptionHandlingRule.Check cfg file = text_findings cfg file
      /\ MethodLengthRule.Check cfg file = []
      /\ InputValidationRule.Check cfg file = []
      /\ CodingConventionRule.Check cfg file = [])
  /\ (forall (e : Engine) (file : ParsedFile) (language : gostring),
        engine_rules e !! language = None -> CheckFile e file language = [])
  /\ (forall (e : Engine) (file : ParsedFile) (language : gostring)
             (rules : list Rule),
        engine_rules e !! language = Some rules ->
        Forall (fun rule => rule_Check rule file = []) rules ->
        CheckFile e file language = [])
  /\ (forall (cfg : RuleConfig) (file : ParsedFile),
        (forall functions, file_AST file <> ASTJSFunctions functions) ->
        FunctionLengthRule.Check cfg file = [])
  /\ (forall (cfg : RuleConfig) (file : ParsedFile),
        (forall data, file_AST file <> ASTMap data) ->
        CSSSelectorsRule.Check cfg file = []
        /\ ImgAltRule.Check cfg file = [])
  /\ (forall (cfg : RuleConfig) (file : ParsedFile)
             (data : gmap gostring FactValue),
        file_AST file = ASTMap data ->
        ((forall selectorList,
             data !! B "selectors" <> Some (FactStrings selectorList)) ->
         CSSSelectorsRule.Check cfg file = [])
        /\ ((forall imageList,
                data !! B "images" <> Some (FactImages imageList)) ->
            ImgAltRule.Check cfg file = [])).
Proof.
  split; [|split; [|split; [|split; [|split]]]].
  - intros cfg file Hne. repeat split.
    + unfold TransactionalRule.Check.
      destruct (file_AST file) as [|c| |]; try reflexivity. by destruct (Hne c).
    + unfold CyclomaticComplexityRule.Check.
      destruct (file_AST file) as [|c| |]; try reflexivity. by destruct (Hne c).
    + unfold LayerArchitectureRule.Check.
      destruct (file_AST file) as [|c| |]; try reflexivity. by destruct (Hne c).
    + by apply ExceptionHandlingRule_text_part.
    + unfold MethodLengthRule.Check.
      destruct (file_AST file) as [|c| |]; try reflexivity. by destruct (Hne c).
    + unfold InputValidationRule.Check.
      destruct (file_AST file) as [|c| |]; try reflexivity. by destruct (Hne c).
    + unfold CodingConventionRule.Check.
      destruct (file_AST file) as [|c| |]; try reflexivity. by destruct (Hne c).
  - intros e file language E. unfold CheckFile. by rewrite E.
  - intros e file language rules. apply CheckFile_all_empty.
  - intros cfg file Hne. unfold FunctionLengthRule.Check.
    destruct (file_AST file) as [| |fs|]; try reflexivity.
    by destruct (Hne fs).
  - intros cfg file Hne.
    unfold CSSSelectorsRule.Check, ImgAltRule.Check.
    destruct (file_AST file) as [| | |data]; try done. by destruct (Hne data).
  - intros cfg file data E.
    unfold CSSSelectorsRule.Check, ImgAltRule.Check. rewrite E. split.
    + intros Hne. destruct (data !! B "selectors") as [[imgs|l]|]; try done.
      by destruct (Hne l).
    + intros Hne. destruct (data !! B "images") as [[imgs|l]|]; try done.
      by destruct (Hne imgs).
Qed.

Lemma fact_mismatch_is_not_an_error_witness :
  (forall c, file_AST script_with_trace <> ASTJavaClass c)
  /\ @TransactionalRule.Check plain_tables sample_config script_with_trace = []
  /\ CheckFile {| engine_rules :=
                    {[ B "java" := [@NewTransactionalRule plain_tables
                                      sample_config] ]} |}
               script_with_trace (B "javascript") = []
  /\ CheckFile {| engine_rules :=
                    {[ B "javascript" := [@NewTransactionalRule plain_tables
                                            sample_config] ]} |}
               script_with_trace (B "javascript") = []
  /\ @MethodLengthRule.Check plain_tables sample_config script_with_trace = []
  /\ @InputValidationRule.Check plain_tables sample_config script_with_trace
     = []
  /\ @CodingConventionRule.Check plain_tables sample_config script_with_trace
     = []
  /\ (forall functions, file_AST style_sheet <> ASTJSFunctions functions)
  /\ @FunctionLengthRule.Check plain_tables sample_config style_sheet = []
  /\ (forall data, file_AST script_with_trace <> ASTMap data)
  /\ @CSSSelectorsRule.Check plain_tables listed_styles sample_config
       script_with_trace = []
  /\ @ImgAltRule.Check plain_tables sample_config script_with_trace = []
  /\ @ImgAltRule.Check plain_tables sample_config style_sheet = []
  /\ @CSSSelectorsRule.Check plain_tables listed_styles sample_config
       (sample_file "html" (B "<img>") markup_facts) = [].
Proof.
  pose proof (@fact_mismatch_is_not_an_error plain_tables listed_styles)
    as (H1 & H2 & H3 & H4 & H5 & H6).
  assert (Hne : forall c, file_AST script_with_trace <> ASTJavaClass c)
    by (intros c; discriminate).
  assert (Hnm : forall data, file_AST script_with_trace <> ASTMap data)
    by (intros data; discriminate).
  assert (Hnf : forall fs, file_AST style_sheet <> ASTJSFunctions fs)
    by (intros fs; discriminate).
  split; [exact Hne|].
  split; [apply (H1 sample_config script_with_trace Hne)|].
  split; [apply H2; simpl; apply lookup_singleton_ne; vm_compute;
          discriminate|].
  split.
  { eapply H3.
    + simpl. apply lookup_singleton_eq.
    + constructor; [|constructor]. simpl.
      apply (H1 sample_config script_with_trace Hne). }
  split; [apply (H1 sample_config script_with_trace Hne)|].
  split; [apply (H1 sample_config script_with_trace Hne)|].
  split; [apply (H1 sample_config script_with_trace Hne)|].
  split; [exact Hnf|].
  split; [apply (H4 sample_config style_sheet Hnf)|].
  split; [exact Hnm|].
  split; [apply (H5 sample_config script_with_trace Hnm)|].
  split; [apply (H5 sample_config script_with_trace Hnm)|].
  split.
  - refine (proj2 (H6 sample_config style_sheet _ eq_refl) _).
    intros imageList E. vm_compute in E. discriminate E.
  - refine (proj1 (H6 sample_config (sample_file "html" (B "<img>")
                                                 markup_facts) _ eq_refl) _).
    intros selectorList E. vm_compute in E. discriminate E.
Defined.

(** ** Matches do not overlap *)

Lemma ordered_spans_weaken (lo lo' : nat) (l : list (nat * nat)) :
  (lo' <= lo)%nat -> ordered_spans lo l -> ordered_spans lo' l.
Proof. destruct l as [|m l]; simpl; [done|]. intros ? (? & ? & ?). repeat split; [lia|done..]. Qed.

Lemma find_all_from_ordered (r : regex) (s : list N) :
  forall prev pos skip adj,
    ordered_spans (pos + skip) (find_all_from r prev s pos skip adj).
Proof.
  induction s as [|c s IH]; intros prev pos skip adj.
  - destruct skip as [|k]; simpl; [|done].
    destruct (match_here r prev []) as [[|n]|]; simpl; try done.
    + destruct adj; simpl; [done|lia].
    + repeat split; lia.
  - destruct skip as [|k]; simpl.
    + destruct (match_here r prev (c :: s)) as [[|n]|]; simpl.
      * assert (Hrest : ordered_spans (pos + 0)
                  (find_all_from r (Some c) s (S pos) 0 false)).
        { eapply ordered_spans_weaken; [|apply IH]. lia. }
        destruct adj; simpl; [done|].
        repeat split; try lia. eapply ordered_spans_weaken; [|apply Hrest]. lia.
      * repeat split; try lia.
        eapply ordered_spans_weaken; [|apply IH]. lia.
      * eapply ordered_spans_weaken; [|apply IH]. lia.
    + eapply ordered_spans_weaken; [|apply IH]. lia.
Qed.

Lemma byte_pos_mono (cs : list chunk) (a b : nat) :
  (a <= b)%nat -> (byte_pos cs a <= byte_pos cs b)%nat.
Proof.
  intros Hab. unfold byte_pos.
  replace b with (a + (b - a))%nat by lia.
  rewrite <- (firstn_skipn a (firstn (a + (b - a)) cs)).
  rewrite firstn_firstn, Nat.min_l by lia.
  rewrite List.map_app, List.concat_app, length_app. apply Nat.le_add_r.
Qed.

Lemma ordered_spans_byte_pos (cs : list chunk) (l : list (nat * nat)) :
  forall lo, ordered_spans lo l ->
    ordered_spans (byte_pos cs lo)
      (List.map (fun m => (byte_pos cs (fst m), byte_pos cs (snd m))) l).
Proof.
  induction l as [|m l IH]; intros lo; simpl; [done|].
  intros (H1 & H2 & H3). repeat split; try by apply byte_pos_mono.
  by apply IH.
Qed.

Lemma FindAllStringIndex_ordered (r : regex) (s : gostring) :
  ordered_spans 0 (FindAllStringIndex r s).
Proof.
  unfold FindAllStringIndex.
  apply (ordered_spans_byte_pos (chunks s) _ 0%nat).
  apply (find_all_from_ordered r _ None 0 0 false).
Qed.

Lemma FindAllString_length (r : regex) (s : gostring) :
  length (FindAllString r s) = length (FindAllStringIndex r s).
Proof. unfold FindAllString. apply length_map. Qed.

(** ** The cyclomatic-complexity rule (C1) *)

(** C1.  The score of a method is 1 when its extracted body is empty and
    otherwise 1 plus, for each of the twelve branch patterns, the number
    of its matches in the body, which are in order and do not overlap;
    the rule reports a method exactly when its score exceeds 10, once,
    with a message that carries the method name and the score. *)
Theorem cyclomatic_complexity_rule `{UnicodeTables} (cfg : RuleConfig)
    (file : ParsedFile) :
  (forall method : JavaMethod,
      let body := extractMethodBody file method in
      CyclomaticComplexityRule.calculateComplexity file method
      = if gostring_eqb body [] then 1%nat
        else (1 + list_sum
                    (List.map (fun p => length (FindAllStringIndex p body))
                              CyclomaticComplexityRule.branchPatterns))%nat)
  /\ (forall (p : regex) (body : gostring),
         ordered_spans 0 (FindAllStringIndex p body))
  /\ length CyclomaticComplexityRule.branchPatterns = 12%nat
  /\ (forall javaClass : JavaClass,
         file_AST file = ASTJavaClass javaClass ->
         CyclomaticComplexityRule.Check cfg file
         = List.flat_map
             (fun method =>
                let score :=
                  CyclomaticComplexityRule.calculateComplexity file method in
                if (10 <? score)%nat
                then [CyclomaticComplexityRule.issue_for cfg file method score]
                else [])
             (c_Methods javaClass))
  /\ (forall (method : JavaMethod) (score : nat),
         Message (CyclomaticComplexityRule.issue_for cfg file method score)
         = B "메소드 '" ++ m_Name method
             ++ B "'의 순환 복잡도가 너무 높습니다 (복잡도: "
             ++ Itoa score ++ B ")").
Proof.
  repeat split.
  - intros method body. unfold CyclomaticComplexityRule.calculateComplexity.
    fold body. destruct (gostring_eqb body []); [done|].
    rewrite fold_left_add_sum. f_equal. f_equal.
    apply List.map_ext. intros p. apply FindAllString_length.
  - intros p body. apply FindAllStringIndex_ordered.
  - intros javaClass E. unfold CyclomaticComplexityRule.Check. rewrite E.
    by rewrite (fold_left_push_if
                  (fun method => (10 <? CyclomaticComplexityRule.calculateComplexity file method)%nat)
                  (fun method => CyclomaticComplexityRule.issue_for cfg file method
                                   (CyclomaticComplexityRule.calculateComplexity file method))).
Qed.

Lemma cyclomatic_complexity_rule_witness :
  let body := B "run() { if (a) {} if (b) {} if (c) {} if (d) {} if (e) {} if (f) {} if (g) {} if (h) {} if (i) {} if (j) {} if (k) {} }" in
  let method := sample_method "run" [] in
  let file := sample_file "java" body
                (ASTJavaClass (sample_class [] [method])) in
  file_AST file = ASTJavaClass (sample_class [] [method])
  /\ CyclomaticComplexityRule.calculateComplexity file method = 12%nat
  /\ @CyclomaticComplexityRule.Check plain_tables sample_config file
     = [@CyclomaticComplexityRule.issue_for plain_tables sample_config file
          method 12].
Proof.
  intros body method file.
  pose proof (@cyclomatic_complexity_rule plain_tables sample_config file)
    as (_ & _ & _ & HCheck & _).
  split; [reflexivity|]. split; [vm_compute; reflexivity|].
  rewrite (HCheck _ eq_refl). vm_compute. reflexivity.
Defined.

(** ** The transaction-need rule (C2) *)








(** ** The annotation collector (C8) *)

Lemma Split_nonempty (s : gostring) (sep : N) : Split s sep <> [].
Proof.
  destruct s as [|b t]; simpl; [done|].
  destruct (b =? sep); [done|]. by destruct (Split t sep).
Qed.










(** ** Body extraction (C4, C5) *)

Lemma extractMethodBody_no_match (file : ParsedFile) (method : JavaMethod) :
  FindStringIndex (methodPattern (m_Name method)) (Content file) = None ->
  extractMethodBody file method = [].
Proof. intros E. unfold extractMethodBody. by rewrite E. Qed.

(** C4, at a failing input.  In [commented_file] the pattern for [f]
    matches, its opening brace is at byte 19 and the braces are nested
    correctly, so the body is the six bytes from that brace to its partner;
    the function returns a blank and the closing brace instead, because
    it uses the byte offset 19 as an index into the runes. *)
Theorem extractMethodBody_mixes_bytes_and_runes :
  FindStringIndex (methodPattern (B "f")) (Content commented_file)
  = Some (15%nat, 20%nat)
  /\ slice (Content commented_file) 19 25 = B "{ a; }"
  /\ depth_trace (B "{ a; }") 0 = [1; 1; 1; 1; 1; 0]%Z
  /\ extractMethodBody commented_file (sample_method "f" []) = B " }"
  /\ depth_trace (B " }") 0 = [0; -1]%Z.
Proof. vm_compute. repeat split; reflexivity. Qed.

(** C5, at a failing input.  In [truncated_file] the pattern for [f]
    matches and the depth from its opening brace, at byte 10, never comes
    back to 0, yet the function returns the inner braces: the scan starts
    at rune 10, which is two runes past the brace. *)
Theorem extractMethodBody_unbalanced_not_empty :
  FindStringIndex (methodPattern (B "f")) (Content truncated_file)
  = Some (7%nat, 11%nat)
  /\ depth_trace (skipn 10 (Content truncated_file)) 0 = [1; 1; 2; 2; 1]%Z
  /\ extractMethodBody truncated_file (sample_method "f" []) = B "{ }".
Proof. vm_compute. repeat split; reflexivity. Qed.

(** ** The block-similarity detector (C3) *)

Lemma gostring_eqb_eq (a b : gostring) : gostring_eqb a b = true <-> a = b.
Proof. unfold gostring_eqb. apply bool_decide_eq_true. Qed.

Lemma gostring_eqb_neq (a b : gostring) : gostring_eqb a b = false <-> a <> b.
Proof. unfold gostring_eqb. apply bool_decide_eq_false. Qed.

Lemma normalizeBlock_lines (lines : list gostring) :
  let normalized :=
    List.map (fun line => DuplicateCodeRule.normalizeCodeLine (TrimSpace line))
             (List.filter substantive lines) in
  DuplicateCodeRule.normalizeBlock lines
  = if (length normalized <? 3)%nat then [] else Join normalized [LF].
Proof.
  intros normalized. unfold DuplicateCodeRule.normalizeBlock.
  assert (E : forall acc,
             List.fold_left
               (fun normalized line =>
                  let trimmed := TrimSpace line in
                  if DuplicateCodeRule.is_excluded trimmed then normalized
                  else normalized ++ [DuplicateCodeRule.normalizeCodeLine trimmed])
               lines acc
             = acc ++ List.map (fun line => DuplicateCodeRule.normalizeCodeLine
                                              (TrimSpace line))
                               (List.filter substantive lines)).
  { induction lines as [|l ls IH]; intros acc; cbn [List.fold_left List.filter].
    - by rewrite app_nil_r.
    - unfold substantive at 1.
      destruct (DuplicateCodeRule.is_excluded (TrimSpace l));
        cbn [negb List.map]; rewrite IH; [done|by rewrite <- app_assoc]. }
  rewrite E. reflexivity.
Qed.


Lemma collect_blocks_fold (lines : list gostring) :
  DuplicateCodeRule.collect_blocks lines
  = List.fold_left (add_window lines) (window_starts lines) ∅.
Proof. reflexivity. Qed.

Lemma group_of_snoc (lines : list gostring) (ixs : list nat) (i : nat)
    (k : gostring) :
  group_of lines (ixs ++ [i]) k
  = group_of lines ixs k
    ++ (if gostring_eqb (window_key lines i) k then [S i] else []).
Proof.
  unfold group_of. rewrite List.filter_app, List.map_app. cbn [List.filter].
  by destruct (gostring_eqb (window_key lines i) k).
Qed.

(** The map built by the first loop: under a key, the group of that key. *)
Lemma blocks_lookup (lines : list gostring) (ixs : list nat) (k : gostring) :
  List.fold_left (add_window lines) ixs ∅ !! k
  = if gostring_eqb k [] then None
    else match group_of lines ixs k with
         | [] => None
         | l => Some l
         end.
Proof.
  induction ixs as [|i ixs IH] using rev_ind.
  - simpl. rewrite lookup_empty. by destruct (gostring_eqb k []).
  - rewrite List.fold_left_app. cbn [List.fold_left].
    rewrite group_of_snoc. unfold add_window at 1.
    destruct (gostring_eqb (window_key lines i) []) eqn:Ei; cbn [negb].
    + rewrite IH. destruct (gostring_eqb k []) eqn:Ek; [done|].
      destruct (gostring_eqb (window_key lines i) k) eqn:Eik.
      * apply gostring_eqb_eq in Ei, Eik. apply gostring_eqb_neq in Ek.
        congruence.
      * by rewrite app_nil_r.
    + destruct (gostring_eqb (window_key lines i) k) eqn:Eik.
      * apply gostring_eqb_eq in Eik. subst k.
        rewrite lookup_insert_eq, IH, Ei.
        by destruct (group_of lines ixs (window_key lines i)).
      * apply gostring_eqb_neq in Eik.
        rewrite lookup_insert_ne by done. rewrite IH, app_nil_r. done.
Qed.

(** The entries of the map, flattened to (key, start line) pairs, are the
    windows with a key, up to order. *)
Lemma flat_map_Permutation {A X} (f : X -> list A) (l l' : list X) :
  l ≡ₚ l' -> List.flat_map f l ≡ₚ List.flat_map f l'.
Proof.
  induction 1 as [|x l l' _ IH|x y l|l l' l'' _ IH1 _ IH2]; simpl.
  - done.
  - by rewrite IH.
  - rewrite !app_assoc. f_equiv. apply Permutation_app_comm.
  - by rewrite IH1.
Qed.

Lemma blocks_pairs (lines : list gostring) (ixs : list nat) :
  List.flat_map (fun e => List.map (pair (fst e)) (snd e))
                (map_to_list (List.fold_left (add_window lines) ixs ∅))
  ≡ₚ List.flat_map
       (fun i => if negb (gostring_eqb (window_key lines i) [])
                 then [(window_key lines i, S i)] else [])
       ixs.
Proof.
  induction ixs as [|i ixs IH] using rev_ind.
  - simpl. by rewrite map_to_list_empty.
  - rewrite List.fold_left_app, List.flat_map_app. cbn [List.fold_left List.flat_map].
    rewrite app_nil_r. unfold add_window at 1.
    set (m := List.fold_left (add_window lines) ixs ∅) in *.
    set (k := window_key lines i).
    set (P := fun e : gostring * list nat => List.map (pair (fst e)) (snd e)) in *.
    destruct (negb (gostring_eqb k [])); [|by rewrite app_nil_r].
    destruct (m !! k) as [old|] eqn:Em; cbn [default].
    + assert (P1 : map_to_list (<[k:=old ++ [S i]]> m)
                   ≡ₚ (k, old ++ [S i]) :: map_to_list (delete k m)).
      { rewrite <- (insert_delete_eq m k).
        apply map_to_list_insert, lookup_delete_eq. }
      assert (P2 : map_to_list m ≡ₚ (k, old) :: map_to_list (delete k m))
        by (symmetry; by apply map_to_list_delete).
      etrans; [apply (flat_map_Permutation P _ _ P1)|].
      etrans; [|apply Permutation_app_tail; etrans;
                 [apply (flat_map_Permutation P _ _ (Permutation_sym P2))
                 |exact IH]].
      cbn [List.flat_map]. unfold P at 1 3. cbn [fst snd].
      rewrite List.map_app. cbn [List.map]. rewrite <- !app_assoc.
      apply Permutation_app_head. cbn [app]. apply Permutation_cons_append.
    + etrans; [apply (flat_map_Permutation P _ _
                        (map_to_list_insert m k _ Em))|].
      cbn [List.flat_map]. unfold P at 1. cbn [fst snd app List.map].
      etrans; [apply Permutation_cons_append|].
      apply Permutation_app_tail, IH.
Qed.

Lemma flat_map_flat_map {A X Y} (f : X -> list Y) (g : Y -> list A)
    (l : list X) :
  List.flat_map g (List.flat_map f l)
  = List.flat_map (fun x => List.flat_map g (f x)) l.
Proof.
  induction l as [|x l IH]; simpl; [done|].
  by rewrite List.flat_map_app, IH.
Qed.

Lemma flat_map_ext_in {A X} (f g : X -> list A) (l : list X) :
  (forall x, In x l -> f x = g x) -> List.flat_map f l = List.flat_map g l.
Proof.
  induction l as [|x l IH]; intros E; simpl; [done|].
  rewrite E by (left; done). rewrite IH; [done|].
  intros y Hy. apply E. by right.
Qed.

Lemma flat_map_singleton_map {A X} (f : X -> A) (l : list X) :
  List.flat_map (fun x => [f x]) l = List.map f l.
Proof. induction l; simpl; congruence. Qed.

Lemma group_findings {A K} (f : nat -> nat -> A) (k : K) (l : list nat)
    (n : nat) :
  (if (2 <=? n)%nat then List.map (fun lineNum => f lineNum n) l else [])
  = List.flat_map
      (fun p : K * nat => if (2 <=? n)%nat then [f (snd p) n] else [])
      (List.map (pair k) l).
Proof.
  destruct (2 <=? n)%nat; induction l as [|x l IH]; simpl; congruence.
Qed.

(** The findings of the detector are, in some order, the expected ones. *)
Lemma checkDuplicateBlocks_expected `{UnicodeTables} `{MapOrder}
    (cfg : RuleConfig) (file : ParsedFile) (issues : list Issue) :
  exists found : list Issue,
    DuplicateCodeRule.checkDuplicateBlocks cfg file issues = issues ++ found
    /\ found ≡ₚ expected_block_findings cfg file.
Proof.
  set (lines := Lines file).
  set (g := fun entry : gostring * list nat =>
              if (2 <=? length (snd entry))%nat
              then List.map (fun lineNum =>
                               DuplicateCodeRule.issue_for cfg file lineNum
                                 (length (snd entry))) (snd entry)
              else []).
  exists (List.flat_map g (range_order (DuplicateCodeRule.collect_blocks lines))).
  split.
  - unfold DuplicateCodeRule.checkDuplicateBlocks. fold lines.
    rewrite <- fold_left_append. apply fold_left_ext.
    intros acc entry. unfold g.
    destruct (2 <=? length (snd entry))%nat; [|by rewrite app_nil_r].
    by rewrite fold_left_push_map.
  - rewrite (flat_map_Permutation g _ _ (range_order_perm _)).
    rewrite collect_blocks_fold.
    set (ixs := window_starts lines).
    set (F := fun p : gostring * nat =>
                let n := length (group_of lines ixs (fst p)) in
                if (2 <=? n)%nat
                then [DuplicateCodeRule.issue_for cfg file (snd p) n] else []).
    assert (Eg : List.flat_map g
                   (map_to_list (List.fold_left (add_window lines) ixs ∅))
                 = List.flat_map F
                     (List.flat_map
                        (fun e => List.map (pair (fst e)) (snd e))
                        (map_to_list (List.fold_left (add_window lines) ixs ∅)))).
    { rewrite flat_map_flat_map. apply flat_map_ext_in.
      intros [k l] Hin. apply list_elem_of_In, elem_of_map_to_list in Hin.
      rewrite blocks_lookup in Hin.
      destruct (gostring_eqb k []); [done|].
      assert (El : l = group_of lines ixs k)
        by (destruct (group_of lines ixs k); congruence).
      unfold g, F. cbn [fst snd].
      rewrite (group_findings (DuplicateCodeRule.issue_for cfg file) k l).
      apply flat_map_ext_in. intros [k' x] Hx.
      apply List.in_map_iff in Hx. destruct Hx as (y & Ey & _).
      injection Ey as <- <-. cbn [fst snd]. by rewrite <- El. }
    rewrite Eg. rewrite (flat_map_Permutation F _ _ (blocks_pairs lines ixs)).
    rewrite flat_map_flat_map. unfold expected_block_findings.
    fold lines ixs.
    apply (reflexive_eq (R:=Permutation)), flat_map_ext_in.
    intros i _. unfold F.
    destruct (gostring_eqb (window_key lines i) []); cbn [negb andb]; [done|].
    cbn [List.flat_map fst snd]. by rewrite app_nil_r.
Qed.



(** ** Renaming of identifiers (C7) *)

(** *** Decoding next to an ASCII byte *)

Ltac bool_to_prop :=
  repeat match goal with
  | H : (_ && _) = true |- _ => apply andb_true_iff in H; destruct H
  | H : (_ && _) = false |- _ => apply andb_false_iff in H; destruct H
  | H : (_ <? _) = true |- _ => apply N.ltb_lt in H
  | H : (_ <? _) = false |- _ => apply N.ltb_ge in H
  | H : (_ <=? _) = true |- _ => apply N.leb_le in H
  | H : (_ <=? _) = false |- _ => apply N.leb_gt in H
  | H : (_ =? _) = true |- _ => apply N.eqb_eq in H
  | H : (_ =? _) = false |- _ => apply N.eqb_neq in H
  end.

Lemma DecodeRune_width (s : gostring) :
  s <> [] -> (1 <= snd (DecodeRune s) <= length s)%nat.
Proof.
  destruct s as [|b0 [|b1 [|b2 [|b3 t]]]]; [done|..]; intros _;
    unfold DecodeRune;
    repeat (match goal with
            | |- context [if ?c then _ else _] => destruct c
            end; cbn [snd length]); lia.
Qed.

Lemma DecodeRune_app (x b : gostring) :
  x <> [] -> (b = [] \/ exists c b', b = c :: b' /\ c < 128) ->
  DecodeRune (x ++ b) = DecodeRune x.
Proof.
  intros Hx Hb.
  destruct x as [|b0 [|b1 [|b2 [|b3 t]]]]; [done|..]; clear Hx;
    destruct Hb as [->|(c & b' & -> & Hc)]; rewrite ?app_nil_r; try reflexivity;
    cbn [app]; unfold DecodeRune, is_cont;
    repeat (match goal with
            | |- context [if ?c then _ else _] => destruct c eqn:?
            | |- context [match ?l with [] => _ | _ :: _ => _ end] => destruct l eqn:?
            end); try reflexivity; bool_to_prop; try lia; try discriminate.
Qed.

Lemma chunks_from_app (a b : gostring) :
  ascii_start b ->
  forall skip, (skip <= length a)%nat ->
    chunks_from (a ++ b) skip = chunks_from a skip ++ chunks b.
Proof.
  intros Hb. induction a as [|c a IH]; intros skip Hs.
  - simpl in Hs. assert (skip = 0%nat) as -> by lia. reflexivity.
  - destruct skip as [|k].
    + cbn [app chunks_from].
      change (c :: a ++ b) with ((c :: a) ++ b).
      rewrite (DecodeRune_app (c :: a) b) by done.
      pose proof (DecodeRune_width (c :: a)) as Hw.
      destruct (DecodeRune (c :: a)) as [r w]. cbn [snd] in Hw.
      specialize (Hw ltac:(done)). cbn [length] in Hw.
      rewrite IH by lia. cbn [app]. f_equal. f_equal.
      apply (take_app_le (c :: a)). cbn [length]. lia.
    + cbn [app chunks_from]. apply IH. cbn [length] in Hs. lia.
Qed.

Lemma chunks_app (a b : gostring) :
  ascii_start b -> chunks (a ++ b) = chunks a ++ chunks b.
Proof. intros Hb. apply chunks_from_app; [done|lia]. Qed.

Lemma chunks_ascii_cons (c : N) (s : gostring) :
  c < 128 -> chunks (c :: s) = (c, [c]) :: chunks s.
Proof.
  intros Hc. unfold chunks. cbn [chunks_from]. unfold DecodeRune.
  apply N.ltb_lt in Hc. by rewrite Hc.
Qed.

Lemma is_word_char_ascii (b : N) : is_word_char b = true -> b < 128.
Proof.
  unfold is_word_char, is_digit, is_letter, is_upper, is_lower, in_range.
  intros H. repeat (apply orb_true_iff in H; destruct H as [H|H]);
    bool_to_prop; lia.
Qed.

Lemma chunks_word_app (w s : gostring) :
  Forall (fun b => is_word_char b = true) w ->
  chunks (w ++ s) = List.map (fun b => (b, [b])) w ++ chunks s.
Proof.
  induction 1 as [|c w Hc _ IH]; [done|].
  cbn [app List.map]. rewrite chunks_ascii_cons by by apply is_word_char_ascii.
  by rewrite IH.
Qed.

Lemma chunk_bytes_chunks_from (s : gostring) :
  forall skip, (skip <= length s)%nat ->
    chunk_bytes (chunks_from s skip) = skipn skip s.
Proof.
  induction s as [|c s IH]; intros skip Hs.
  - simpl in Hs. assert (skip = 0%nat) as -> by lia. reflexivity.
  - destruct skip as [|k].
    + cbn [chunks_from].
      pose proof (DecodeRune_width (c :: s)) as Hw.
      destruct (DecodeRune (c :: s)) as [r w]. cbn [snd] in Hw.
      specialize (Hw ltac:(done)). cbn [length] in Hw.
      unfold chunk_bytes in *. cbn [List.map List.concat snd].
      rewrite IH by lia.
      destruct w as [|w']; [lia|]. cbn [Nat.pred firstn skipn app].
      f_equal. apply take_drop.
    + cbn [chunks_from skipn]. apply IH. cbn [length] in Hs. lia.
Qed.

Lemma chunk_bytes_chunks (s : gostring) : chunk_bytes (chunks s) = s.
Proof. apply (chunk_bytes_chunks_from s 0). lia. Qed.

Lemma DecodeRune_rune (b0 : N) (t : gostring) :
  fst (DecodeRune (b0 :: t)) = b0 /\ b0 < 128
  \/ 128 <= fst (DecodeRune (b0 :: t)).
Proof.
  unfold DecodeRune, is_cont, RuneError.
  repeat (match goal with
          | |- context [if ?c then _ else _] => destruct c eqn:?
          | |- context [match ?l with [] => _ | _ :: _ => _ end] => destruct l eqn:?
          end); cbn [fst]; bool_to_prop; lia.
Qed.

Lemma chunks_from_runes (P : N -> Prop) (s : gostring) :
  Forall P s -> (forall r, 128 <= r -> P r) ->
  forall skip, Forall (fun c => P (fst c)) (chunks_from s skip).
Proof.
  intros Hs Hhi. induction Hs as [|c s Hc Hs IH]; intros skip; [constructor|].
  destruct skip as [|k]; cbn [chunks_from]; [|apply IH].
  pose proof (DecodeRune_rune c s) as Hr.
  destruct (DecodeRune (c :: s)) as [r w]. cbn [fst] in Hr.
  constructor; [|apply IH]. cbn [fst].
  destruct Hr as [[-> _]|Hr]; [done|by apply Hhi].
Qed.

(** *** replace_from *)

Lemma prev_after_cons prev c blk :
  prev_after prev (c :: blk) = prev_after (Some (fst c)) blk.
Proof. reflexivity. Qed.

Lemma prev_after_app prev b1 b2 :
  prev_after prev (b1 ++ b2) = prev_after (prev_after prev b1) b2.
Proof. unfold prev_after, last_rune. by rewrite List.map_app, List.fold_left_app. Qed.

Lemma replace_copy (r : regex) (repl : gostring) (blk : list chunk) :
  forall (rest : list chunk) (prev : option N) (adj : bool),
    (forall b1 c b2, blk = b1 ++ c :: b2 ->
        match_here r (prev_after prev b1) (List.map fst (c :: b2 ++ rest)) = None) ->
    replace_from r repl prev (blk ++ rest) 0 adj
    = chunk_bytes blk
      ++ replace_from r repl (prev_after prev blk) rest 0
           (match blk with [] => adj | _ => false end).
Proof.
  induction blk as [|c blk IH]; intros rest prev adj Hnone; [done|].
  cbn [app replace_from].
  rewrite (Hnone [] c blk eq_refl : match_here r prev _ = None).
  rewrite IH.
  - unfold chunk_bytes. cbn [List.map List.concat]. rewrite <- app_assoc.
    rewrite prev_after_cons. by destruct blk.
  - intros b1 c' b2 E.
    change (prev_after (Some (fst c)) b1) with (prev_after prev (c :: b1)).
    apply (Hnone (c :: b1) c' b2). by rewrite E.
Qed.

Lemma replace_skip (r : regex) (repl : gostring) (blk : list chunk) :
  forall (rest : list chunk) (k : nat) (prev : option N) (adj : bool),
    replace_from r repl prev (blk ++ rest) (length blk + k) adj
    = replace_from r repl (prev_after prev blk) rest k
        (match blk with [] => adj | _ => true end).
Proof.
  induction blk as [|c blk IH]; intros rest k prev adj; [done|].
  cbn [app length Nat.add replace_from]. rewrite IH.
  rewrite prev_after_cons. by destruct blk.
Qed.

Lemma replace_match (r : regex) (repl : gostring) (c : chunk)
    (blk rest : list chunk) (prev : option N) (adj : bool) :
  match_here r prev (List.map fst ((c :: blk) ++ rest)) = Some (S (length blk)) ->
  replace_from r repl prev ((c :: blk) ++ rest) 0 adj
  = repl ++ replace_from r repl (prev_after prev (c :: blk)) rest 0 true.
Proof.
  intros Hm. cbn [app replace_from]. cbn [app] in Hm. rewrite Hm.
  f_equal. rewrite <- (Nat.add_0_r (length blk)). rewrite replace_skip.
  rewrite prev_after_cons. by destruct blk.
Qed.

Lemma replace_from_nil (r : regex) (repl : gostring) prev adj :
  match_here r prev [] = None -> replace_from r repl prev [] 0 adj = [].
Proof. intros E. cbn [replace_from List.map]. by rewrite E. Qed.

(** *** star_c and match_here *)

Lemma last_rune_app prev u v :
  last_rune prev (u ++ v) = last_rune (last_rune prev u) v.
Proof. unfold last_rune. by rewrite List.fold_left_app. Qed.

Lemma star_c_run (p : N -> bool) (u t : list N) :
  Forall (fun c => p c = true) u ->
  match t with c :: _ => p c = false | [] => True end ->
  forall prev, exists tl, star_c p prev (u ++ t) = (last_rune prev u, t) :: tl.
Proof.
  intros Hu Ht. induction Hu as [|c u Hc _ IH]; intros prev.
  - cbn [app last_rune List.fold_left]. destruct t as [|c t]; [by eexists|].
    cbn [star_c]. rewrite Ht. by eexists.
  - cbn [app star_c]. rewrite Hc. destruct (IH (Some c)) as [tl ->].
    eexists. reflexivity.
Qed.

Lemma star_c_spec (p : N -> bool) (s : list N) :
  forall prev q s', In (q, s') (star_c p prev s) ->
    exists u, s = u ++ s' /\ Forall (fun c => p c = true) u
              /\ q = last_rune prev u.
Proof.
  induction s as [|c s IH]; intros prev q s' Hin.
  - cbn [star_c] in Hin. destruct Hin as [E|[]]. injection E as <- <-.
    by exists [].
  - cbn [star_c] in Hin. destruct (p c) eqn:Ec.
    + apply List.in_app_iff in Hin. destruct Hin as [Hin|[E|[]]].
      * destruct (IH _ _ _ Hin) as (u & -> & Hu & ->).
        exists (c :: u). repeat split; [by constructor].
      * injection E as <- <-. by exists [].
    + destruct Hin as [E|[]]. injection E as <- <-. by exists [].
Qed.

Lemma match_here_head (r : regex) prev s q s' tl :
  ms r prev s = (q, s') :: tl ->
  match_here r prev s = Some (length s - length s')%nat.
Proof. intros E. unfold match_here. by rewrite E. Qed.

Lemma match_here_none (r : regex) prev s :
  ms r prev s = [] -> match_here r prev s = None.
Proof. intros E. unfold match_here. by rewrite E. Qed.

Lemma flat_map_nil {A X} (f : X -> list A) (l : list X) :
  (forall x, In x l -> f x = []) -> List.flat_map f l = [].
Proof.
  induction l as [|x l IH]; intros E; simpl; [done|].
  rewrite E by (by left). rewrite IH; [done|]. intros y Hy. apply E. by right.
Qed.

Lemma ms_WordB_cat (X : regex) prev s :
  ms (Cat WordB X) prev s
  = if xorb (word_before prev) (word_after s) then ms X prev s else [].
Proof.
  cbn [ms]. destruct (xorb _ _); [|done]. cbn [List.flat_map fst snd].
  by rewrite app_nil_r.
Qed.

Lemma ms_Cls_cat (p : N -> bool) (X : regex) prev s :
  ms (Cat (Cls p) X) prev s
  = match s with
    | c :: s' => if p c then ms X (Some c) s' else []
    | [] => []
    end.
Proof.
  cbn [ms]. destruct s as [|c s']; [done|]. destruct (p c); [|done].
  cbn [List.flat_map fst snd]. by rewrite app_nil_r.
Qed.

Lemma ms_cat_assoc (a b c : regex) prev s :
  ms (Cat (Cat a b) c) prev s = ms (Cat a (Cat b c)) prev s.
Proof.
  cbn [ms]. rewrite flat_map_flat_map. reflexivity.
Qed.

Lemma last_rune_word (c : N) (u : list N) :
  is_word_char c = true -> Forall (fun b => is_word_char b = true) u ->
  word_before (last_rune (Some c) u) = true.
Proof.
  intros Hc Hu. revert c Hc. induction Hu as [|x u Hx _ IH]; intros c Hc; [done|].
  cbn [last_rune List.fold_left]. by apply IH.
Qed.

Lemma is_ident_start_word (c : N) :
  DuplicateCodeRule.is_ident_start c = true -> is_word_char c = true.
Proof.
  unfold DuplicateCodeRule.is_ident_start, is_word_char. intros H.
  apply orb_true_iff in H. destruct H as [->| ->];
    by rewrite ?orb_true_r.
Qed.

Lemma is_digit_word (c : N) : is_digit c = true -> is_word_char c = true.
Proof. unfold is_word_char. by intros ->. Qed.

(** The tail of both word patterns: a run of the class, then a boundary. *)
Lemma run_then_boundary (p : N -> bool) (c : N) (u t : list N) :
  (forall x, p x = true -> is_word_char x = true) ->
  is_word_char c = true ->
  Forall (fun x => p x = true) u ->
  word_after t = false ->
  exists tl,
    ms (Cat (StarC p) (Cat WordB Eps)) (Some c) (u ++ t)
    = (last_rune (Some c) u, t) :: tl.
Proof.
  intros Hp Hc Hu Ht.
  destruct (star_c_run p u t Hu) with (prev := Some c) as [tl Etl].
  { destruct t as [|x t]; [done|]. cbn [word_after] in Ht.
    destruct (p x) eqn:Ex; [|done]. apply Hp in Ex. congruence. }
  cbn [ms]. rewrite Etl. cbn [List.flat_map fst snd].
  rewrite last_rune_word, Ht; [|done|].
  - cbn [xorb List.flat_map fst snd app]. by eexists.
  - eapply Forall_impl; [exact Hu|]. intros x. apply Hp.
Qed.

Lemma variableRegex_at_word (prev : option N) (c : N) (w t : list N) :
  word_before prev = false ->
  Forall (fun b => is_word_char b = true) (c :: w) ->
  word_after t = false ->
  match_here DuplicateCodeRule.variableRegex prev ((c :: w) ++ t)
  = if is_identifier (c :: w) then Some (length (c :: w)) else None.
Proof.
  intros Hprev Hw Ht. inversion Hw as [|? ? Hc Hw']; subst.
  assert (Eid : is_identifier (c :: w) = DuplicateCodeRule.is_ident_start c).
  { cbn [is_identifier]. rewrite (proj2 (forallb_forall _ _)); [by rewrite andb_true_r|].
    intros x Hx. by apply (proj1 (List.Forall_forall _ _) Hw'). }
  rewrite Eid. unfold DuplicateCodeRule.variableRegex, rcat.
  cbn [List.fold_right].
  destruct (DuplicateCodeRule.is_ident_start c) eqn:Ec.
  - destruct (run_then_boundary is_word_char c w t) as [tl Etl]; try done.
    erewrite match_here_head;
      [f_equal; rewrite length_app; apply Nat.add_sub|].
    rewrite ms_WordB_cat. cbn [app word_after]. rewrite Hprev, Hc. cbn [xorb].
    rewrite ms_Cls_cat, Ec. rewrite Etl. reflexivity.
  - apply match_here_none.
    rewrite ms_WordB_cat. cbn [app word_after]. rewrite Hprev, Hc. cbn [xorb].
    by rewrite ms_Cls_cat, Ec.
Qed.

Lemma variableRegex_inside_word (prev : option N) (s : list N) :
  word_before prev = true -> word_after s = true ->
  match_here DuplicateCodeRule.variableRegex prev s = None.
Proof.
  intros Hp Hs. apply match_here_none.
  unfold DuplicateCodeRule.variableRegex, rcat. cbn [List.fold_right].
  by rewrite ms_WordB_cat, Hp, Hs.
Qed.

Lemma variableRegex_at_other (prev : option N) (s : list N) :
  word_after s = false ->
  match_here DuplicateCodeRule.variableRegex prev s = None.
Proof.
  intros Hs. apply match_here_none.
  unfold DuplicateCodeRule.variableRegex, rcat. cbn [List.fold_right].
  rewrite ms_WordB_cat. destruct (xorb _ _); [|done].
  rewrite ms_Cls_cat. destruct s as [|c s]; [done|]. cbn [word_after] in Hs.
  destruct (DuplicateCodeRule.is_ident_start c) eqn:Ec; [|done].
  apply is_ident_start_word in Ec. congruence.
Qed.

Lemma numberRegex_inside_word (prev : option N) (s : list N) :
  word_before prev = true -> word_after s = true ->
  match_here DuplicateCodeRule.numberRegex prev s = None.
Proof.
  intros Hp Hs. apply match_here_none.
  unfold DuplicateCodeRule.numberRegex, rcat. cbn [List.fold_right].
  by rewrite ms_WordB_cat, Hp, Hs.
Qed.

Lemma numberRegex_at_other (prev : option N) (s : list N) :
  word_after s = false ->
  match_here DuplicateCodeRule.numberRegex prev s = None.
Proof.
  intros Hs. apply match_here_none.
  unfold DuplicateCodeRule.numberRegex, rcat, plus_c. cbn [List.fold_right].
  rewrite ms_WordB_cat. destruct (xorb _ _); [|done].
  rewrite ms_cat_assoc, ms_Cls_cat. destruct s as [|c s]; [done|].
  cbn [word_after] in Hs.
  destruct (is_digit c) eqn:Ec; [|done].
  apply is_digit_word in Ec. congruence.
Qed.

(** A run of digits inside a longer word stops before a word byte. *)
Lemma digits_stop_in_word (w t u s' : list N) :
  Forall (fun b => is_word_char b = true) w ->
  forallb is_digit w = false ->
  w ++ t = u ++ s' ->
  Forall (fun c => is_digit c = true) u ->
  word_after s' = true.
Proof.
  intros Hw. revert u. induction Hw as [|x w Hx _ IH]; intros u Hnd E Hu.
  - discriminate Hnd.
  - destruct u as [|y u].
    + cbn [app] in E. subst s'. exact Hx.
    + cbn [app] in E. injection E as <- E. inversion Hu as [|? ? Hy Hu']; subst.
      cbn [forallb] in Hnd. rewrite Hy in Hnd. cbn [andb] in Hnd.
      by apply (IH u).
Qed.

Lemma numberRegex_at_word (prev : option N) (c : N) (w t : list N) :
  word_before prev = false ->
  Forall (fun b => is_word_char b = true) (c :: w) ->
  word_after t = false ->
  match_here DuplicateCodeRule.numberRegex prev ((c :: w) ++ t)
  = if forallb is_digit (c :: w) then Some (length (c :: w)) else None.
Proof.
  intros Hprev Hw Ht. inversion Hw as [|? ? Hc Hw']; subst.
  unfold DuplicateCodeRule.numberRegex, rcat, plus_c. cbn [List.fold_right].
  destruct (forallb is_digit (c :: w)) eqn:Ed.
  - cbn [forallb] in Ed. apply andb_true_iff in Ed. destruct Ed as [Ec Ed].
    destruct (run_then_boundary is_digit c w t) as [tl Etl]; try done.
    { apply is_digit_word. }
    { apply List.Forall_forall. intros x Hx.
      by apply (proj1 (forallb_forall _ _) Ed). }
    erewrite match_here_head;
      [f_equal; rewrite length_app; apply Nat.add_sub|].
    rewrite ms_WordB_cat. cbn [app word_after]. rewrite Hprev, Hc. cbn [xorb].
    rewrite ms_cat_assoc, ms_Cls_cat, Ec. rewrite Etl. reflexivity.
  - apply match_here_none.
    rewrite ms_WordB_cat. cbn [app word_after]. rewrite Hprev, Hc. cbn [xorb].
    rewrite ms_cat_assoc, ms_Cls_cat. destruct (is_digit c) eqn:Ec; [|done].
    cbn [forallb] in Ed. rewrite Ec in Ed. cbn [andb] in Ed.
    cbn [ms]. apply flat_map_nil. intros [q s'] Hin.
    apply star_c_spec in Hin. destruct Hin as (u & E & Hu & ->).
    cbn [fst snd List.flat_map].
    assert (Hs' : word_after s' = true)
      by (by apply (digits_stop_in_word w t u s')).
    assert (Hq : word_before (last_rune (Some c) u) = true).
    { apply last_rune_word; [done|].
      eapply Forall_impl; [exact Hu|]. intros x. apply is_digit_word. }
    by rewrite Hq, Hs'.
Qed.

(** The string pattern. *)
Lemma stringRegex_at_other (prev : option N) (s : list N) :
  match s with c :: _ => c <> dquote | [] => True end ->
  match_here DuplicateCodeRule.stringRegex prev s = None.
Proof.
  intros Hs. apply match_here_none.
  unfold DuplicateCodeRule.stringRegex, rcat. cbn [List.fold_right].
  rewrite ms_Cls_cat. destruct s as [|c s]; [done|].
  unfold is_c. by rewrite (proj2 (N.eqb_neq c dquote)).
Qed.

Lemma stringRegex_closed (prev : option N) (u t : list N) :
  Forall (fun c => c <> dquote) u ->
  match_here DuplicateCodeRule.stringRegex prev (dquote :: u ++ dquote :: t)
  = Some (S (S (length u))).
Proof.
  intros Hu.
  unfold DuplicateCodeRule.stringRegex, rcat. cbn [List.fold_right].
  destruct (star_c_run (not_c dquote) u (dquote :: t)) with (prev := Some dquote)
    as [tl Etl].
  { eapply Forall_impl; [exact Hu|]. intros x Hx. unfold not_c.
    by rewrite (proj2 (N.eqb_neq x dquote)). }
  { unfold not_c. by rewrite N.eqb_refl. }
  erewrite match_here_head.
  2:{ rewrite ms_Cls_cat. unfold is_c at 1. rewrite N.eqb_refl.
      cbn [ms]. rewrite Etl. cbn [List.flat_map fst snd].
      unfold is_c. rewrite N.eqb_refl. cbn [List.flat_map fst snd app].
      reflexivity. }
  f_equal. cbn [length]. rewrite length_app. cbn [length]. lia.
Qed.

Lemma stringRegex_open (prev : option N) (u : list N) :
  Forall (fun c => c <> dquote) u ->
  match_here DuplicateCodeRule.stringRegex prev (dquote :: u) = None.
Proof.
  intros Hu. apply match_here_none.
  unfold DuplicateCodeRule.stringRegex, rcat. cbn [List.fold_right].
  rewrite ms_Cls_cat. unfold is_c at 1. rewrite N.eqb_refl.
  cbn [ms]. apply flat_map_nil. intros [q s'] Hin.
  apply star_c_spec in Hin. destruct Hin as (v & E & _ & _).
  cbn [fst snd List.flat_map]. destruct s' as [|c s']; [done|].
  assert (Hc : c <> dquote).
  { apply (proj1 (List.Forall_forall _ _) Hu). rewrite E.
    apply List.in_app_iff. right. by left. }
  unfold is_c. by rewrite (proj2 (N.eqb_neq c dquote)).
Qed.

(** *** Tokens and their runes *)

Lemma tokens_ok_tail p ps : tokens_ok (p :: ps) -> tokens_ok ps.
Proof. by intros (_ & _ & H). Qed.

Lemma render_cons p ps : render (p :: ps) = piece_bytes p ++ render ps.
Proof. reflexivity. Qed.

Lemma word_runes (w : gostring) :
  List.map fst (List.map (fun b : N => (b, [b])) w) = w.
Proof. induction w; simpl; congruence. Qed.

Lemma word_chunk_bytes (w : gostring) :
  chunk_bytes (List.map (fun b : N => (b, [b])) w) = w.
Proof. induction w as [|b w IH]; [done|]. unfold chunk_bytes in *. simpl. by rewrite IH. Qed.

Lemma piece_chunk_bytes (p : piece) : chunk_bytes (piece_chunks p) = piece_bytes p.
Proof.
  destruct p as [w| |g]; cbn [piece_chunks piece_bytes].
  - apply word_chunk_bytes.
  - reflexivity.
  - apply chunk_bytes_chunks.
Qed.

Lemma other_runes (g : gostring) :
  Forall (fun b => is_word_char b = false /\ b <> dquote) g ->
  Forall (fun c => is_word_char (fst c) = false /\ fst c <> dquote) (chunks g).
Proof.
  intros Hg. apply (chunks_from_runes (fun r => is_word_char r = false /\ r <> dquote));
    [done|].
  intros r Hr. split.
  - destruct (is_word_char r) eqn:E; [|done].
    apply is_word_char_ascii in E. lia.
  - unfold dquote. lia.
Qed.

Lemma chunks_nonempty (g : gostring) : g <> [] -> chunks g <> [].
Proof.
  destruct g as [|c g]; [done|]. intros _. unfold chunks. cbn [chunks_from].
  by destruct (DecodeRune (c :: g)).
Qed.

Lemma piece_chunks_nonempty (p : piece) : piece_ok p -> piece_chunks p <> [].
Proof.
  destruct p as [w| |g]; cbn [piece_ok piece_chunks].
  - intros [Hw _]. by destruct w.
  - done.
  - intros [Hg _]. by apply chunks_nonempty.
Qed.

Lemma render_ascii_start (ps : list piece) :
  tokens_ok ps ->
  match ps with Other _ :: _ => True | _ => ascii_start (render ps) end.
Proof.
  destruct ps as [|[w| |g] rest]; [by left|..|done].
  - intros ([Hw Hall] & _). right. destruct w as [|c w]; [done|].
    inversion Hall; subst. exists c, (w ++ render rest).
    split; [done|]. by apply is_word_char_ascii.
  - intros _. right. exists dquote, (render rest). split; [done|]. unfold dquote. lia.
Qed.

Lemma chunks_render (ps : list piece) :
  tokens_ok ps -> chunks (render ps) = List.flat_map piece_chunks ps.
Proof.
  induction ps as [|p rest IH]; [done|]. intros Hok.
  destruct Hok as (Hp & Hclash & Hrest). specialize (IH Hrest).
  rewrite render_cons. cbn [List.flat_map]. rewrite <- IH.
  destruct p as [w| |g]; cbn [piece_bytes piece_chunks].
  - destruct Hp as [_ Hw]. by apply chunks_word_app.
  - apply (chunks_ascii_cons dquote). unfold dquote. lia.
  - apply chunks_app. pose proof (render_ascii_start rest Hrest) as Hs.
    destruct rest as [|[w'| |g'] rest']; try done.
Qed.

(** The first rune after a piece that is not a word. *)
Lemma word_after_tokens (ps : list piece) (rest : list chunk) :
  tokens_ok ps ->
  match ps with Word _ :: _ => False | [] => rest = [] | _ => True end ->
  word_after (List.map fst (List.flat_map piece_chunks ps ++ rest)) = false.
Proof.
  destruct ps as [|[w| |g] ps']; intros Hok Hs; [by subst|done|done|].
  destruct Hok as ([Hg Hall] & _). cbn [List.flat_map piece_chunks].
  pose proof (other_runes g Hall) as Hr. pose proof (chunks_nonempty g Hg) as Hne.
  destruct (chunks g) as [|c cs]; [done|]. inversion Hr as [|? ? [Hc _] _]; subst.
  exact Hc.
Qed.

(** *** The word patterns on tokens *)

Section WordRuns.
Variable r : regex.
Variable repl : gostring.
Variable cond : gostring -> bool.

Hypothesis at_word : forall prev c w t,
  word_before prev = false ->
  Forall (fun b => is_word_char b = true) (c :: w) ->
  word_after t = false ->
  match_here r prev ((c :: w) ++ t)
  = if cond (c :: w) then Some (length (c :: w)) else None.
Hypothesis inside_word : forall prev s,
  word_before prev = true -> word_after s = true -> match_here r prev s = None.
Hypothesis at_other : forall prev s,
  word_after s = false -> match_here r prev s = None.

Lemma copy_nonword (blk rest : list chunk) prev adj :
  Forall (fun c => is_word_char (fst c) = false) blk ->
  replace_from r repl prev (blk ++ rest) 0 adj
  = chunk_bytes blk
    ++ replace_from r repl (prev_after prev blk) rest 0
         (match blk with [] => adj | _ => false end).
Proof.
  intros Hblk. apply replace_copy. intros b1 c b2 E. apply at_other.
  cbn [List.map word_after]. subst blk.
  apply List.Forall_app in Hblk. destruct Hblk as [_ H2].
  by inversion H2.
Qed.

Lemma prev_after_kind (v : bool) (blk : list chunk) prev :
  blk <> [] -> Forall (fun c => is_word_char (fst c) = v) blk ->
  word_before (prev_after prev blk) = v.
Proof.
  intros Hne Hblk. revert prev. induction Hblk as [|c blk Hc Hblk IH]; [done|].
  intros prev. rewrite prev_after_cons. destruct blk as [|c' blk']; [exact Hc|].
  by apply IH.
Qed.

Lemma prev_after_word (c : N) (w : gostring) prev :
  Forall (fun b => is_word_char b = true) (c :: w) ->
  word_before (prev_after prev (List.map (fun b : N => (b, [b])) (c :: w))) = true.
Proof.
  intros Hw. inversion Hw; subst. unfold prev_after. rewrite word_runes.
  cbn [last_rune List.fold_left]. by apply last_rune_word.
Qed.

Lemma replace_tokens (ps : list piece) :
  tokens_ok ps ->
  forall prev adj,
    match ps with Word _ :: _ => word_before prev = false | _ => True end ->
    replace_from r repl prev (List.flat_map piece_chunks ps) 0 adj
    = render (List.map (word_out repl cond) ps).
Proof.
  induction ps as [|p rest IH]; intros Hok prev adj Hprev.
  - apply replace_from_nil. by apply at_other.
  - destruct Hok as (Hp & Hclash & Hrest). specialize (IH Hrest).
    cbn [List.flat_map List.map]. rewrite render_cons.
    destruct p as [w| |g]; cbn [piece_chunks word_out piece_bytes].
    + destruct Hp as [Hne Hw]. destruct w as [|c w]; [done|].
      assert (Ht : word_after (List.map fst (List.flat_map piece_chunks rest)) = false).
      { rewrite <- (app_nil_r (List.flat_map _ _)).
        apply word_after_tokens; [done|]. by destruct rest as [|[?| |?] ?]. }
      assert (Hm := at_word prev c w _ Hprev Hw Ht).
      destruct (cond (c :: w)) eqn:Ec; cbn [piece_bytes].
      * cbn [List.map]. rewrite replace_match.
        2:{ rewrite List.map_app. cbn [List.map fst].
            rewrite word_runes. rewrite length_map. exact Hm. }
        f_equal. apply IH. by destruct rest as [|[?| |?] ?].
      * rewrite replace_copy.
        -- rewrite word_chunk_bytes. f_equal. apply IH.
           by destruct rest as [|[?| |?] ?].
        -- intros b1 x b2 E. destruct b1 as [|y b1].
           ++ cbn [app] in E. cbn [List.map] in E. injection E as <- <-.
              cbn [List.map fst]. rewrite List.map_app, word_runes.
              exact Hm.
           ++ apply inside_word.
              ** apply (prev_after_kind true); [done|].
                 assert (Hall : Forall (fun ch => is_word_char (fst ch) = true)
                                  (List.map (fun b : N => (b, [b])) (c :: w))).
                 { apply List.Forall_map. exact Hw. }
                 rewrite E in Hall. by apply List.Forall_app in Hall as [? _].
              ** cbn [List.map word_after].
                 assert (Hall : Forall (fun ch => is_word_char (fst ch) = true)
                                  (List.map (fun b : N => (b, [b])) (c :: w))).
                 { apply List.Forall_map. exact Hw. }
                 rewrite E in Hall. apply List.Forall_app in Hall as [_ Hx].
                 by inversion Hx.
    + change ((dquote, [dquote]) :: List.flat_map piece_chunks rest)
        with ([(dquote, [dquote])] ++ List.flat_map piece_chunks rest).
      rewrite copy_nonword by (by repeat constructor).
      cbn [chunk_bytes List.map List.concat snd app]. f_equal. apply IH.
      by destruct rest as [|[?| |?] ?].
    + destruct Hp as [Hg Hall]. pose proof (other_runes g Hall) as Hr.
      assert (Hr' : Forall (fun c => is_word_char (fst c) = false) (chunks g)).
      { eapply Forall_impl; [exact Hr|]. by intros ? [? _]. }
      rewrite copy_nonword by done. rewrite chunk_bytes_chunks. f_equal.
      apply IH. destruct rest as [|[?| |?] ?]; try done.
      apply (prev_after_kind false); [by apply chunks_nonempty|done].
Qed.
End WordRuns.

(** *** The string pattern on tokens *)

Lemma word_not_quote (b : N) : is_word_char b = true -> b <> dquote.
Proof. intros H ->. discriminate H. Qed.

Lemma piece_runes_no_quote (p : piece) :
  piece_ok p -> is_quote p = false ->
  Forall (fun c => fst c <> dquote) (piece_chunks p).
Proof.
  destruct p as [w| |g]; cbn [piece_ok piece_chunks is_quote]; [|done|].
  - intros [_ Hw] _. apply List.Forall_map.
    eapply Forall_impl; [exact Hw|]. intros b. apply word_not_quote.
  - intros [_ Hg] _. eapply Forall_impl; [exact (other_runes g Hg)|].
    by intros c [_ ?].
Qed.

Lemma runes_no_quote (ps : list piece) :
  tokens_ok ps -> existsb is_quote ps = false ->
  Forall (fun r => r <> dquote) (List.map fst (List.flat_map piece_chunks ps)).
Proof.
  induction ps as [|p rest IH]; [constructor|].
  intros (Hp & _ & Hrest) Hq. cbn [existsb] in Hq.
  apply orb_false_iff in Hq. destruct Hq as [Hq1 Hq2].
  cbn [List.flat_map]. rewrite List.map_app. apply List.Forall_app. split.
  - apply List.Forall_map. by apply piece_runes_no_quote.
  - by apply IH.
Qed.

Lemma runes_to_quote (ps : list piece) :
  tokens_ok ps -> existsb is_quote ps = true ->
  exists u t,
    List.map fst (List.flat_map piece_chunks ps) = u ++ dquote :: t
    /\ Forall (fun r => r <> dquote) u
    /\ S (length u) = chunks_to_quote ps.
Proof.
  induction ps as [|p rest IH]; [done|].
  intros (Hp & _ & Hrest) Hq. destruct (is_quote p) eqn:Ep.
  - destruct p; try done. exists [], (List.map fst (List.flat_map piece_chunks rest)).
    repeat split. constructor.
  - cbn [existsb] in Hq. rewrite Ep in Hq. cbn [orb] in Hq.
    destruct (IH Hrest Hq) as (u & t & E & Hu & Hlen).
    exists (List.map fst (piece_chunks p) ++ u), t. repeat split.
    + change (List.flat_map piece_chunks (p :: rest))
        with (piece_chunks p ++ List.flat_map piece_chunks rest).
      rewrite List.map_app, E. by rewrite <- app_assoc.
    + apply List.Forall_app. split; [|done]. apply List.Forall_map.
      by apply piece_runes_no_quote.
    + rewrite length_app, length_map.
      destruct p; try done; cbn [chunks_to_quote]; lia.
Qed.

Lemma strings_tokens (ps : list piece) :
  tokens_ok ps ->
  (forall prev adj,
      replace_from DuplicateCodeRule.stringRegex DuplicateCodeRule.STRING prev
                   (List.flat_map piece_chunks ps) 0 adj
      = render (strings_out false ps))
  /\ (existsb is_quote ps = true ->
      forall prev adj,
        dquote :: replace_from DuplicateCodeRule.stringRegex
                    DuplicateCodeRule.STRING prev
                    (List.flat_map piece_chunks ps) (chunks_to_quote ps) adj
        = render (strings_out true ps)).
Proof.
  induction ps as [|p rest IH]; intros Hok.
  - split; [|done]. intros prev adj. apply replace_from_nil.
    by apply stringRegex_at_other.
  - destruct Hok as (Hp & Hclash & Hrest). destruct (IH Hrest) as [IHa IHb].
    destruct (is_quote p) eqn:Ep.
    + destruct p; try done. clear Ep. split.
      * intros prev adj. cbn [List.flat_map piece_chunks app strings_out].
        destruct (existsb is_quote rest) eqn:Eq.
        -- destruct (runes_to_quote rest Hrest Eq) as (u & t & E & Hu & Hlen).
           cbn [replace_from List.map fst]. rewrite E.
           rewrite stringRegex_closed by done. rewrite Hlen.
           rewrite !render_cons. cbn [piece_bytes].
           rewrite <- (IHb eq_refl (Some dquote) true).
           unfold DuplicateCodeRule.STRING. cbn [fst].
           cbn [app]. f_equal. all: by rewrite <- ?app_assoc.
        -- cbn [replace_from List.map fst].
           rewrite stringRegex_open by by apply runes_no_quote.
           cbn [snd fst]. rewrite IHa. reflexivity.
      * intros _ prev adj.
        cbn [List.flat_map piece_chunks app chunks_to_quote replace_from strings_out fst].
        rewrite IHa. reflexivity.
    + assert (Hnq := piece_runes_no_quote p Hp Ep). split.
      * intros prev adj. cbn [List.flat_map].
        rewrite replace_copy.
        -- rewrite piece_chunk_bytes, IHa.
           destruct p; try done; reflexivity.
        -- intros b1 c b2 E. apply stringRegex_at_other. cbn [List.map].
           rewrite E in Hnq. apply List.Forall_app in Hnq as [_ Hc].
           by inversion Hc.
      * intros Hq prev adj. cbn [existsb] in Hq. rewrite Ep in Hq. cbn [orb] in Hq.
        cbn [List.flat_map].
        assert (Ek : chunks_to_quote (p :: rest)
                     = (length (piece_chunks p) + chunks_to_quote rest)%nat)
          by (destruct p; try done).
        rewrite Ek, replace_skip, (IHb Hq).
        destruct p; try done; reflexivity.
Qed.

Lemma strings_out_head (ps : list piece) :
  match ps, strings_out false ps with
  | [], [] => True
  | p :: _, q :: _ => forall x, clash x q = clash x p
  | _, _ => False
  end.
Proof.
  destruct ps as [|[w| |g] rest]; cbn [strings_out]; try done.
  by destruct (existsb is_quote rest).
Qed.

Lemma strings_out_ok (ps : list piece) :
  tokens_ok ps ->
  tokens_ok (strings_out false ps)
  /\ tokens_ok (strings_out true ps)
  /\ match strings_out true ps with
     | [] => True
     | q :: _ => q = Quote
     end.
Proof.
  induction ps as [|p rest IH]; [done|].
  intros (Hp & Hclash & Hrest). destruct (IH Hrest) as (IHf & IHt & IHh).
  pose proof (strings_out_head rest) as Hh.
  assert (Hc : match strings_out false rest with
               | [] => True
               | q :: _ => clash p q = false
               end).
  { destruct rest as [|p' rest'], (strings_out false _) as [|q ?]; try done.
    by rewrite Hh. }
  destruct p as [w| |g]; cbn [strings_out].
  - split; [exact (conj Hp (conj Hc IHf))|by split].
  - split; [|split; [exact (conj I (conj Hc IHf))|done]].
    destruct (existsb is_quote rest).
    + split; [exact I|]. split; [reflexivity|].
      split; [split; [discriminate|vm_compute; repeat constructor]|].
      split; [|exact IHt].
      destruct (strings_out true rest) as [|q ?]; [done|]. by subst q.
    + exact (conj I (conj Hc IHf)).
  - split; [exact (conj Hp (conj Hc IHf))|by split].
Qed.

(** *** The normalized line in closed form *)

Lemma word_out_ok (repl : gostring) (cond : gostring -> bool) (ps : list piece) :
  piece_ok (Word repl) -> tokens_ok ps ->
  tokens_ok (List.map (word_out repl cond) ps).
Proof.
  intros Hrepl. induction ps as [|p rest IH]; [done|].
  intros (Hp & Hclash & Hrest). cbn [List.map tokens_ok]. split; [|split].
  - destruct p as [w| |g]; cbn [word_out]; try done. by destruct (cond w).
  - destruct rest as [|q rest']; [done|]. cbn [List.map].
    destruct p as [w| |g], q as [w'| |g']; cbn [word_out] in *; try done;
      repeat match goal with |- context [cond ?x] => destruct (cond x) end; done.
  - by apply IH.
Qed.

Lemma identifier_word_ok (w : gostring) :
  is_identifier w = true -> piece_ok (Word w).
Proof.
  destruct w as [|c w]; [done|]. cbn [is_identifier piece_ok].
  intros H. apply andb_true_iff in H. destruct H as [Hc Hw]. split; [done|].
  constructor; [by apply is_ident_start_word|].
  apply List.Forall_forall. intros x Hx. by apply (proj1 (forallb_forall _ _) Hw).
Qed.

Lemma identifier_not_number (w : gostring) :
  is_identifier w = true -> forallb is_digit w = false.
Proof.
  destruct w as [|c w]; [done|]. cbn [is_identifier forallb].
  intros H. apply andb_true_iff in H. destruct H as [Hc _].
  assert (is_digit c = false) as ->; [|done].
  unfold DuplicateCodeRule.is_ident_start, is_letter, is_upper, is_lower, in_range in Hc.
  unfold is_digit, in_range.
  destruct (48 <=? c) eqn:E1, (c <=? 57) eqn:E2; try done.
  apply orb_true_iff in Hc. destruct Hc as [Hc|Hc].
  - apply orb_true_iff in Hc. destruct Hc as [Hc|Hc]; bool_to_prop; lia.
  - bool_to_prop; lia.
Qed.

Lemma normalizeCodeLine_tokens (ps : list piece) :
  tokens_ok ps ->
  DuplicateCodeRule.normalizeCodeLine (render ps)
  = render (List.map variables_out
              (List.map numbers_out (strings_out false ps))).
Proof.
  intros Hok. unfold DuplicateCodeRule.normalizeCodeLine, ReplaceAllString.
  destruct (strings_out_ok ps Hok) as (Hqs & _).
  rewrite chunks_render by done.
  rewrite (proj1 (strings_tokens ps Hok)).
  rewrite chunks_render by done.
  rewrite (replace_tokens DuplicateCodeRule.numberRegex DuplicateCodeRule.NUM
             (forallb is_digit)
             numberRegex_at_word numberRegex_inside_word numberRegex_at_other)
    by (try done; by destruct (strings_out false ps) as [|[?| |?] ?]).
  assert (Hn : tokens_ok (List.map (word_out DuplicateCodeRule.NUM (forallb is_digit))
                                   (strings_out false ps))).
  { apply word_out_ok; [|done]. split; [done|]. vm_compute. repeat constructor. }
  rewrite chunks_render by done.
  rewrite (replace_tokens DuplicateCodeRule.variableRegex DuplicateCodeRule.VAR
             is_identifier
             variableRegex_at_word variableRegex_inside_word variableRegex_at_other)
    by (try done;
        by destruct (List.map _ (strings_out false ps)) as [|[?| |?] ?]).
  reflexivity.
Qed.

Lemma rename_quotes (sigma : gostring -> gostring) (ps : list piece) :
  existsb is_quote (rename sigma ps) = existsb is_quote ps.
Proof.
  induction ps as [|p rest IH]; [done|]. cbn [rename List.map existsb].
  fold (rename sigma rest). rewrite IH. f_equal.
  destruct p as [w| |g]; try done. by destruct (is_identifier w).
Qed.

Lemma rename_normal_form (sigma : gostring -> gostring) (ps : list piece) :
  keeps_identifiers sigma ->
  forall inlit,
    List.map variables_out (List.map numbers_out (strings_out inlit (rename sigma ps)))
    = List.map variables_out (List.map numbers_out (strings_out inlit ps)).
Proof.
  intros Hs. induction ps as [|p rest IH]; intros inlit; [done|].
  cbn [rename List.map]. fold (rename sigma rest).
  destruct p as [w| |g].
  - destruct (is_identifier w) eqn:Ew; cbn [strings_out];
      destruct inlit; cbn [List.map]; rewrite IH; try done.
    f_equal. cbn [numbers_out].
    rewrite (identifier_not_number w Ew),
            (identifier_not_number (sigma w) (Hs w Ew)).
    cbn [variables_out]. by rewrite Ew, (Hs w Ew).
  - cbn [strings_out]. rewrite rename_quotes.
    destruct inlit; [cbn [List.map]; by rewrite IH|].
    destruct (existsb is_quote rest); cbn [List.map]; by rewrite IH.
  - cbn [strings_out]. destruct inlit; cbn [List.map]; by rewrite IH.
Qed.

Lemma rename_ok (sigma : gostring -> gostring) (ps : list piece) :
  keeps_identifiers sigma -> tokens_ok ps -> tokens_ok (rename sigma ps).
Proof.
  intros Hs. induction ps as [|p rest IH]; [done|].
  intros (Hp & Hclash & Hrest). cbn [rename List.map tokens_ok].
  fold (rename sigma rest). split; [|split].
  - destruct p as [w| |g]; try done.
    destruct (is_identifier w) eqn:Ew; [|done].
    apply identifier_word_ok, Hs, Ew.
  - destruct rest as [|q rest']; [done|]. cbn [rename List.map].
    destruct p as [w| |g], q as [w'| |g']; try done;
      repeat match goal with
             | |- context [is_identifier ?x] => destruct (is_identifier x)
             end; done.
  - by apply IH.
Qed.

(** Renaming the identifiers of a line leaves its normal form alone. *)
Lemma normalizeCodeLine_rename (sigma : gostring -> gostring) (ps : list piece) :
  keeps_identifiers sigma -> tokens_ok ps ->
  DuplicateCodeRule.normalizeCodeLine (render (rename sigma ps))
  = DuplicateCodeRule.normalizeCodeLine (render ps).
Proof.
  intros Hs Hok.
  rewrite !normalizeCodeLine_tokens by (try done; by apply rename_ok).
  by rewrite rename_normal_form.
Qed.

(** *** The two halves of [TrimSpace] *)

Lemma solid_ascii_start (x : gostring) : solid_start x -> ascii_start x.
Proof. destruct x as [|c x]; [by left|]. intros [Hc _]. right. by exists c, x. Qed.

Lemma trim_left_solid (x : gostring) : solid_start x -> trim_left_from x 0 = x.
Proof.
  destruct x as [|c x]; [done|]. intros [Hc Hs].
  cbn [trim_left_from]. unfold DecodeRune. apply N.ltb_lt in Hc. by rewrite Hc, Hs.
Qed.

Lemma trim_left_app (g x : gostring) :
  solid_start x ->
  forall skip, (skip <= length g)%nat ->
    trim_left_from (g ++ x) skip = trim_left_from g skip ++ x.
Proof.
  intros Hx. induction g as [|c g IH]; intros skip Hs.
  - cbn [length] in Hs. assert (skip = 0%nat) as -> by lia.
    cbn [app]. by rewrite trim_left_solid.
  - destruct skip as [|k].
    + cbn [app trim_left_from].
      change (c :: g ++ x) with ((c :: g) ++ x).
      rewrite (DecodeRune_app (c :: g) x) by (try done; by apply solid_ascii_start).
      pose proof (DecodeRune_width (c :: g)) as Hw.
      destruct (DecodeRune (c :: g)) as [r w]. cbn [snd] in Hw.
      specialize (Hw ltac:(done)). cbn [length] in Hw.
      destruct (IsSpace r); [|done]. apply IH. lia.
    + cbn [app trim_left_from]. apply IH. cbn [length] in Hs. lia.
Qed.

Lemma trim_left_suffix (g : gostring) :
  forall skip, exists k, trim_left_from g skip = skipn k g.
Proof.
  induction g as [|c g IH]; intros skip.
  - exists 0%nat. by destruct skip.
  - destruct skip as [|k].
    + cbn [trim_left_from]. destruct (DecodeRune (c :: g)) as [r w].
      destruct (IsSpace r); [|by exists 0%nat].
      destruct (IH (Nat.pred w)) as [k ->]. by exists (S k).
    + cbn [trim_left_from]. destruct (IH k) as [k' ->]. by exists (S k').
Qed.

Lemma DecodeLastRune_rev_eq (b : N) (t : gostring) :
  DecodeLastRune_rev (b :: t)
  = if b <? RuneSelf then (b, 1%nat)
    else let '(r, size) := DecodeRune (rev (firstn (back_len t) (b :: t))) in
         if Nat.eqb size (back_len t) then (r, size) else (RuneError, 1%nat).
Proof. reflexivity. Qed.

Lemma back_len_bound (t : gostring) : (1 <= back_len t <= S (length t))%nat.
Proof.
  destruct t as [|b1 [|b2 [|b3 t]]]; cbn [back_len length];
    repeat match goal with |- context [if ?c then _ else _] => destruct c end;
    lia.
Qed.

Lemma DecodeLastRune_rev_width (rs : gostring) :
  rs <> [] -> (1 <= snd (DecodeLastRune_rev rs) <= length rs)%nat.
Proof.
  destruct rs as [|b t]; [done|]. intros _. rewrite DecodeLastRune_rev_eq.
  pose proof (back_len_bound t) as Hb. cbn [length].
  destruct (b <? RuneSelf); [cbn [snd]; lia|].
  destruct (DecodeRune _) as [r size].
  destruct (Nat.eqb_spec size (back_len t)) as [->|_]; cbn [snd]; lia.
Qed.

Lemma DecodeLastRune_rev_app (rg ry : gostring) :
  rg <> [] -> ascii_start ry ->
  DecodeLastRune_rev (rg ++ ry) = DecodeLastRune_rev rg.
Proof.
  intros Hrg Hry.
  destruct rg as [|b0 [|b1 [|b2 [|b3 t]]]]; [done|..]; clear Hrg;
    destruct Hry as [->|(c & ry' & -> & Hc)]; rewrite ?app_nil_r; try reflexivity;
    cbn [app]; rewrite !DecodeLastRune_rev_eq; unfold RuneSelf;
    destruct (b0 <? 128) eqn:Eb0; try reflexivity;
    cbn [back_len]; unfold is_cont;
    repeat (match goal with
            | |- context [negb ?c] => destruct c eqn:?; cbn [negb]
            end);
    cbn [firstn rev app]; rewrite ?firstn_O; cbn [firstn rev app]; try reflexivity;
    unfold DecodeRune, is_cont;
    repeat (match goal with
            | |- context [if ?c then _ else _] => destruct c eqn:?
            end); try reflexivity; bool_to_prop; try lia; try discriminate.
Qed.

Lemma DecodeLastRune_rev_ascii (c : N) (t : gostring) :
  c < 128 -> DecodeLastRune_rev (c :: t) = (c, 1%nat).
Proof.
  intros Hc. rewrite DecodeLastRune_rev_eq. unfold RuneSelf.
  apply N.ltb_lt in Hc. by rewrite Hc.
Qed.

Lemma trim_right_solid (x : gostring) : solid_start x -> trim_right_rev x 0 = x.
Proof.
  destruct x as [|c x]; [done|]. intros [Hc Hs].
  cbn [trim_right_rev]. by rewrite DecodeLastRune_rev_ascii, Hs.
Qed.

Lemma trim_right_app (g x : gostring) :
  solid_start x ->
  forall skip, (skip <= length g)%nat ->
    trim_right_rev (g ++ x) skip = trim_right_rev g skip ++ x.
Proof.
  intros Hx. induction g as [|c g IH]; intros skip Hs.
  - cbn [length] in Hs. assert (skip = 0%nat) as -> by lia.
    cbn [app]. by rewrite trim_right_solid.
  - destruct skip as [|k].
    + cbn [app trim_right_rev].
      change (c :: g ++ x) with ((c :: g) ++ x).
      rewrite (DecodeLastRune_rev_app (c :: g) x)
        by (try done; by apply solid_ascii_start).
      pose proof (DecodeLastRune_rev_width (c :: g)) as Hw.
      destruct (DecodeLastRune_rev (c :: g)) as [r w]. cbn [snd] in Hw.
      specialize (Hw ltac:(done)). cbn [length] in Hw.
      destruct (IsSpace r); [|done]. apply IH. lia.
    + cbn [app trim_right_rev]. apply IH. cbn [length] in Hs. lia.
Qed.

Lemma trim_right_suffix (g : gostring) :
  forall skip, exists k, trim_right_rev g skip = skipn k g.
Proof.
  induction g as [|c g IH]; intros skip.
  - exists 0%nat. by destruct skip.
  - destruct skip as [|k].
    + cbn [trim_right_rev]. destruct (DecodeLastRune_rev (c :: g)) as [r w].
      destruct (IsSpace r); [|by exists 0%nat].
      destruct (IH (Nat.pred w)) as [k ->]. by exists (S k).
    + cbn [trim_right_rev]. destruct (IH k) as [k' ->]. by exists (S k').
Qed.

Lemma TrimLeft_Forall (P : N -> Prop) (g : gostring) :
  Forall P g -> Forall P (TrimLeft g).
Proof.
  intros Hg. unfold TrimLeft. destruct (trim_left_suffix g 0) as [k ->].
  by apply Forall_drop.
Qed.

Lemma TrimRight_Forall (P : N -> Prop) (g : gostring) :
  Forall P g -> Forall P (TrimRight g).
Proof.
  intros Hg. unfold TrimRight. destruct (trim_right_suffix (rev g) 0) as [k ->].
  apply Forall_rev, Forall_drop, Forall_rev, Hg.
Qed.

(** The text before a trailing run: [TrimRight] works on the run alone
    when what precedes it ends in a solid byte. *)
Lemma TrimRight_app (y g : gostring) :
  solid_start (rev y) -> TrimRight (y ++ g) = y ++ TrimRight g.
Proof.
  intros Hy. unfold TrimRight. rewrite rev_app_distr.
  rewrite trim_right_app by (try done; lia).
  by rewrite rev_app_distr, rev_involutive.
Qed.

Lemma TrimLeft_app (g x : gostring) :
  solid_start x -> TrimLeft (g ++ x) = TrimLeft g ++ x.
Proof. intros Hx. unfold TrimLeft. apply trim_left_app; [done|lia]. Qed.

(** *** Solid bytes *)

Lemma word_solid (c : N) : is_word_char c = true -> c < 128 /\ IsSpace c = false.
Proof.
  intros H. pose proof (is_word_char_ascii c H) as Hc. split; [done|].
  assert (Hr : 48 <= c).
  { unfold is_word_char, is_digit, is_letter, is_upper, is_lower, in_range in H.
    repeat (apply orb_true_iff in H; destruct H as [H|H]);
      bool_to_prop; lia. }
  unfold IsSpace, in_range.
  assert (E1 : (c <=? 13) = false) by (apply N.leb_gt; lia).
  assert (E2 : (c =? 32) = false) by (apply N.eqb_neq; lia).
  assert (E3 : (c =? 133) = false) by (apply N.eqb_neq; lia).
  assert (E4 : (c =? 160) = false) by (apply N.eqb_neq; lia).
  assert (E5 : (c =? 5760) = false) by (apply N.eqb_neq; lia).
  assert (E6 : (8192 <=? c) = false) by (apply N.leb_gt; lia).
  assert (E7 : (c =? 8232) = false) by (apply N.eqb_neq; lia).
  assert (E8 : (c =? 8233) = false) by (apply N.eqb_neq; lia).
  assert (E9 : (c =? 8239) = false) by (apply N.eqb_neq; lia).
  assert (E10 : (c =? 8287) = false) by (apply N.eqb_neq; lia).
  assert (E11 : (c =? 12288) = false) by (apply N.eqb_neq; lia).
  rewrite E1, E2, E3, E4, E5, E6, E7, E8, E9, E10, E11.
  by rewrite andb_false_r.
Qed.

Lemma solid_start_app (x y : gostring) :
  x <> [] -> solid_start x -> solid_start (x ++ y).
Proof. by destruct x. Qed.

Lemma word_solid_start (w : gostring) :
  Forall (fun b => is_word_char b = true) w -> solid_start w.
Proof. destruct 1 as [|c w Hc _]; [done|]. by apply word_solid. Qed.

Lemma piece_solid (p : piece) :
  piece_ok p -> (forall g, p <> Other g) ->
  piece_bytes p <> []
  /\ solid_start (piece_bytes p) /\ solid_start (rev (piece_bytes p)).
Proof.
  destruct p as [w| |g]; cbn [piece_ok piece_bytes].
  - intros [Hw Hall] _. split; [done|split].
    + by apply word_solid_start.
    + apply word_solid_start, Forall_rev, Hall.
  - intros _ _. split; [done|]. split; by vm_compute.
  - intros _ H. by destruct (H g).
Qed.

Lemma render_solid (ps : list piece) :
  tokens_ok ps ->
  match ps with Other _ :: _ => True | _ => solid_start (render ps) end.
Proof.
  destruct ps as [|p rest]; [done|]. intros (Hp & _ & _).
  destruct p as [w| |g]; try done; rewrite render_cons;
    (destruct (piece_solid _ Hp) as (Hne & Hs & _); [done|];
     by apply solid_start_app).
Qed.

Lemma render_tail_solid (g : gostring) (rest : list piece) :
  tokens_ok (Other g :: rest) -> solid_start (render rest).
Proof.
  intros (_ & Hc & Hrest). pose proof (render_solid rest Hrest) as H.
  by destruct rest as [|[w| |g'] rest'].
Qed.

(** *** [TrimSpace] on tokens *)

Lemma trim_first_render (ps : list piece) :
  tokens_ok ps -> TrimLeft (render ps) = render (trim_first ps).
Proof.
  intros Hok. destruct ps as [|p rest]; [done|].
  destruct p as [w| |g].
  - apply trim_left_solid. apply (render_solid _ Hok).
  - apply trim_left_solid. apply (render_solid _ Hok).
  - rewrite render_cons. cbn [piece_bytes trim_first].
    rewrite TrimLeft_app by (by apply (render_tail_solid g)).
    by destruct (TrimLeft g).
Qed.

Lemma trim_first_ok (ps : list piece) : tokens_ok ps -> tokens_ok (trim_first ps).
Proof.
  destruct ps as [|[w| |g] rest]; try done.
  intros (Hp & Hc & Hrest). cbn [trim_first].
  destruct (TrimLeft g) as [|c g'] eqn:Eg; [done|].
  split; [|done]. split; [done|]. rewrite <- Eg.
  apply TrimLeft_Forall, Hp.
Qed.

Lemma TrimRight_solid (x : gostring) : solid_start (rev x) -> TrimRight x = x.
Proof.
  intros H. unfold TrimRight. by rewrite trim_right_solid, rev_involutive.
Qed.

Lemma trim_last_cons (p q : piece) (rest : list piece) :
  trim_last (p :: q :: rest) = p :: trim_last (q :: rest).
Proof. reflexivity. Qed.

Lemma trim_last_render (ps : list piece) :
  tokens_ok ps -> TrimRight (render ps) = render (trim_last ps).
Proof.
  induction ps as [|p rest IH]; [done|]. intros Hok.
  destruct rest as [|q rest'].
  - unfold render. cbn [List.flat_map]. rewrite app_nil_r.
    destruct Hok as (Hp & _ & _).
    destruct p as [w| |g]; cbn [trim_last piece_bytes].
    + cbn [List.flat_map piece_bytes]. rewrite app_nil_r.
      apply TrimRight_solid. by apply (piece_solid (Word w)).
    + reflexivity.
    + destruct (TrimRight g); cbn [List.flat_map piece_bytes];
        by rewrite ?app_nil_r.
  - rewrite trim_last_cons, !(render_cons p), <- IH by (by apply (tokens_ok_tail p)).
    destruct Hok as (Hp & Hc & Hq & Hrest).
    assert (Hsolid : forall x, (forall g, x <> Other g) -> piece_ok x ->
              forall R, TrimRight (piece_bytes x ++ R) = piece_bytes x ++ TrimRight R).
    { intros x Hx Hxo R. apply TrimRight_app. by apply piece_solid. }
    destruct p as [w| |g]; [by apply Hsolid..|].
    cbn [piece_bytes]. rewrite !(render_cons q).
    assert (Hqo : forall g', q <> Other g') by (by destruct q).
    rewrite (Hsolid q Hqo Hq), !app_assoc.
    apply TrimRight_app. rewrite rev_app_distr.
    destruct (piece_solid q Hq Hqo) as (Hne & _ & Hs).
    apply solid_start_app; [|done].
    intros E. apply Hne. apply (f_equal (@rev N)) in E.
    by rewrite rev_involutive in E.
Qed.

Lemma trim_last_head (p : piece) (rest : list piece) :
  match rest with q :: _ => clash p q = false | [] => True end ->
  match trim_last rest with q :: _ => clash p q = false | [] => True end.
Proof.
  destruct rest as [|q [|q' rest']]; [done| |done].
  cbn [trim_last]. destruct q as [w| |g]; try done.
  destruct (TrimRight g); [done|]. by destruct p.
Qed.

Lemma trim_last_ok (ps : list piece) : tokens_ok ps -> tokens_ok (trim_last ps).
Proof.
  induction ps as [|p rest IH]; [done|]. intros (Hp & Hc & Hrest).
  destruct rest as [|q rest'].
  - cbn [trim_last]. destruct p as [w| |g]; try done.
    destruct (TrimRight g) as [|c g'] eqn:Eg; [done|].
    split; [|done]. split; [done|]. rewrite <- Eg. apply TrimRight_Forall, Hp.
  - rewrite trim_last_cons. split; [done|]. split; [|by apply IH].
    by apply trim_last_head.
Qed.

Lemma TrimSpace_tokens (ps : list piece) :
  tokens_ok ps ->
  TrimSpace (render ps) = render (trim_last (trim_first ps))
  /\ tokens_ok (trim_last (trim_first ps)).
Proof.
  intros Hok. split.
  - change (TrimSpace (render ps)) with (TrimRight (TrimLeft (render ps))).
    rewrite trim_first_render by done.
    apply trim_last_render. by apply trim_first_ok.
  - by apply trim_last_ok, trim_first_ok.
Qed.

(** *** Lines that differ in the names of identifiers *)

Lemma same_shape_cases (p q : piece) :
  same_shape p q = true ->
  p = q \/ exists w w', p = Word w /\ q = Word w'
                        /\ is_identifier w = true /\ is_identifier w' = true.
Proof.
  destruct p as [w| |g], q as [w'| |g']; cbn [same_shape]; try done.
  - intros H. apply orb_true_iff in H. destruct H as [H|H].
    + apply andb_true_iff in H. right. by exists w, w'.
    + apply gostring_eqb_eq in H. left. by subst.
  - by left.
  - intros H. apply gostring_eqb_eq in H. left. by subst.
Qed.

Lemma same_shape_refl (p : piece) : same_shape p p = true.
Proof.
  destruct p as [w| |g]; cbn [same_shape]; try done.
  - apply orb_true_iff. right. by apply gostring_eqb_eq.
  - by apply gostring_eqb_eq.
Qed.

Lemma renamed_cons (p q : piece) (ps qs : list piece) :
  renamed (p :: ps) (q :: qs) = true ->
  same_shape p q = true /\ renamed ps qs = true.
Proof. cbn [renamed]. intros H. by apply andb_true_iff in H. Qed.

Lemma renamed_quotes (ps qs : list piece) :
  renamed ps qs = true -> existsb is_quote ps = existsb is_quote qs.
Proof.
  revert qs. induction ps as [|p ps IH]; intros [|q qs]; try done.
  intros H. apply renamed_cons in H. destruct H as [Hs Hr].
  cbn [existsb]. rewrite (IH qs Hr). f_equal.
  destruct (same_shape_cases p q Hs) as [->|(w & w' & -> & -> & _)]; done.
Qed.

Lemma renamed_normal_form (ps qs : list piece) :
  renamed ps qs = true ->
  forall inlit,
    List.map variables_out (List.map numbers_out (strings_out inlit ps))
    = List.map variables_out (List.map numbers_out (strings_out inlit qs)).
Proof.
  revert qs. induction ps as [|p ps IH]; intros [|q qs]; try done.
  intros H inlit. apply renamed_cons in H. destruct H as [Hs Hr].
  pose proof (renamed_quotes ps qs Hr) as Hq.
  destruct (same_shape_cases p q Hs) as [->|(w & w' & -> & -> & Ew & Ew')].
  - destruct q as [w| |g]; cbn [strings_out]; rewrite ?Hq;
      destruct inlit; cbn [List.map]; rewrite ?(IH qs Hr); try done.
    destruct (existsb is_quote qs); cbn [List.map]; by rewrite (IH qs Hr).
  - cbn [strings_out]. destruct inlit; cbn [List.map]; rewrite (IH qs Hr);
      [done|].
    f_equal. cbn [numbers_out].
    rewrite (identifier_not_number w Ew), (identifier_not_number w' Ew').
    cbn [variables_out]. by rewrite Ew, Ew'.
Qed.

(** The normal form of a line does not depend on the names of its
    identifiers. *)
Lemma normalizeCodeLine_renamed (ps qs : list piece) :
  renamed ps qs = true -> tokens_ok ps -> tokens_ok qs ->
  DuplicateCodeRule.normalizeCodeLine (render ps)
  = DuplicateCodeRule.normalizeCodeLine (render qs).
Proof.
  intros Hr Hp Hq. rewrite !normalizeCodeLine_tokens by done.
  by rewrite (renamed_normal_form ps qs Hr).
Qed.

(** A consistent substitution of identifiers is one way to differ in the
    names of identifiers only. *)
Lemma rename_renamed (sigma : gostring -> gostring) (ps : list piece) :
  keeps_identifiers sigma -> renamed ps (rename sigma ps) = true.
Proof.
  intros Hs. induction ps as [|p ps IH]; [done|].
  cbn [rename List.map renamed]. fold (rename sigma ps). rewrite IH, andb_true_r.
  destruct p as [w| |g]; try apply same_shape_refl.
  destruct (is_identifier w) eqn:Ew; [|apply same_shape_refl].
  cbn [same_shape]. by rewrite Ew, (Hs w Ew).
Qed.

Lemma renamed_trim_first (ps qs : list piece) :
  renamed ps qs = true -> renamed (trim_first ps) (trim_first qs) = true.
Proof.
  destruct ps as [|p ps], qs as [|q qs]; try done.
  intros H. pose proof H as H'. apply renamed_cons in H'. destruct H' as [Hs Hr].
  destruct (same_shape_cases p q Hs) as [->|(w & w' & -> & -> & _)]; [|done].
  destruct q as [w| |g]; try done. cbn [trim_first].
  destruct (TrimLeft g); [done|]. cbn [renamed]. rewrite Hr, andb_true_r.
  apply same_shape_refl.
Qed.

Lemma renamed_trim_last (ps qs : list piece) :
  renamed ps qs = true -> renamed (trim_last ps) (trim_last qs) = true.
Proof.
  revert qs. induction ps as [|p ps IH]; intros [|q qs]; try done.
  intros H. apply renamed_cons in H. destruct H as [Hs Hr].
  destruct ps as [|p' ps'], qs as [|q' qs']; try done.
  - cbn [trim_last].
    destruct (same_shape_cases p q Hs) as [->|(w & w' & -> & -> & _)].
    + destruct q as [w| |g]; cbn [renamed]; rewrite ?same_shape_refl; try done.
      destruct (TrimRight g); [done|]. cbn [renamed]. by rewrite same_shape_refl.
    + cbn [renamed]. by rewrite Hs.
  - rewrite !trim_last_cons. cbn [renamed]. rewrite Hs. cbn [andb].
    by apply IH.
Qed.

(** *** Lines that are left out *)

Lemma HasPrefix_nil (s : gostring) : HasPrefix s [] = true.
Proof. by destruct s. Qed.

Lemma is_excluded_cons (c : N) (s : gostring) :
  DuplicateCodeRule.is_excluded (c :: s)
  = ((c =? 47) && HasPrefix s [47]) || (c =? 42).
Proof.
  unfold DuplicateCodeRule.is_excluded.
  change (B "//") with [47; 47]. change (B "*") with [42].
  assert (gostring_eqb (c :: s) [] = false) as -> by (by apply gostring_eqb_neq).
  cbn [HasPrefix orb]. by rewrite HasPrefix_nil, andb_true_r.
Qed.

Lemma solid_not_slash (c : N) :
  is_word_char c = true \/ c = dquote -> (c =? 47) = false /\ (c =? 42) = false.
Proof.
  intros [H| ->]; [|done].
  unfold is_word_char, is_digit, is_letter, is_upper, is_lower, in_range in H.
  split; apply N.eqb_neq; intros ->; by vm_compute in H.
Qed.

(** What follows a run of other bytes does not start with a slash. *)
Lemma no_slash_next (ps : list piece) :
  tokens_ok ps ->
  match ps with Other _ :: _ => True | _ => HasPrefix (render ps) [47] = false end.
Proof.
  destruct ps as [|p rest]; [done|]. intros (Hp & _ & _).
  destruct p as [w| |g]; try done.
  destruct Hp as [Hw Hall]. destruct Hall as [|c w Hc _]; [done|].
  rewrite render_cons. cbn [piece_bytes app HasPrefix].
  by rewrite (proj1 (solid_not_slash c (or_introl Hc))).
Qed.

Lemma is_excluded_tokens (ps : list piece) :
  tokens_ok ps ->
  DuplicateCodeRule.is_excluded (render ps)
  = match ps with
    | Other g :: _ => DuplicateCodeRule.is_excluded g
    | [] => true
    | _ => false
    end.
Proof.
  destruct ps as [|p rest]; [done|]. intros Hok.
  pose proof Hok as (Hp & Hc & Hrest).
  destruct p as [w| |g].
  - destruct Hp as [Hw Hall]. destruct Hall as [|c w Hcw _]; [done|].
    rewrite render_cons. cbn [piece_bytes app]. rewrite is_excluded_cons.
    by destruct (solid_not_slash c (or_introl Hcw)) as [-> ->].
  - reflexivity.
  - rewrite render_cons. cbn [piece_bytes].
    destruct Hp as [Hg _]. destruct g as [|c g]; [done|].
    cbn [app]. rewrite !is_excluded_cons. f_equal. f_equal.
    destruct g as [|d g]; [|cbn [app HasPrefix]; by rewrite !HasPrefix_nil].
    cbn [app HasPrefix]. pose proof (no_slash_next rest Hrest) as Hn.
    by destruct rest as [|[w| |g'] rest'].
Qed.

Lemma is_excluded_renamed (ps qs : list piece) :
  renamed ps qs = true -> tokens_ok ps -> tokens_ok qs ->
  DuplicateCodeRule.is_excluded (render ps)
  = DuplicateCodeRule.is_excluded (render qs).
Proof.
  intros Hr Hp Hq. rewrite !is_excluded_tokens by done.
  destruct ps as [|p ps], qs as [|q qs]; try done.
  apply renamed_cons in Hr. destruct Hr as [Hs _].
  by destruct (same_shape_cases p q Hs) as [->|(w & w' & -> & -> & _)].
Qed.

(** *** The tokens of a line *)

Lemma render_push (b : N) (ps : list piece) :
  render (push b ps) = b :: render ps.
Proof.
  unfold push. destruct (b =? dquote) eqn:Eq.
  - apply N.eqb_eq in Eq. by subst.
  - destruct (is_word_char b); by destruct ps as [|[w| |g] rest].
Qed.

Lemma push_ok (b : N) (ps : list piece) :
  tokens_ok ps -> tokens_ok (push b ps).
Proof.
  intros Hok. unfold push. destruct (b =? dquote) eqn:Eq.
  - split; [done|]. split; [by destruct ps|done].
  - apply N.eqb_neq in Eq. destruct (is_word_char b) eqn:Ew.
    + assert (Hb : piece_ok (Word [b])) by (split; [done|by constructor]).
      destruct ps as [|[w| |g] rest]; try done.
      destruct Hok as ((Hw & Hall) & Hc & Hrest).
      split; [split; [done|by constructor]|].
      split; [|done]. by destruct rest as [|[?| |?] ?].
    + assert (Hb : piece_ok (Other [b])) by (split; [done|by constructor]).
      destruct ps as [|[w| |g] rest]; try done.
      destruct Hok as ((Hw & Hall) & Hc & Hrest).
      split; [split; [done|by constructor]|].
      split; [|done]. by destruct rest as [|[?| |?] ?].
Qed.

Lemma render_tokenize (s : gostring) : render (tokenize s) = s.
Proof.
  induction s as [|b s IH]; [done|].
  cbn [tokenize List.fold_right]. fold (tokenize s).
  by rewrite render_push, IH.
Qed.

Lemma tokenize_ok (s : gostring) : tokens_ok (tokenize s).
Proof.
  induction s as [|b s IH]; [done|].
  cbn [tokenize List.fold_right]. by apply push_ok.
Qed.

(** *** Lines and windows *)

Lemma renamed_tokens_normal (ps qs : list piece) :
  renamed ps qs = true -> tokens_ok ps -> tokens_ok qs ->
  substantive (render ps) = substantive (render qs)
  /\ DuplicateCodeRule.normalizeCodeLine (TrimSpace (render ps))
     = DuplicateCodeRule.normalizeCodeLine (TrimSpace (render qs)).
Proof.
  intros Hr Hp Hq.
  destruct (TrimSpace_tokens ps Hp) as [E1 H1].
  destruct (TrimSpace_tokens qs Hq) as [E2 H2].
  unfold substantive. rewrite E1, E2.
  pose proof (renamed_trim_last _ _ (renamed_trim_first _ _ Hr)) as Ht.
  split.
  - f_equal. by apply is_excluded_renamed.
  - by apply normalizeCodeLine_renamed.
Qed.

Lemma renamed_line_normal (l1 l2 : gostring) :
  renamed_line l1 l2 = true ->
  substantive l1 = substantive l2
  /\ DuplicateCodeRule.normalizeCodeLine (TrimSpace l1)
     = DuplicateCodeRule.normalizeCodeLine (TrimSpace l2).
Proof.
  unfold renamed_line. intros Hr.
  pose proof (renamed_tokens_normal _ _ Hr (tokenize_ok l1) (tokenize_ok l2)) as H.
  by rewrite !render_tokenize in H.
Qed.

(** Windows whose lines agree, one by one, on being substantive and on
    their normal form have the same key. *)
Lemma normalizeBlock_same (w1 w2 : list gostring) :
  Forall2 (fun l1 l2 =>
             substantive l1 = substantive l2
             /\ DuplicateCodeRule.normalizeCodeLine (TrimSpace l1)
                = DuplicateCodeRule.normalizeCodeLine (TrimSpace l2)) w1 w2 ->
  DuplicateCodeRule.normalizeBlock w1 = DuplicateCodeRule.normalizeBlock w2.
Proof.
  intros H. rewrite !normalizeBlock_lines. cbv zeta.
  assert (E : List.map (fun line => DuplicateCodeRule.normalizeCodeLine
                                      (TrimSpace line))
                       (List.filter substantive w1)
              = List.map (fun line => DuplicateCodeRule.normalizeCodeLine
                                        (TrimSpace line))
                         (List.filter substantive w2)).
  { induction H as [|l1 l2 w1 w2 [Hs Hn] _ IH]; [done|].
    cbn [List.filter]. rewrite Hs.
    destruct (substantive l2); [|done]. cbn [List.map]. by rewrite Hn, IH. }
  by rewrite E.
Qed.

Lemma normalizeBlock_renamed (w1 w2 : list gostring) :
  Forall2 (fun l1 l2 => renamed_line l1 l2 = true) w1 w2 ->
  DuplicateCodeRule.normalizeBlock w1 = DuplicateCodeRule.normalizeBlock w2.
Proof.
  intros H. apply normalizeBlock_same.
  eapply Forall2_impl; [exact H|]. intros l1 l2. apply renamed_line_normal.
Qed.

(** The same for a substitution [sigma] of identifiers, applied to every
    line of a window. *)
Lemma normalizeBlock_rename (sigma : gostring -> gostring)
    (pss : list (list piece)) :
  keeps_identifiers sigma -> Forall tokens_ok pss ->
  DuplicateCodeRule.normalizeBlock
    (List.map render (List.map (rename sigma) pss))
  = DuplicateCodeRule.normalizeBlock (List.map render pss).
Proof.
  intros Hs Hok. symmetry. apply normalizeBlock_same.
  induction Hok as [|ps pss Hps _ IH]; cbn [List.map]; constructor; [|exact IH].
  apply renamed_tokens_normal; [by apply rename_renamed|done|by apply rename_ok].
Qed.

(** *** Both windows are reported *)

Lemma filter_two {A} (P : A -> bool) (l : list A) (i j : A) :
  i <> j -> In i l -> In j l -> P i = true -> P j = true ->
  (2 <= length (List.filter P l))%nat.
Proof.
  intros Hij Hi Hj Pi Pj.
  assert (Fi : In i (List.filter P l)) by (by apply List.filter_In).
  assert (Fj : In j (List.filter P l)) by (by apply List.filter_In).
  destruct (List.filter P l) as [|a [|b t]]; cbn [length]; [done| |lia].
  destruct Fi as [<-|[]], Fj as [<-|[]]. done.
Qed.

Lemma window_starts_In (lines : list gostring) (i : nat) :
  (i + DuplicateCodeRule.blockSize <= length lines)%nat ->
  In i (window_starts lines).
Proof. intros Hi. unfold window_starts. apply List.in_seq. lia. Qed.

Lemma expected_contains `{UnicodeTables} (cfg : RuleConfig) (file : ParsedFile)
    (i : nat) :
  let lines := Lines file in
  let n := length (group_of lines (window_starts lines) (window_key lines i)) in
  In i (window_starts lines) -> window_key lines i <> [] -> (2 <= n)%nat ->
  In (DuplicateCodeRule.issue_for cfg file (S i) n)
     (expected_block_findings cfg file).
Proof.
  intros lines n Hi Hk Hn. unfold expected_block_findings.
  apply List.in_flat_map. exists i. split; [exact Hi|]. cbv zeta.
  fold lines. fold n.
  apply gostring_eqb_neq in Hk. rewrite Hk. cbn [negb andb].
  apply Nat.leb_le in Hn. rewrite Hn. by left.
Qed.

(** C7.  Two windows of a file, at different start lines, whose lines
    differ one by one only in the names of identifiers (words that match
    the identifier pattern; numbers, quotes and all other bytes are the
    same) have the same block key; and when the key is not empty, the
    group of the key has at least two members and the detector reports
    both windows, each at its start line with the size of the group. *)
Theorem renaming_keeps_block_key `{UnicodeTables} `{MapOrder}
    (cfg : RuleConfig) (file : ParsedFile) (issues : list Issue) (i j : nat) :
  let lines := Lines file in
  let w1 := slice lines i (i + DuplicateCodeRule.blockSize) in
  let w2 := slice lines j (j + DuplicateCodeRule.blockSize) in
  let n := length (group_of lines (window_starts lines)
                     (DuplicateCodeRule.normalizeBlock w1)) in
  let found := DuplicateCodeRule.checkDuplicateBlocks cfg file issues in
  i <> j ->
  (i + DuplicateCodeRule.blockSize <= length lines)%nat ->
  (j + DuplicateCodeRule.blockSize <= length lines)%nat ->
  Forall2 (fun l1 l2 => renamed_line l1 l2 = true) w1 w2 ->
  DuplicateCodeRule.normalizeBlock w1 = DuplicateCodeRule.normalizeBlock w2
  /\ (DuplicateCodeRule.normalizeBlock w1 <> [] ->
      (2 <= n)%nat
      /\ In (DuplicateCodeRule.issue_for cfg file (S i) n) found
      /\ In (DuplicateCodeRule.issue_for cfg file (S j) n) found).
Proof.
  intros lines w1 w2 n found Hij Hi Hj Hren.
  pose proof (normalizeBlock_renamed w1 w2 Hren) as Ekey.
  split; [exact Ekey|]. intros Hk.
  pose proof (window_starts_In lines i Hi) as Ii.
  pose proof (window_starts_In lines j Hj) as Ij.
  assert (Hn : (2 <= n)%nat).
  { unfold n, group_of. rewrite length_map.
    apply (filter_two _ _ i j Hij Ii Ij).
    - by apply gostring_eqb_eq.
    - apply gostring_eqb_eq. unfold window_key. fold w2. by rewrite <- Ekey. }
  split; [exact Hn|].
  destruct (checkDuplicateBlocks_expected cfg file issues) as (fnd & E & P).
  assert (Hin : forall x, In x (expected_block_findings cfg file) -> In x found).
  { intros x Hx. unfold found. rewrite E. apply List.in_or_app. right.
    apply (Permutation_in x (Permutation_sym P) Hx). }
  split; apply Hin.
  - apply (expected_contains cfg file i Ii Hk Hn).
  - assert (Ej : window_key lines j = DuplicateCodeRule.normalizeBlock w1)
      by (unfold window_key; fold w2; by rewrite <- Ekey).
    pose proof (expected_contains cfg file j Ij) as Hc. cbv zeta in Hc.
    fold lines in Hc. rewrite Ej in Hc. by apply Hc.
Qed.

Lemma renaming_keeps_block_key_witness :
  let lines := Lines renamed_copies in
  let found := @DuplicateCodeRule.checkDuplicateBlocks plain_tables
                 listed_order sample_config renamed_copies [] in
  Forall2 (fun l1 l2 => renamed_line l1 l2 = true)
          (slice lines 0 5) (slice lines 6 11)
  /\ DuplicateCodeRule.normalizeBlock (slice lines 0 5)
     = DuplicateCodeRule.normalizeBlock (slice lines 6 11)
  /\ DuplicateCodeRule.normalizeBlock (slice lines 0 5) <> []
  /\ In (@DuplicateCodeRule.issue_for plain_tables sample_config
           renamed_copies 1 2) found
  /\ In (@DuplicateCodeRule.issue_for plain_tables sample_config
           renamed_copies 7 2) found.
Proof.
  intros lines found.
  assert (Hren : Forall2 (fun l1 l2 => renamed_line l1 l2 = true)
                   (slice lines 0 5) (slice lines 6 11))
    by (repeat constructor).
  assert (Hk : DuplicateCodeRule.normalizeBlock (slice lines 0 5) <> [])
    by (vm_compute; discriminate).
  assert (En : length (group_of lines (window_starts lines)
                         (DuplicateCodeRule.normalizeBlock (slice lines 0 5)))
               = 2%nat) by (vm_compute; reflexivity).
  destruct (@renaming_keeps_block_key plain_tables listed_order sample_config
              renamed_copies [] 0%nat 6%nat)
    as (Ekey & Hrep); [lia|vm_compute; lia|vm_compute; lia|exact Hren|].
  destruct (Hrep Hk) as (_ & H1 & H7).
  change (0 + DuplicateCodeRule.blockSize)%nat with 5%nat in *.
  change (6 + DuplicateCodeRule.blockSize)%nat with 11%nat in *.
  fold lines in H1, H7. rewrite En in H1, H7.
  split; [exact Hren|]. split; [exact Ekey|]. split; [exact Hk|].
  split; [exact H1|exact H7].
Defined.

(** ** One more branch construct (C6) *)

(** *** Lists *)



(** *** What a match takes *)

Lemma ms_suffix (r : regex) :
  forall prev s q s', In (q, s') (ms r prev s) ->
    (length s' <= length s)%nat
    /\ (consumes r = true -> (length s' < length s)%nat).
Proof.
  induction r as [|p|a IHa b IHb|a IHa b IHb|p|]; intros prev s q s' Hin;
    cbn [ms consumes] in *.
  - destruct Hin as [E|[]]. injection E as <- <-. split; [lia|done].
  - destruct s as [|c s]; [done|]. destruct (p c); [|done].
    destruct Hin as [E|[]]. injection E as <- <-. cbn [length]. split; lia.
  - apply List.in_flat_map in Hin. destruct Hin as ([q1 s1] & H1 & H2).
    cbn [fst snd] in H2.
    destruct (IHa _ _ _ _ H1) as [La Sa], (IHb _ _ _ _ H2) as [Lb Sb].
    split; [lia|]. intros H. apply orb_true_iff in H.
    destruct H as [H|H]; [specialize (Sa H)|specialize (Sb H)]; lia.
  - apply List.in_app_or in Hin.
    destruct Hin as [H|H]; [destruct (IHa _ _ _ _ H) as [L S]
                           |destruct (IHb _ _ _ _ H) as [L S]];
      (split; [done|]); intros Hc; apply andb_true_iff in Hc; apply S, Hc.
  - destruct (star_c_spec p s prev q s' Hin) as (u & -> & _ & _).
    rewrite length_app. split; [lia|done].
  - destruct (xorb _ _); [|done]. destruct Hin as [E|[]].
    injection E as <- <-. split; [lia|done].
Qed.

Lemma match_here_le (r : regex) prev s n :
  match_here r prev s = Some n -> (n <= length s)%nat.
Proof.
  unfold match_here. destruct (ms r prev s) as [|[q s'] tl]; [done|].
  intros E. injection E as <-. lia.
Qed.

Lemma match_here_pos (r : regex) prev s :
  consumes r = true -> match_here r prev s <> Some 0%nat.
Proof.
  intros Hc. unfold match_here.
  destruct (ms r prev s) as [|[q s'] tl] eqn:E; [done|].
  destruct (ms_suffix r prev s q s') as [_ H]; [rewrite E; by left|].
  specialize (H Hc). intros E'. injection E' as E'. lia.
Qed.

Lemma match_here_end (r : regex) prev :
  consumes r = true -> match_here r prev [] = None.
Proof.
  intros Hc. destruct (match_here r prev []) as [n|] eqn:E; [|done].
  pose proof (match_here_le _ _ _ _ E) as Hle. cbn [length] in Hle.
  assert (n = 0%nat) as -> by lia. by destruct (match_here_pos r prev [] Hc).
Qed.

(** *** The rune before a position *)






(** *** A rune that the pattern rejects *)

Section Separator.
Variable c : N.
Variable y : list N.
Hypothesis c_not_word : is_word_char c = false.




End Separator.

(** *** Counting *)






(** What a match has passed lies between its start and the position it
    reached. *)
Lemma ms_passed (r : regex) :
  forall prev s q s', In (q, s') (ms r prev s) ->
    exists u, s = u ++ s' /\ q = last_rune prev u.
Proof.
  induction r as [|p|a IHa b IHb|a IHa b IHb|p|]; intros prev s q s' Hin;
    cbn [ms] in Hin.
  - destruct Hin as [E|[]]. injection E as <- <-. by exists [].
  - destruct s as [|c s]; [done|]. destruct (p c); [|done].
    destruct Hin as [E|[]]. injection E as <- <-. by exists [c].
  - apply List.in_flat_map in Hin. destruct Hin as ([q1 s1] & H1 & H2).
    cbn [fst snd] in H2.
    destruct (IHa _ _ _ _ H1) as (u1 & -> & ->).
    destruct (IHb _ _ _ _ H2) as (u2 & -> & ->).
    exists (u1 ++ u2). split; [by rewrite app_assoc|].
    unfold last_rune. by rewrite List.fold_left_app.
  - apply List.in_app_or in Hin. destruct Hin as [H|H]; eauto.
  - destruct (star_c_spec p s prev q s' Hin) as (u & -> & _ & ->). by exists u.
  - destruct (xorb _ _); [|done]. destruct Hin as [E|[]].
    injection E as <- <-. by exists [].
Qed.

(** *** The ternary pattern *)












Lemma count_from_end (r : regex) : consumes r = true -> count_from r [] = 0%nat.
Proof.
  intros Hc. unfold count_from. cbn [find_all_from].
  by rewrite (match_here_end r None Hc).
Qed.

(** *** The score of a body with one more statement *)

















(** ** The normal form of a line *)

(** [normalizeCodeLine] works token by token: the text between a quote
    and the next quote becomes one word, then every word of digits and
    every identifier, the placeholders of the first two passes among
    them, becomes [VAR]; all other bytes are kept. *)
Theorem normalizeCodeLine_closed_form (line : gostring) :
  DuplicateCodeRule.normalizeCodeLine line
  = render (List.map variables_out
              (List.map numbers_out (strings_out false (tokenize line))))
  /\ variables_out (numbers_out (Word (B "STRING")))
     = Word DuplicateCodeRule.VAR
  /\ variables_out (Word DuplicateCodeRule.NUM) = Word DuplicateCodeRule.VAR.
Proof.
  split; [|split; reflexivity].
  rewrite <- (render_tokenize line) at 1.
  apply normalizeCodeLine_tokens, tokenize_ok.
Qed.

(** ** Body extraction on ASCII text *)

(** *** Text of ASCII bytes *)

Lemma ascii_chunks (s : gostring) :
  Forall (fun b => b < 128) s -> chunks s = List.map (fun b => (b, [b])) s.
Proof.
  induction 1 as [|b s Hb _ IH]; [done|].
  by rewrite chunks_ascii_cons, IH.
Qed.

Lemma ascii_to_runes (s : gostring) :
  Forall (fun b => b < 128) s -> to_runes s = s.
Proof.
  intros H. unfold to_runes. rewrite (ascii_chunks s H). apply word_runes.
Qed.

Lemma ascii_of_runes (s : gostring) :
  Forall (fun b => b < 128) s -> of_runes s = s.
Proof.
  induction 1 as [|b s Hb _ IH]; [done|].
  unfold of_runes in *. cbn [List.flat_map]. rewrite IH.
  unfold EncodeRune. apply N.ltb_lt in Hb. by rewrite Hb.
Qed.

Lemma ascii_byte_pos (s : gostring) (k : nat) :
  (k <= length s)%nat ->
  byte_pos (List.map (fun b : N => (b, [b])) s) k = k.
Proof.
  intros Hk. unfold byte_pos. rewrite List.firstn_map.
  change (List.concat (List.map snd ?l)) with (chunk_bytes l).
  rewrite word_chunk_bytes, List.length_firstn. lia.
Qed.

(** *** The first match *)

Lemma find_all_head (r : regex) (v : list N) :
  forall prev pos adj x y tl,
    find_all_from r prev v pos 0 adj = (x, y) :: tl ->
    exists u w,
      v = u ++ w /\ x = (pos + length u)%nat
      /\ match_here r (last_rune prev u) w = Some (y - x)%nat
      /\ (x <= y)%nat.
Proof.
  induction v as [|c v IH]; intros prev pos adj x y tl E.
  - cbn [find_all_from] in E. exists [], [].
    destruct (match_here r prev []) as [[|n]|] eqn:Em; [|..|done].
    + destruct adj; [done|]. cbn [app] in E. injection E as <- <- _.
      cbn [length last_rune List.fold_left]. rewrite Nat.sub_diag, Nat.add_0_r.
      by repeat split.
    + injection E as <- <- _. cbn [length last_rune List.fold_left].
      rewrite Nat.add_0_r. replace (pos + S n - pos)%nat with (S n) by lia.
      repeat split; [done|lia].
  - cbn [find_all_from] in E.
    destruct (match_here r prev (c :: v)) as [[|n]|] eqn:Em.
    + destruct adj; cbn [app] in E.
      * destruct (IH _ _ _ _ _ _ E) as (u & w & -> & -> & Hm & Hle).
        exists (c :: u), w. cbn [length]. repeat split; [|exact Hm|lia].
        lia.
      * injection E as <- <- _. exists [], (c :: v).
        cbn [length last_rune List.fold_left].
        rewrite Nat.sub_diag, Nat.add_0_r. by repeat split.
    + injection E as <- <- _. exists [], (c :: v).
      cbn [length last_rune List.fold_left]. rewrite Nat.add_0_r.
      replace (pos + S n - pos)%nat with (S n) by lia.
      repeat split; [done|lia].
    + destruct (IH _ _ _ _ _ _ E) as (u & w & -> & -> & Hm & Hle).
      exists (c :: u), w. cbn [length]. repeat split; [|exact Hm|lia].
      lia.
Qed.

(** *** What a match has passed *)

Lemma ms_ends_in (P : N -> Prop) (r : regex) :
  ends_in P r ->
  forall prev s q s', In (q, s') (ms r prev s) -> exists x, q = Some x /\ P x.
Proof.
  induction r as [|p|a IHa b IHb|a IHa b IHb|p|]; cbn [ends_in]; try done.
  - intros Hp prev s q s' Hin. cbn [ms] in Hin.
    destruct s as [|c s]; [done|]. destruct (p c) eqn:Ec; [|done].
    destruct Hin as [E|[]]. injection E as <- <-. exists c. split; [done|].
    by apply Hp.
  - intros He prev s q s' Hin. cbn [ms] in Hin.
    apply List.in_flat_map in Hin. destruct Hin as ([q1 s1] & H1 & H2).
    cbn [fst snd] in H2. destruct b; try (by apply (IHb He _ _ _ _ H2)).
    cbn [ms] in H2. destruct H2 as [E|[]]. injection E as <- <-.
    by apply (IHa He _ _ _ _ H1).
Qed.

Lemma methodPattern_ends (name : gostring) :
  ends_in (fun x => x = ch "{") (methodPattern name).
Proof.
  unfold methodPattern, rcat. cbn [List.fold_right ends_in].
  change (lit "{") with (Cat (Cls (is_c 123)) Eps). cbn [ends_in].
  intros x Hx. by apply N.eqb_eq in Hx.
Qed.

Lemma methodPattern_consumes (name : gostring) :
  consumes (methodPattern name) = true.
Proof.
  unfold methodPattern, rcat. cbn [List.fold_right consumes].
  change (lit "(") with (Cat (Cls (is_c 40)) Eps). cbn [consumes].
  by rewrite !orb_true_r.
Qed.

(** A match of the method pattern is not empty and ends with the brace. *)
Lemma methodPattern_match (name : gostring) prev (w : list N) (n : nat) :
  match_here (methodPattern name) prev w = Some n ->
  exists u s', w = u ++ ch "{" :: s' /\ n = S (length u).
Proof.
  intros E. pose proof (match_here_pos _ prev w (methodPattern_consumes name)) as Hp.
  unfold match_here in E, Hp.
  destruct (ms (methodPattern name) prev w) as [|[q s'] tl] eqn:Em; [done|].
  injection E as <-.
  assert (Hin : In (q, s') (ms (methodPattern name) prev w))
    by (rewrite Em; by left).
  destruct (ms_passed _ _ _ _ _ Hin) as (u & -> & Hq).
  destruct (ms_ends_in _ _ (methodPattern_ends name) _ _ _ _ Hin) as (x & Ex & ->).
  destruct u as [|c u] using rev_ind.
  - exfalso. apply Hp. f_equal. cbn [app]. lia.
  - unfold last_rune in Hq. rewrite List.fold_left_app in Hq.
    cbn [List.fold_left] in Hq. rewrite Hq in Ex. injection Ex as ->.
    exists u, s'. split; [by rewrite <- app_assoc|].
    rewrite !length_app. cbn [length]. lia.
Qed.

(** *** The brace loop *)

Lemma brace_loop_zero (rest : list N) (i : nat) :
  brace_loop rest 0 i = (0%Z, i).
Proof. by destruct rest. Qed.

Lemma depth_step_range (c : N) (d : Z) :
  (d - 1 <= depth_step c d <= d + 1)%Z.
Proof.
  unfold depth_step. destruct (c =? ch "{"); [lia|].
  destruct (c =? ch "}"); lia.
Qed.

Lemma brace_loop_close (rest : list N) :
  forall (braceCount : Z) (i : nat), (0 < braceCount)%Z ->
    match close_index rest braceCount with
    | Some k =>
      brace_loop rest braceCount i = (0%Z, (i + k)%nat)
      /\ (1 <= k <= length rest)%nat
    | None => (0 < fst (brace_loop rest braceCount i))%Z
    end.
Proof.
  induction rest as [|c rest IH]; intros bc i Hbc; [exact Hbc|].
  cbn [brace_loop close_index]. fold (depth_step c bc).
  assert ((0 <? bc)%Z = true) as -> by (by apply Z.ltb_lt).
  pose proof (depth_step_range c bc) as Hr.
  destruct (Z.eqb_spec (depth_step c bc) 0) as [E|E].
  - rewrite E, brace_loop_zero. cbn [length]. split; [f_equal; lia|lia].
  - specialize (IH (depth_step c bc) (S i) ltac:(lia)).
    destruct (close_index rest (depth_step c bc)) as [k|]; cbn [option_map].
    + destruct IH as [-> Hk]. cbn [length]. split; [f_equal; lia|lia].
    + exact IH.
Qed.

(** The depth is 0 after the last byte of the text up to the partner, and
    not before. *)
Lemma close_index_depth (t : gostring) :
  forall d,
    match close_index t d with
    | Some k =>
      exists ds, depth_trace (firstn k t) d = ds ++ [0%Z]
                 /\ Forall (fun x => x <> 0%Z) ds
    | None => Forall (fun x => x <> 0%Z) (depth_trace t d)
    end.
Proof.
  induction t as [|c t IH]; intros d; [constructor|].
  cbn [close_index]. destruct (Z.eqb_spec (depth_step c d) 0) as [E|E].
  - exists []. split; [|constructor]. cbn [firstn depth_trace app].
    fold (depth_step c d). by rewrite E.
  - specialize (IH (depth_step c d)).
    destruct (close_index t (depth_step c d)) as [k|]; cbn [option_map].
    + destruct IH as (ds & Eds & Hds). exists (depth_step c d :: ds).
      split; [|by constructor]. cbn [firstn depth_trace].
      fold (depth_step c d). by rewrite Eds.
    + cbn [depth_trace]. fold (depth_step c d). by constructor.
Qed.

(** On text of ASCII bytes [extractMethodBody] gives the body: nothing
    when the method pattern has no match; otherwise the match ends with
    an opening brace and the result is the text from that brace to its
    partner, whose depth is 0 after its last byte only, or nothing when
    the brace has no partner. *)
Theorem extractMethodBody_ascii (file : ParsedFile) (method : JavaMethod) :
  Forall (fun b => b < 128) (Content file) ->
  match FindStringIndex (methodPattern (m_Name method)) (Content file) with
  | None => extractMethodBody file method = []
  | Some m =>
    exists rest,
      skipn (snd m - 1) (Content file) = ch "{" :: rest
      /\ extractMethodBody file method = balanced_from (ch "{" :: rest)
      /\ match close_index (ch "{" :: rest) 0 with
         | Some k =>
           exists ds,
             depth_trace (balanced_from (ch "{" :: rest)) 0 = ds ++ [0%Z]
             /\ Forall (fun x => x <> 0%Z) ds
         | None =>
           balanced_from (ch "{" :: rest) = []
           /\ Forall (fun x => x <> 0%Z) (depth_trace (ch "{" :: rest) 0)
         end
  end.
Proof.
  intros Hascii. unfold extractMethodBody.
  destruct (FindStringIndex _ _) as [[x' y']|] eqn:Ef; [|done].
  unfold FindStringIndex, FindAllStringIndex in Ef.
  rewrite (ascii_chunks _ Hascii), word_runes in Ef.
  destruct (find_all_from _ None (Content file) 0 0 false)
    as [|[x y] tl] eqn:Ea; [done|].
  cbn [List.map hd_error fst snd] in Ef. injection Ef as <- <-.
  destruct (find_all_head _ _ _ _ _ _ _ _ Ea) as (u & w & Ec & -> & Hm & Hle).
  destruct (methodPattern_match _ _ _ _ Hm) as (u2 & s' & -> & Hy).
  cbn [Nat.add] in Hy, Hle.
  assert (Ey : y = S (length (u ++ u2))) by (rewrite length_app; lia).
  assert (Ecs : Content file = (u ++ u2) ++ ch "{" :: s')
    by (by rewrite Ec, <- app_assoc).
  assert (Hy' : (y <= length (Content file))%nat).
  { rewrite Ecs, Ey, !length_app. cbn [length]. lia. }
  cbn [snd]. rewrite (ascii_byte_pos _ _ Hy'), Ey.
  replace (S (length (u ++ u2)) - 1)%nat with (length (u ++ u2)) by lia.
  rewrite (ascii_to_runes _ Hascii).
  assert (Es : skipn (length (u ++ u2)) (Content file) = ch "{" :: s')
    by (rewrite Ecs; apply drop_app_length).
  assert (Es' : skipn (S (length (u ++ u2))) (Content file) = s').
  { rewrite Ecs.
    change (ch "{" :: s') with ([ch "{"] ++ s'). rewrite app_assoc.
    replace (S (length (u ++ u2))) with (length ((u ++ u2) ++ [ch "{"]))
      by (rewrite (length_app (u ++ u2)); cbn [length]; lia).
    apply drop_app_length. }
  exists s'. split; [exact Es|]. rewrite Es'.
  pose proof (brace_loop_close s' 1 (S (length (u ++ u2))) ltac:(lia)) as Hb.
  pose proof (close_index_depth (ch "{" :: s') 0) as Hd.
  unfold balanced_from. cbn [close_index] in Hd |- *.
  change (depth_step (ch "{") 0) with 1%Z in Hd, Hb |- *. cbn [Z.eqb] in Hd |- *.
  destruct (close_index s' 1) as [k|]; cbn [option_map] in Hd |- *.
  - destruct Hb as [-> Hk]. cbn [Z.eqb]. split; [|exact Hd].
    unfold slice. rewrite Es.
    replace (S (length (u ++ u2)) + k - length (u ++ u2))%nat with (S k) by lia.
    apply ascii_of_runes. apply Forall_take. rewrite <- Es.
    by apply Forall_drop.
  - destruct (brace_loop s' 1 (S (length (u ++ u2)))) as [bc i].
    cbn [fst] in Hb.
    assert ((bc =? 0)%Z = false) as -> by (apply Z.eqb_neq; lia).
    split; [done|]. split; [done|exact Hd].
Qed.

Lemma extractMethodBody_ascii_witness :
  let file :=
    sample_file "java" (B "class S { void f() { if (a) { b; } } }") ASTNil in
  Forall (fun b => b < 128) (Content file)
  /\ FindStringIndex (methodPattern (B "f")) (Content file)
     = Some (15%nat, 20%nat)
  /\ extractMethodBody file (sample_method "f" []) = B "{ if (a) { b; } }".
Proof.
  intros file.
  assert (Ha : Forall (fun b => b < 128) (Content file))
    by (repeat constructor).
  assert (Ef : FindStringIndex (methodPattern (B "f")) (Content file)
               = Some (15%nat, 20%nat)) by (vm_compute; reflexivity).
  split; [exact Ha|]. split; [exact Ef|].
  pose proof (extractMethodBody_ascii file (sample_method "f" []) Ha) as H.
  change (m_Name (sample_method "f" [])) with (B "f") in H.
  rewrite Ef in H. destruct H as (rest & Er & -> & _).
  vm_compute in Er. injection Er as <-. vm_compute. reflexivity.
Defined.

Lemma keep_loop (keep : RuleConfig -> bool) (rules : list RuleConfig) :
  List.fold_left
    (fun filteredRules rule =>
       if keep rule then filteredRules ++ [rule] else filteredRules)
    rules []
  = List.filter keep rules.
Proof.
  rewrite (fold_left_push_if keep (fun r => r)). cbn [app].
  induction rules as [|r rules IH]; [done|]. cbn [List.flat_map List.filter].
  rewrite IH. by destruct (keep r).
Qed.

Lemma keep_rules_languages (c : Config) (keep : RuleConfig -> bool) :
  conf_Languages (keep_rules c keep)
  = List.map (fun lr => {| lr_Language := lr_Language lr;
                           lr_Rules := List.filter keep (lr_Rules lr) |})
             (conf_Languages c).
Proof.
  unfold keep_rules. cbn [conf_Languages]. apply List.map_ext.
  intros lr. by rewrite keep_loop.
Qed.

Lemma keep_rules_twice (c : Config) (f g : RuleConfig -> bool) :
  keep_rules (keep_rules c f) g = keep_rules c (fun r => f r && g r).
Proof.
  unfold keep_rules at 1 3. rewrite keep_rules_languages.
  cbn [conf_Version keep_rules]. f_equal. rewrite List.map_map.
  apply List.map_ext. intros lr. cbn [lr_Language lr_Rules]. f_equal.
  rewrite !keep_loop. induction (lr_Rules lr) as [|r rs IH]; [done|].
  cbn [List.filter]. destruct (f r); cbn [andb List.filter]; [|exact IH].
  destruct (g r); by rewrite IH.
Qed.

Lemma keep_rules_ext (c : Config) (f g : RuleConfig -> bool) :
  (forall r, f r = g r) -> keep_rules c f = keep_rules c g.
Proof.
  intros E. unfold keep_rules. f_equal. apply List.map_ext. intros lr.
  f_equal. rewrite !keep_loop. induction (lr_Rules lr) as [|r rs IH]; [done|].
  cbn [List.filter]. by rewrite E, IH.
Qed.

Lemma keep_rules_all (c : Config) (f : RuleConfig -> bool) :
  (forall r, f r = true) -> keep_rules c f = c.
Proof.
  intros E. destruct c as [v ls]. unfold keep_rules.
  cbn [conf_Version conf_Languages]. f_equal.
  induction ls as [|[l rs] ls IH]; [done|]. cbn [List.map]. rewrite IH.
  f_equal. cbn [lr_Language lr_Rules]. f_equal. rewrite keep_loop.
  induction rs as [|r rs IHr]; [done|]. cbn [List.filter]. by rewrite E, IHr.
Qed.

Lemma all_rules_keep (c : Config) (keep : RuleConfig -> bool) (r : RuleConfig) :
  In r (all_rules (keep_rules c keep)) <-> In r (all_rules c) /\ keep r = true.
Proof.
  unfold all_rules. rewrite keep_rules_languages.
  rewrite !List.in_flat_map. split.
  - intros (lr' & Hlr & Hr). apply List.in_map_iff in Hlr.
    destruct Hlr as (lr & <- & Hlr). cbn [lr_Rules] in Hr.
    apply List.filter_In in Hr. destruct Hr as [Hr Hk].
    split; [by exists lr|done].
  - intros [(lr & Hlr & Hr) Hk].
    exists {| lr_Language := lr_Language lr;
              lr_Rules := List.filter keep (lr_Rules lr) |}.
    split; [apply List.in_map_iff; by exists lr|].
    cbn [lr_Rules]. by apply List.filter_In.
Qed.

Lemma ParseSeverity_low `{UnicodeTables} (s : gostring) :
  (SeverityLow <= ParseSeverity s)%Z.
Proof.
  unfold ParseSeverity, SeverityLow, SeverityMedium, SeverityHigh,
    SeverityCritical.
  repeat (destruct (gostring_eqb _ _); [lia|]). lia.
Qed.

(** [FilterBySeverity] keeps the version and the languages, and in every
    language it keeps, in the order of the file, exactly the rules whose
    parsed severity is at least the minimum.  Filtering twice is
    filtering by the larger minimum, and a minimum of at most [low]
    changes nothing. *)
Theorem FilterBySeverity_laws `{UnicodeTables} (c : Config) (a b : Severity) :
  FilterBySeverity c a
  = {| conf_Version := conf_Version c;
       conf_Languages :=
         List.map
           (fun lr =>
              {| lr_Language := lr_Language lr;
                 lr_Rules :=
                   List.filter
                     (fun rule =>
                        (a <=? ParseSeverity (cfg_Severity rule))%Z)
                     (lr_Rules lr) |})
           (conf_Languages c) |}
  /\ FilterBySeverity (FilterBySeverity c a) b
     = FilterBySeverity c (Z.max a b)
  /\ ((a <= SeverityLow)%Z -> FilterBySeverity c a = c)
  /\ (forall r, In r (all_rules (FilterBySeverity c a))
                <-> In r (all_rules c)
                    /\ (a <= ParseSeverity (cfg_Severity r))%Z)
  /\ List.map lr_Language (conf_Languages (FilterBySeverity c a))
     = List.map lr_Language (conf_Languages c).
Proof.
  unfold FilterBySeverity. split; [|split; [|split; [|split]]].
  - rewrite <- keep_rules_languages. reflexivity.
  - rewrite keep_rules_twice. apply keep_rules_ext. intros r.
    destruct (Z.leb_spec a (ParseSeverity (cfg_Severity r))),
             (Z.leb_spec b (ParseSeverity (cfg_Severity r))),
             (Z.leb_spec (Z.max a b) (ParseSeverity (cfg_Severity r)));
      cbn [andb]; try reflexivity; lia.
  - intros Ha. apply keep_rules_all. intros r. apply Z.leb_le.
    pose proof (ParseSeverity_low (cfg_Severity r)). lia.
  - intros r. rewrite all_rules_keep. by rewrite Z.leb_le.
  - rewrite keep_rules_languages, List.map_map. by apply List.map_ext.
Qed.

(** ** Categories *)

Lemma category_map_lookup (l : list gostring) (k : gostring) :
  forall m : gmap gostring bool,
    default false
      (List.fold_left (fun m cat => <[TrimSpace cat := true]> m) l m !! k)
    = true
    <-> In k (List.map TrimSpace l) \/ default false (m !! k) = true.
Proof.
  induction l as [|cat l IH]; intros m; cbn [List.fold_left List.map In].
  - tauto.
  - rewrite IH. destruct (decide (TrimSpace cat = k)) as [->|Hne].
    + rewrite lookup_insert_eq. cbn [default]. tauto.
    + rewrite lookup_insert_ne by done. tauto.
Qed.

Lemma FilterByCategories_keep (c : Config) (categories : gostring) :
  categories <> [] ->
  FilterByCategories c categories
  = keep_rules c (fun rule =>
                    bool_decide (cfg_Category rule
                                 ∈ named_categories categories)).
Proof.
  intros Hne. unfold FilterByCategories. apply gostring_eqb_neq in Hne.
  rewrite Hne. apply keep_rules_ext. intros r.
  pose proof (category_map_lookup (Split categories (ch ",")) (cfg_Category r) ∅)
    as Hl.
  rewrite lookup_empty in Hl.
  change (default false (@None bool)) with false in Hl.
  unfold named_categories.
  destruct (default false _) eqn:E; symmetry.
  - apply bool_decide_eq_true, list_elem_of_In.
    by destruct (proj1 Hl eq_refl) as [?|?].
  - apply bool_decide_eq_false. intros Hin. apply list_elem_of_In in Hin.
    assert (false = true) by (apply Hl; by left). done.
Qed.

(** [FilterByCategories] changes nothing for the empty string; otherwise
    it keeps the rules whose category is one of the names, trimmed, that
    the commas separate.  It is idempotent and commutes with
    [FilterBySeverity]. *)
Theorem FilterByCategories_laws `{UnicodeTables} (c : Config)
    (categories : gostring) (minSeverity : Severity) :
  FilterByCategories c [] = c
  /\ FilterByCategories (FilterByCategories c categories) categories
     = FilterByCategories c categories
  /\ FilterBySeverity (FilterByCategories c categories) minSeverity
     = FilterByCategories (FilterBySeverity c minSeverity) categories
  /\ (categories <> [] ->
      forall r, In r (all_rules (FilterByCategories c categories))
                <-> In r (all_rules c)
                    /\ In (cfg_Category r) (named_categories categories)).
Proof.
  split; [reflexivity|].
  destruct (decide (categories = [])) as [->|Hne].
  - split; [reflexivity|]. split; [reflexivity|done].
  - rewrite !(FilterByCategories_keep _ _ Hne). unfold FilterBySeverity.
    split; [|split].
    + rewrite keep_rules_twice. apply keep_rules_ext. intros r.
      by destruct (bool_decide _).
    + rewrite !keep_rules_twice. apply keep_rules_ext. intros r.
      apply andb_comm.
    + intros _ r. rewrite all_rules_keep.
      by rewrite bool_decide_eq_true, list_elem_of_In.
Qed.

(** ** The rules of a language *)

Lemma rules_of_language_find (ls : list LanguageRules) (language : gostring) :
  rules_of_language ls language
  = match List.find (fun lr => gostring_eqb (lr_Language lr) language) ls with
    | Some lr => List.filter cfg_Enabled (lr_Rules lr)
    | None => []
    end.
Proof.
  induction ls as [|lr ls IH]; [done|]. cbn [rules_of_language List.find].
  destruct (gostring_eqb (lr_Language lr) language); [|exact IH].
  apply (keep_loop cfg_Enabled).
Qed.

Lemma enabled_rule_id (r : RuleConfig) :
  cfg_Enabled r = true -> enabled_rule r = r.
Proof. destruct r. cbn. by intros ->. Qed.

(** After the defaults of [LoadConfig], [GetRulesForLanguage] gives, from
    the first entry of the language, every rule that has an ID, enabled,
    whatever the file says of it; a rule without ID is given when the
    file enables it.  Without an entry the result is empty. *)
Theorem GetRulesForLanguage_defaults (c : Config) (language : gostring) :
  GetRulesForLanguage (LoadConfig_defaults c) language
  = match first_entry c language with
    | Some lr =>
      List.map enabled_rule
        (List.filter (fun r => cfg_Enabled r
                               || negb (gostring_eqb (cfg_ID r) []))
                     (lr_Rules lr))
    | None => []
    end.
Proof.
  unfold GetRulesForLanguage, first_entry, LoadConfig_defaults.
  cbn [conf_Languages]. rewrite rules_of_language_find.
  induction (conf_Languages c) as [|lr ls IH]; [done|].
  cbn [List.map List.find lr_Language].
  destruct (gostring_eqb (lr_Language lr) language); [|exact IH].
  cbn [lr_Rules]. clear IH.
  induction (lr_Rules lr) as [|r rs IHr]; [done|].
  cbn [List.map List.filter].
  destruct (cfg_Enabled r) eqn:Er; cbn [negb andb orb].
  - rewrite Er. cbn [List.map]. by rewrite IHr, enabled_rule_id.
  - destruct (gostring_eqb (cfg_ID r) []); cbn [negb cfg_Enabled].
    + by rewrite Er.
    + cbn [List.map]. by rewrite IHr.
Qed.

(** ** All categories *)

Lemma category_keys (rules : list RuleConfig) (k : gostring) :
  forall m : gmap gostring bool,
    is_Some (List.fold_left (fun m rule => <[cfg_Category rule := true]> m)
                            rules m !! k)
    <-> is_Some (m !! k) \/ In k (List.map cfg_Category rules).
Proof.
  induction rules as [|r rules IH]; intros m; cbn [List.fold_left List.map In].
  - tauto.
  - rewrite IH. destruct (decide (cfg_Category r = k)) as [->|Hne].
    + rewrite lookup_insert_eq. split; [by right; left|by left].
    + rewrite lookup_insert_ne by done. tauto.
Qed.

Lemma language_keys (ls : list LanguageRules) (k : gostring) :
  forall m : gmap gostring bool,
    is_Some (List.fold_left
               (fun m langRules =>
                  List.fold_left (fun m rule => <[cfg_Category rule := true]> m)
                                 (lr_Rules langRules) m)
               ls m !! k)
    <-> is_Some (m !! k)
        \/ In k (List.map cfg_Category (List.flat_map lr_Rules ls)).
Proof.
  induction ls as [|lr ls IH]; intros m; cbn [List.fold_left List.flat_map].
  - cbn [List.map In]. tauto.
  - rewrite IH, category_keys, List.map_app, List.in_app_iff. tauto.
Qed.

(** [GetAllCategories] lists every category that some rule of the
    configuration has, once, in whatever order the map gives. *)
Theorem GetAllCategories_complete `{KeyOrder} (c : Config) :
  List.NoDup (GetAllCategories c)
  /\ forall k, In k (GetAllCategories c)
               <-> exists r, In r (all_rules c) /\ cfg_Category r = k.
Proof.
  unfold GetAllCategories. rewrite fold_left_push_map. cbn [app].
  rewrite List.map_id.
  set (m := List.fold_left _ (conf_Languages c) ∅).
  pose proof (range_keys_perm m) as P. split.
  - apply NoDup_ListNoDup. rewrite P. apply NoDup_fst_map_to_list.
  - intros k. rewrite <- list_elem_of_In, P, list_elem_of_In.
    assert (E : In k (List.map fst (map_to_list m)) <-> is_Some (m !! k)).
    { rewrite <- list_elem_of_In. rewrite list_elem_of_fmap. split.
      - intros ([k' v] & -> & Hin). apply elem_of_map_to_list in Hin.
        by exists v.
      - intros [v Hv]. exists (k, v). split; [done|].
        by apply elem_of_map_to_list. }
    rewrite E. unfold m. rewrite language_keys, lookup_empty.
    unfold all_rules. rewrite List.in_map_iff. split.
    + intros [[? ?]|(r & <- & Hr)]; [done|by exists r].
    + intros (r & Hr & <-). right. by exists r.
Qed.

Lemma GetAllCategories_complete_witness :
  List.NoDup (@GetAllCategories listed_keys sample_configuration)
  /\ In (B "style") (@GetAllCategories listed_keys sample_configuration).
Proof.
  destruct (@GetAllCategories_complete listed_keys sample_configuration)
    as [Hn Hi].
  split; [exact Hn|]. apply Hi.
  exists (sample_rule "" "style" "low" false). split; [|reflexivity].
  vm_compute. tauto.
Defined.

(** ** Lines and positions *)

Lemma Split_length (s : gostring) (sep : N) :
  length (Split s sep) = S (Count s sep).
Proof.
  unfold Count. induction s as [|b s IH]; [done|].
  cbn [Split List.filter]. destruct (b =? sep); cbn [length].
  - by rewrite IH.
  - destruct (Split s sep) as [|l ls]; cbn [length] in *; lia.
Qed.

Lemma Join_cons (e : gostring) (rest : list gostring) (sep : gostring) :
  rest <> [] -> Join (e :: rest) sep = e ++ sep ++ Join rest sep.
Proof. by destruct rest. Qed.

Lemma Join_Split (s : gostring) (sep : N) : Join (Split s sep) [sep] = s.
Proof.
  induction s as [|b s IH]; [done|]. cbn [Split].
  pose proof (Split_nonempty s sep) as Hne.
  destruct (N.eqb_spec b sep) as [->|_].
  - rewrite Join_cons by done. by rewrite IH.
  - destruct (Split s sep) as [|l ls]; [done|].
    destruct ls as [|l' ls'].
    + cbn [Join] in *. by rewrite IH.
    + rewrite Join_cons in IH by done. rewrite Join_cons by done.
      by rewrite <- IH.
Qed.

(** The lines of a text cut in two: the last line of the first part and
    the first line of the second part are one line of the whole. *)
Lemma Split_app (x y : gostring) (sep : N) :
  Split (x ++ y) sep
  = removelast (Split x sep)
    ++ (List.last (Split x sep) [] ++ hd [] (Split y sep))
    :: tl (Split y sep).
Proof.
  induction x as [|b x IH].
  - cbn [app Split removelast List.last].
    pose proof (Split_nonempty y sep). by destruct (Split y sep).
  - cbn [app Split]. rewrite IH. pose proof (Split_nonempty x sep) as Hne.
    destruct (b =? sep).
    + destruct (Split x sep) as [|l ls]; [done|]. reflexivity.
    + destruct (Split x sep) as [|l ls]; [done|].
      destruct ls as [|l' ls']; reflexivity.
Qed.

Lemma removelast_length {A} (l : list A) :
  length (removelast l) = Nat.pred (length l).
Proof.
  induction l as [|a l IH]; [done|]. destruct l; [done|].
  cbn [removelast length] in *. by rewrite IH.
Qed.

(** The line and the column of a position say where it is: the text
    before the position is made of the lines before that line and of the
    bytes before that column in it.  Both are counted from 1, and the
    column counts bytes. *)
Theorem position_line_column (content : gostring) (pos : nat) :
  (pos <= length content)%nat ->
  let lines := Split content LF in
  let line := Z.to_nat (getLineNumberFromPosition content pos) in
  let column := Z.to_nat (getColumnFromPosition content pos) in
  (1 <= line <= length lines)%nat
  /\ (1 <= column <= length (nth (line - 1) lines []) + 1)%nat
  /\ firstn pos content
     = Join (firstn (line - 1) lines
             ++ [firstn (column - 1) (nth (line - 1) lines [])]) [LF]
  /\ getLineNumber content pos = getLineNumberFromPosition content pos.
Proof.
  intros Hpos lines line column.
  set (x := firstn pos content). set (y := skipn pos content).
  assert (Ec : content = x ++ y) by (symmetry; apply firstn_skipn).
  assert (El : line = length (Split x LF)).
  { unfold line, getLineNumberFromPosition. fold x.
    rewrite Nat2Z.id, Split_length. lia. }
  assert (Ecol : column = S (length (List.last (Split x LF) []))).
  { unfold column, getColumnFromPosition. fold x. rewrite Nat2Z.id. lia. }
  pose proof (Split_nonempty x LF) as Hx.
  assert (Elines : lines = removelast (Split x LF)
                           ++ (List.last (Split x LF) [] ++ hd [] (Split y LF))
                           :: tl (Split y LF)).
  { unfold lines. rewrite Ec at 1. apply Split_app. }
  assert (Hlen : length (removelast (Split x LF)) = (line - 1)%nat).
  { rewrite removelast_length, El. lia. }
  assert (Hline : (1 <= line)%nat).
  { rewrite El. destruct (Split x LF); [done|]. cbn [length]. lia. }
  assert (Enth : nth (line - 1) lines []
                 = List.last (Split x LF) [] ++ hd [] (Split y LF)).
  { rewrite Elines, <- Hlen. by rewrite List.nth_middle. }
  assert (Efirst : firstn (line - 1) lines = removelast (Split x LF)).
  { rewrite Elines, <- Hlen. by rewrite take_app_length. }
  split; [|split; [|split]].
  - split; [done|]. rewrite Elines, length_app. cbn [length]. lia.
  - rewrite Enth, Ecol, length_app. lia.
  - rewrite Efirst, Enth, Ecol.
    replace (S (length (List.last (Split x LF) [])) - 1)%nat
      with (length (List.last (Split x LF) [])) by lia.
    rewrite take_app_length.
    rewrite <- (List.app_removelast_last [] Hx).
    apply eq_sym, Join_Split.
  - reflexivity.
Qed.

Lemma position_line_column_witness :
  let content := B "class A {" ++ LF :: B "  int x;" ++ [LF] in
  getLineNumberFromPosition content 16 = 2%Z
  /\ getColumnFromPosition content 16 = 7%Z
  /\ firstn 16 content = Join [B "class A {"; B "  int "] [LF].
Proof.
  intros content.
  destruct (position_line_column content 16) as (_ & _ & E & _);
    [vm_compute; lia|].
  assert (E1 : getLineNumberFromPosition content 16 = 2%Z)
    by (vm_compute; reflexivity).
  assert (E2 : getColumnFromPosition content 16 = 7%Z)
    by (vm_compute; reflexivity).
  split; [exact E1|]. split; [exact E2|].
  rewrite E, E1, E2. vm_compute. reflexivity.
Defined.

(** ** Literal patterns *)

Lemma HasPrefix_spec (s p : gostring) :
  HasPrefix s p = true <-> exists r, s = p ++ r.
Proof.
  revert s. induction p as [|c p IH]; intros s.
  - rewrite HasPrefix_nil. split; [by exists s|done].
  - destruct s as [|d s]; cbn [HasPrefix].
    + split; [done|]. by intros [r ?].
    + rewrite andb_true_iff, N.eqb_eq, IH. split.
      * intros [-> [r ->]]. by exists r.
      * intros [r E]. injection E as -> ->. split; [done|by exists r].
Qed.

Lemma lit_runes_cons (c : N) (text : list N) :
  lit_runes (c :: text) = Cat (Cls (is_c c)) (lit_runes text).
Proof. reflexivity. Qed.

Lemma ms_lit (text : list N) :
  forall prev s,
    ms (lit_runes text) prev s
    = if HasPrefix s text
      then [(last_rune prev text, skipn (length text) s)] else [].
Proof.
  induction text as [|c text IH]; intros prev s.
  - by rewrite HasPrefix_nil.
  - rewrite lit_runes_cons, ms_Cls_cat. destruct s as [|d s]; [done|].
    cbn [HasPrefix]. unfold is_c. destruct (N.eqb_spec d c) as [->|_]; [|done].
    cbn [andb]. by rewrite IH.
Qed.

Lemma ms_lit_cat (text : list N) (X : regex) prev s :
  ms (Cat (lit_runes text) X) prev s
  = if HasPrefix s text
    then ms X (last_rune prev text) (skipn (length text) s) else [].
Proof.
  cbn [ms]. rewrite ms_lit. destruct (HasPrefix s text); [|done].
  cbn [List.flat_map fst snd]. by rewrite app_nil_r.
Qed.

Lemma match_here_lit (text : list N) prev s :
  match_here (lit_runes text) prev s
  = if HasPrefix s text then Some (length text) else None.
Proof.
  unfold match_here. rewrite ms_lit.
  destruct (HasPrefix s text) eqn:E; [|done]. f_equal.
  apply HasPrefix_spec in E. destruct E as [r ->].
  rewrite drop_app_length, length_app. lia.
Qed.

Lemma find_all_ext (r1 r2 : regex) :
  (forall prev s, match_here r1 prev s = match_here r2 prev s) ->
  forall s prev pos skip adj,
    find_all_from r1 prev s pos skip adj = find_all_from r2 prev s pos skip adj.
Proof.
  intros E. induction s as [|c s IH]; intros prev pos skip adj;
    destruct skip as [|k]; cbn [find_all_from]; rewrite ?E, ?IH; try done.
  destruct (match_here r2 prev (c :: s)) as [[|n]|]; by rewrite ?IH.
Qed.

Lemma app_prefix_le {A} (u r t r' : list A) :
  u ++ r = t ++ r' -> (length u <= length t)%nat -> exists w, t = u ++ w.
Proof.
  revert t. induction u as [|a u IH]; intros t E Hl; [by exists t|].
  destruct t as [|b t]; [cbn [length] in Hl; lia|].
  cbn [app length] in E, Hl. injection E as -> E.
  destruct (IH t E ltac:(lia)) as [w ->]. by exists w.
Qed.

Lemma borderless_skip (text s : gostring) (d : nat) :
  borderless text = true -> HasPrefix s text = true ->
  (0 < d < length text)%nat -> HasPrefix (skipn d s) text = false.
Proof.
  intros Hb Hs Hd. apply HasPrefix_spec in Hs. destruct Hs as [r ->].
  destruct (HasPrefix (skipn d (text ++ r)) text) eqn:E; [|done]. exfalso.
  unfold borderless in Hb. rewrite forallb_forall in Hb.
  specialize (Hb d). rewrite List.in_seq in Hb.
  specialize (Hb ltac:(lia)). apply negb_true_iff in Hb.
  assert (Ht : HasPrefix text (skipn d text) = true); [|congruence].
  apply HasPrefix_spec in E. destruct E as [r' E].
  rewrite drop_app_le in E by lia.
  apply HasPrefix_spec. apply (app_prefix_le _ r _ r'); [done|].
  rewrite length_skipn. lia.
Qed.

(** The matches of a borderless text are its occurrences. *)
Lemma find_all_lit (text : list N) :
  text <> [] -> borderless text = true ->
  forall s prev pos skip adj,
    (forall d, (d < skip)%nat -> HasPrefix (skipn d s) text = false) ->
    find_all_from (lit_runes text) prev s pos skip adj
    = List.map (fun p => (p, (p + length text)%nat)) (occurrences s text pos).
Proof.
  intros Hne Hb. induction s as [|c s IH]; intros prev pos skip adj Hskip.
  - destruct skip; cbn [find_all_from occurrences List.map]; [|done].
    rewrite match_here_lit. by destruct text.
  - destruct skip as [|k]; cbn [find_all_from occurrences].
    + rewrite match_here_lit. destruct (HasPrefix (c :: s) text) eqn:E.
      * destruct text as [|t0 text']; [done|]. cbn [length app List.map].
        f_equal. apply IH. intros d Hd.
        apply (borderless_skip _ (c :: s) (S d) Hb E). cbn [length]. lia.
      * cbn [app]. apply IH. intros d Hd. lia.
    + rewrite (Hskip 0%nat ltac:(lia) : HasPrefix (c :: s) text = false).
      cbn [app]. apply IH. intros d Hd. apply (Hskip (S d)). lia.
Qed.

(** ** Runes and their bytes *)

Lemma DecodeRune_high (b0 : N) (t : gostring) :
  128 <= b0 ->
  Forall (fun b => 128 <= b) (firstn (snd (DecodeRune (b0 :: t))) (b0 :: t)).
Proof.
  intros Hb. destruct t as [|b1 [|b2 [|b3 t]]];
    unfold DecodeRune, is_cont;
    repeat (match goal with
            | |- context [if ?c then _ else _] => destruct c eqn:?
            end); cbn [snd firstn];
    repeat constructor; bool_to_prop; try lia;
    repeat match goal with
           | H : (if ?c then _ else _) <= _ |- _ => destruct c
           end; lia.
Qed.

Lemma chunks_from_ok (s : gostring) :
  forall skip, Forall chunk_ok (chunks_from s skip).
Proof.
  induction s as [|c s IH]; intros skip; [constructor|].
  destruct skip as [|k]; cbn [chunks_from]; [|apply IH].
  pose proof (DecodeRune_rune c s) as Hr.
  pose proof (DecodeRune_high c s) as Hh.
  pose proof (DecodeRune_width (c :: s) ltac:(done)) as Hw.
  destruct (DecodeRune (c :: s)) as [r w] eqn:E. cbn [fst snd] in *.
  constructor; [|apply IH]. unfold chunk_ok. cbn [fst snd].
  destruct Hr as [[-> Hc]|Hr].
  - left. split; [done|]. unfold DecodeRune in E. apply N.ltb_lt in Hc.
    rewrite Hc in E. by injection E as <-.
  - right. split; [done|].
    assert (Hc : 128 <= c).
    { destruct (N.ltb_spec c 128) as [Hlt|]; [|done].
      unfold DecodeRune in E. apply N.ltb_lt in Hlt. rewrite Hlt in E.
      injection E as <- <-. apply N.ltb_lt in Hlt. lia. }
    split; [|by apply Hh]. destruct w; [lia|done].
Qed.

Lemma chunk_bytes_cons (c : chunk) (cs : list chunk) :
  chunk_bytes (c :: cs) = snd c ++ chunk_bytes cs.
Proof. reflexivity. Qed.

Lemma byte_pos_chunk_bytes (cs : list chunk) (k : nat) :
  byte_pos cs k = length (chunk_bytes (firstn k cs)).
Proof. reflexivity. Qed.

Section AsciiText.
Variable text : gostring.
Hypothesis text_ascii : Forall (fun b => b < 128) text.
Hypothesis text_nonempty : text <> [].

Lemma high_no_prefix (b : N) (s : gostring) :
  128 <= b -> HasPrefix (b :: s) text = false.
Proof.
  intros Hb. destruct text_ascii as [|c text' Hc _]; [done|].
  cbn [HasPrefix]. destruct (N.eqb_spec b c); [lia|done].
Qed.

Lemma prefix_chunks (cs : list chunk) :
  Forall chunk_ok cs ->
  HasPrefix (List.map fst cs) text = HasPrefix (chunk_bytes cs) text.
Proof.
  clear text_nonempty. revert cs.
  induction text_ascii as [|c text' Hc Hall IH]; intros cs Hcs.
  - by rewrite !HasPrefix_nil.
  - destruct Hcs as [|[r bs] cs [[Hr Hbs]|(Hr & Hne & Hhigh)] Hcs];
      [done|..]; cbn [fst snd] in *.
    + subst bs. rewrite chunk_bytes_cons. cbn [List.map fst snd app HasPrefix].
      by rewrite IH.
    + rewrite chunk_bytes_cons. cbn [List.map fst snd HasPrefix].
      destruct bs as [|b bs]; [done|]. inversion Hhigh; subst.
      cbn [app HasPrefix].
      destruct (N.eqb_spec r c); [lia|]. by destruct (N.eqb_spec b c); [lia|].
Qed.

Lemma prefix_bytes_length (cs : list chunk) :
  Forall chunk_ok cs -> HasPrefix (List.map fst cs) text = true ->
  length (chunk_bytes (firstn (length text) cs)) = length text.
Proof.
  clear text_nonempty. revert cs.
  induction text_ascii as [|c text' Hc Hall IH]; intros cs Hcs Hp; [done|].
  destruct Hcs as [|[r bs] cs Hok Hcs]; [done|].
  cbn [List.map fst HasPrefix] in Hp. apply andb_true_iff in Hp.
  destruct Hp as [Hrc Hp]. apply N.eqb_eq in Hrc. subst r.
  destruct Hok as [[_ Hbs]|[Hr _]]; cbn [fst snd] in *; [|lia]. subst bs.
  cbn [length firstn]. rewrite chunk_bytes_cons. cbn [snd app length].
  by rewrite IH.
Qed.

Lemma occurrences_ge (s : gostring) :
  forall pos p, In p (occurrences s text pos) -> (pos <= p)%nat.
Proof.
  induction s as [|c s IH]; intros pos p Hin; [done|].
  cbn [occurrences] in Hin. apply List.in_app_or in Hin.
  destruct Hin as [Hin|Hin].
  - destruct (HasPrefix (c :: s) text); [|done]. destruct Hin as [<-|[]]. lia.
  - apply IH in Hin. lia.
Qed.

Lemma occurrences_high (bs t : gostring) (pos : nat) :
  Forall (fun b => 128 <= b) bs ->
  occurrences (bs ++ t) text pos = occurrences t text (pos + length bs).
Proof.
  intros Hbs. revert pos. induction Hbs as [|b bs Hb _ IH]; intros pos.
  - cbn [app length]. by rewrite Nat.add_0_r.
  - cbn [app occurrences length]. rewrite high_no_prefix by done.
    cbn [app]. rewrite IH. f_equal. lia.
Qed.

Lemma occurrences_chunks (cs : list chunk) :
  Forall chunk_ok cs ->
  forall rp bp,
    List.map (fun p => ((bp + byte_pos cs (p - rp))%nat,
                        (bp + byte_pos cs (p + length text - rp))%nat))
             (occurrences (List.map fst cs) text rp)
    = List.map (fun q => (q, (q + length text)%nat))
               (occurrences (chunk_bytes cs) text bp).
Proof.
  induction 1 as [|[r bs] cs Hok Hcs IH]; intros rp bp; [done|].
  assert (Hshift : forall bp',
             (bp' = bp + length bs)%nat ->
             List.map (fun p => ((bp + byte_pos ((r, bs) :: cs) (p - rp))%nat,
                                 (bp + byte_pos ((r, bs) :: cs)
                                         (p + length text - rp))%nat))
                      (occurrences (List.map fst cs) text (S rp))
             = List.map (fun q => (q, (q + length text)%nat))
                        (occurrences (chunk_bytes cs) text bp')).
  { intros bp' ->. rewrite <- (IH (S rp)). apply List.map_ext_in.
    intros p Hp. apply occurrences_ge in Hp.
    replace (p - rp)%nat with (S (p - S rp)) by lia.
    replace (p + length text - rp)%nat with (S (p + length text - S rp)) by lia.
    rewrite !byte_pos_chunk_bytes. cbn [firstn].
    rewrite !chunk_bytes_cons, !length_app. cbn [snd]. f_equal; lia. }
  cbn [List.map fst occurrences]. rewrite List.map_app.
  destruct Hok as [[Hr Hbs]|(Hr & Hne & Hhigh)]; cbn [fst snd] in *.
  - subst bs. rewrite chunk_bytes_cons. cbn [snd app occurrences].
    rewrite List.map_app. rewrite (Hshift (S bp)) by (cbn [length]; lia).
    f_equal.
    change (r :: List.map fst cs) with (List.map fst ((r, [r]) :: cs)).
    change (r :: chunk_bytes cs) with (chunk_bytes ((r, [r]) :: cs)).
    assert (Hall : Forall chunk_ok ((r, [r]) :: cs)).
    { constructor; [|done]. by left. }
    rewrite <- (prefix_chunks _ Hall).
    destruct (HasPrefix _ text) eqn:Ep; [|done]. cbn [List.map].
    rewrite Nat.sub_diag.
    replace (rp + length text - rp)%nat with (length text) by lia.
    rewrite !byte_pos_chunk_bytes, (prefix_bytes_length _ Hall Ep).
    cbn [firstn chunk_bytes List.map List.concat length]. do 2 f_equal. lia.
  - destruct bs as [|b bs]; [done|]. inversion Hhigh; subst.
    assert (HasPrefix (r :: List.map fst cs) text = false) as ->
      by (by apply high_no_prefix).
    cbn [List.map app]. rewrite chunk_bytes_cons. cbn [snd].
    rewrite occurrences_high by done. by apply Hshift.
Qed.

(** The matches of a borderless text of ASCII bytes are its occurrences
    in the string, as byte offsets. *)
Lemma FindAllStringIndex_literal (content : gostring) :
  borderless text = true ->
  FindAllStringIndex (lit_runes text) content
  = List.map (fun q => (q, (q + length text)%nat))
             (occurrences content text 0).
Proof.
  intros Hb. unfold FindAllStringIndex.
  rewrite (find_all_lit text text_nonempty Hb).
  2:{ intros d Hd. exfalso. lia. }
  rewrite List.map_map. cbn [fst snd].
  pose proof (occurrences_chunks (chunks content) (chunks_from_ok content 0)
                0%nat 0%nat) as E.
  rewrite chunk_bytes_chunks in E. rewrite <- E.
  apply List.map_ext. intros p. rewrite !Nat.sub_0_r. reflexivity.
Qed.

End AsciiText.

Lemma HasPrefix_app (s a b : gostring) :
  HasPrefix s (a ++ b) = HasPrefix s a && HasPrefix (skipn (length a) s) b.
Proof.
  revert s. induction a as [|c a IH]; intros s.
  - by rewrite HasPrefix_nil.
  - destruct s as [|d s]; cbn [app HasPrefix length skipn].
    + by destruct (a ++ b).
    + rewrite IH. by rewrite andb_assoc.
Qed.

Lemma systemOutRegex_match prev (s : list N) :
  match_here SystemOutRule.systemOutRegex prev s
  = match_here (lit_runes (B "System.out.print")) prev s.
Proof.
  rewrite match_here_lit.
  change (B "System.out.print") with (B "System.out." ++ B "print").
  rewrite HasPrefix_app.
  unfold match_here, SystemOutRule.systemOutRegex, rcat, alts, lit.
  cbn [List.fold_right List.fold_left]. rewrite ms_lit_cat.
  destruct (HasPrefix s (B "System.out.")) eqn:E1; [|done]. cbn [andb].
  cbn [ms]. rewrite !ms_lit.
  change (B "println") with (B "print" ++ B "ln"). rewrite HasPrefix_app.
  destruct (HasPrefix (skipn (length (B "System.out.")) s) (B "print")) eqn:E2;
    [|done].
  cbn [andb app List.flat_map fst snd]. f_equal.
  apply HasPrefix_spec in E1. destruct E1 as [r1 ->].
  rewrite drop_app_length in E2 |- *.
  apply HasPrefix_spec in E2. destruct E2 as [r2 ->].
  rewrite drop_app_length, !length_app. lia.
Qed.

Lemma systemOutRegex_matches (content : gostring) :
  FindAllStringIndex SystemOutRule.systemOutRegex content
  = List.map (fun q => (q, (q + 16)%nat))
             (occurrences content (B "System.out.print") 0).
Proof.
  rewrite <- (FindAllStringIndex_literal (B "System.out.print"));
    [|repeat constructor|done|reflexivity].
  unfold FindAllStringIndex. f_equal. apply find_all_ext.
  apply systemOutRegex_match.
Qed.

(** [SystemOutRule.Check] reports the occurrences of the text
    [System.out.print] in the file, each once and in the order of their
    positions, whatever follows the text ([ln], [f], ...). *)
Theorem SystemOutRule_occurrences `{UnicodeTables} (cfg : RuleConfig)
    (file : ParsedFile) :
  SystemOutRule.Check cfg file
  = List.map (SystemOutRule.issue_for cfg file)
             (occurrences (Content file) (B "System.out.print") 0).
Proof.
  unfold SystemOutRule.Check.
  rewrite fold_left_push_map, systemOutRegex_matches. cbn [app].
  by rewrite List.map_map.
Qed.

(** [ExceptionHandlingRule.Check] starts with one finding for each
    occurrence of the text [.printStackTrace()], in the order of their
    positions; no later finding has that message. *)
Theorem ExceptionHandlingRule_traces `{UnicodeTables} (cfg : RuleConfig)
    (file : ParsedFile) :
  let message := B "printStackTrace() 사용이 발견되었습니다" in
  exists rest,
    ExceptionHandlingRule.Check cfg file
    = List.map (ExceptionHandlingRule.text_issue cfg file message
                  (B "예외 스택트레이스가 콘솔에 노출되어 보안 위험이 있습니다")
                  (B "Logger를 사용하여 적절한 로깅을 하세요"))
               (occurrences (Content file) (B ".printStackTrace()") 0)
      ++ rest
    /\ Forall (fun issue => Message issue <> message) rest.
Proof.
  intros message. unfold ExceptionHandlingRule.Check.
  rewrite !fold_left_push_map. cbn [app].
  unfold ExceptionHandlingRule.printStackTraceRegex, lit.
  rewrite (FindAllStringIndex_literal (B ".printStackTrace()"));
    [|repeat constructor|done|reflexivity].
  rewrite List.map_map. cbn [fst].
  set (traces := List.map _ (occurrences _ _ _)).
  set (throws := List.map _ (FindAllStringIndex ExceptionHandlingRule.throwRegex _)).
  assert (Hthrows : Forall (fun issue => Message issue <> message) throws).
  { apply List.Forall_map. apply List.Forall_forall. intros m _.
    cbn [Message ExceptionHandlingRule.text_issue]. by vm_compute. }
  destruct (file_AST file) as [|c| |];
    try (exists throws; split; [reflexivity|exact Hthrows]).
  destruct (isController c && negb _).
  - eexists. split; [by rewrite <- app_assoc|].
    apply List.Forall_app. split; [exact Hthrows|].
    constructor; [|constructor]. cbn [Message]. by vm_compute.
  - exists throws. split; [reflexivity|exact Hthrows].
Qed.

Lemma SystemOutRule_occurrences_witness :
  occurrences (Content printing_file) (B "System.out.print") 0
  = [13; 36]%nat
  /\ List.map Line (@SystemOutRule.Check plain_tables sample_config
                      printing_file) = [2; 2]%Z
  /\ List.map Column (@SystemOutRule.Check plain_tables sample_config
                        printing_file) = [3; 26]%Z.
Proof.
  rewrite (@SystemOutRule_occurrences plain_tables sample_config
             printing_file).
  vm_compute. repeat split; reflexivity.
Defined.

(** ** What a match holds *)

Lemma star_c_consumed (p : N -> bool) (s : list N) :
  forall prev cur, In cur (star_c p prev s) ->
    exists u, s = u ++ snd cur /\ Forall (fun c => p c = true) u.
Proof.
  induction s as [|c s IH]; intros prev cur Hin; cbn [star_c] in Hin.
  - destruct Hin as [<-|[]]. by exists [].
  - destruct (p c) eqn:Ep.
    + apply List.in_app_iff in Hin. destruct Hin as [Hin|[<-|[]]].
      * destruct (IH _ _ Hin) as (u & E & Hu). exists (c :: u).
        split; [by rewrite E at 1|by constructor].
      * by exists [].
    + destruct Hin as [<-|[]]. by exists [].
Qed.

Lemma ms_consumed (r : regex) :
  forall prev s cur, In cur (ms r prev s) ->
    exists u, s = u ++ snd cur /\ (min_len r <= length u)%nat
              /\ Forall (fun c => may_hold r c = true) u.
Proof.
  induction r as [|p|a IHa b IHb|a IHa b IHb|p|]; intros prev s cur Hin;
    cbn [ms min_len may_hold] in *.
  - destruct Hin as [<-|[]]. exists []. by repeat split; [lia|constructor].
  - destruct s as [|c s]; [done|]. destruct (p c) eqn:Ep; [|done].
    destruct Hin as [<-|[]]. exists [c]. repeat split; [done|].
    by repeat constructor.
  - apply List.in_flat_map in Hin. destruct Hin as (x & H1 & H2).
    destruct (IHa _ _ _ H1) as (u1 & E1 & L1 & F1).
    destruct (IHb _ _ _ H2) as (u2 & E2 & L2 & F2).
    exists (u1 ++ u2). rewrite E1, E2, length_app, <- app_assoc.
    split; [done|]. split; [lia|]. apply Forall_app. split.
    + eapply Forall_impl; [exact F1|]. cbn. by intros c ->.
    + eapply Forall_impl; [exact F2|]. cbn. intros c ->. apply orb_true_r.
  - apply List.in_app_iff in Hin. destruct Hin as [Hin|Hin].
    + destruct (IHa _ _ _ Hin) as (u & E & L & F). exists u.
      split; [done|]. split; [lia|].
      eapply Forall_impl; [exact F|]. cbn. by intros c ->.
    + destruct (IHb _ _ _ Hin) as (u & E & L & F). exists u.
      split; [done|]. split; [lia|].
      eapply Forall_impl; [exact F|]. cbn. intros c ->. apply orb_true_r.
  - destruct (star_c_consumed _ _ _ _ Hin) as (u & E & F). exists u.
    split; [done|]. split; [lia|done].
  - destruct (xorb _ _); [|done]. destruct Hin as [<-|[]]. exists [].
    by repeat split; [lia|constructor].
Qed.

Lemma match_here_consumed (r : regex) prev s n :
  match_here r prev s = Some n ->
  exists u w, s = u ++ w /\ length u = n /\ (min_len r <= n)%nat
              /\ Forall (fun c => may_hold r c = true) u.
Proof.
  unfold match_here. destruct (ms r prev s) as [|cur tl] eqn:E; [done|].
  destruct cur as [q s']. intros [= <-].
  destruct (ms_consumed r prev s (q, s')) as (u & Es & L & F);
    [rewrite E; by left|].
  cbn [snd] in Es. exists u, s'. rewrite Es, length_app.
  repeat split; [lia|lia|done].
Qed.

(** Every match that is found is the preferred match at its position. *)
Lemma find_all_In (r : regex) (v : list N) :
  forall prev pos skip adj x y,
    In (x, y) (find_all_from r prev v pos skip adj) ->
    exists u w,
      v = u ++ w /\ x = (pos + length u)%nat
      /\ match_here r (last_rune prev u) w = Some (y - x)%nat
      /\ (x <= y)%nat.
Proof.
  assert (Hcons : forall (c : N) (v' : list N) prev pos x y,
             (exists u w, v' = u ++ w /\ x = (S pos + length u)%nat
                /\ match_here r (last_rune (Some c) u) w = Some (y - x)%nat
                /\ (x <= y)%nat) ->
             exists u w, c :: v' = u ++ w /\ x = (pos + length u)%nat
                /\ match_here r (last_rune prev u) w = Some (y - x)%nat
                /\ (x <= y)%nat).
  { intros c v' prev pos x y (u & w & -> & -> & Hm & Hle).
    exists (c :: u), w. cbn [length app]. repeat split; [lia|done|lia]. }
  assert (Hhere : forall (v' : list N) prev pos n,
             match_here r prev v' = Some n ->
             exists u w, v' = u ++ w /\ pos = (pos + length u)%nat
                /\ match_here r (last_rune prev u) w
                   = Some (pos + n - pos)%nat
                /\ (pos <= pos + n)%nat).
  { intros v' prev pos n Hm. exists [], v'. cbn [length app].
    replace (pos + n - pos)%nat with n by lia.
    repeat split; [lia|done|lia]. }
  induction v as [|c v IH]; intros prev pos skip adj x y Hin.
  - destruct skip; cbn [find_all_from] in Hin; [|done].
    destruct (match_here r prev []) as [[|n]|] eqn:Em.
    + destruct adj; cbn [app] in Hin; [done|].
      destruct Hin as [[= <- <-]|[]].
      destruct (Hhere _ _ pos _ Em) as (u & w & H). exists u, w.
      by rewrite Nat.add_0_r in H.
    + destruct Hin as [[= <- <-]|[]]. by apply Hhere.
    + done.
  - destruct skip as [|k]; cbn [find_all_from] in Hin.
    + destruct (match_here r prev (c :: v)) as [[|n]|] eqn:Em.
      * apply List.in_app_iff in Hin. destruct Hin as [Hin|Hin].
        -- destruct adj; [done|]. destruct Hin as [[= <- <-]|[]].
           destruct (Hhere _ _ pos _ Em) as (u & w & H). exists u, w.
           by rewrite Nat.add_0_r in H.
        -- apply Hcons. by apply (IH _ _ _ _ _ _ Hin).
      * destruct Hin as [[= <- <-]|Hin]; [by apply Hhere|].
        apply Hcons. by apply (IH _ _ _ _ _ _ Hin).
      * apply Hcons. by apply (IH _ _ _ _ _ _ Hin).
    + apply Hcons. by apply (IH _ _ _ _ _ _ Hin).
Qed.

Lemma chunk_bytes_app (a b : list chunk) :
  chunk_bytes (a ++ b) = chunk_bytes a ++ chunk_bytes b.
Proof. unfold chunk_bytes. by rewrite List.map_app, List.concat_app. Qed.

(** The chunks of ASCII runes are the runes. *)
Lemma chunk_bytes_ascii (cs : list chunk) :
  Forall chunk_ok cs -> Forall (fun c => c < 128) (List.map fst cs) ->
  chunk_bytes cs = List.map fst cs.
Proof.
  induction 1 as [|c cs Hc _ IH]; [done|]. cbn [List.map].
  intros Ha. apply Forall_cons in Ha. destruct Ha as [Ha1 Ha2].
  rewrite chunk_bytes_cons, (IH Ha2). destruct Hc as [[_ ->]|[Hc _]]; [done|lia].
Qed.

(** A match of [FindAllStringIndex], in bytes and in runes: the text
    before it, the matched text and the rest. *)
Lemma FindAllStringIndex_In (r : regex) (content : gostring) (m : nat * nat) :
  In m (FindAllStringIndex r content) ->
  exists cs1 cs2 cs3,
    chunks content = cs1 ++ cs2 ++ cs3
    /\ fst m = length (chunk_bytes cs1)
    /\ snd m = length (chunk_bytes (cs1 ++ cs2))
    /\ slice content (fst m) (snd m) = chunk_bytes cs2
    /\ match_here r (prev_after None cs1) (List.map fst (cs2 ++ cs3))
       = Some (length cs2).
Proof.
  unfold FindAllStringIndex. cbn zeta. intros Hin.
  apply List.in_map_iff in Hin. destruct Hin as ([x y] & <- & Hin).
  cbn [fst snd].
  destruct (find_all_In _ _ _ _ _ _ _ _ Hin) as (u & w & E & -> & Hm & Hle).
  cbn [Nat.add] in *.
  pose proof (match_here_le _ _ _ _ Hm) as Hn.
  remember (chunks content) as cs eqn:Ecs.
  assert (Lcs : length cs = (length u + length w)%nat).
  { by rewrite <- (length_map fst cs), E, length_app. }
  pose proof (firstn_skipn (length u) cs) as E1.
  pose proof (firstn_skipn (y - length u) (skipn (length u) cs)) as E3.
  assert (E2 : firstn y cs = firstn (length u) cs
                    ++ firstn (y - length u) (skipn (length u) cs)).
  { rewrite <- (firstn_skipn (length u) cs) at 1.
    rewrite List.firstn_app, List.firstn_firstn, length_firstn.
    replace (Nat.min y (length u)) with (length u) by lia.
    by replace (y - Nat.min (length u) (length cs))%nat
      with (y - length u)%nat by lia. }
  assert (L2 : length (firstn (y - length u) (skipn (length u) cs))
               = (y - length u)%nat).
  { rewrite length_firstn, length_skipn. lia. }
  assert (M1 : List.map fst (firstn (length u) cs) = u).
  { by rewrite <- List.firstn_map, E, take_app_length. }
  assert (M2 : List.map fst (skipn (length u) cs) = w).
  { by rewrite <- List.skipn_map, E, drop_app_length. }
  rewrite <- E3 in E1.
  remember (firstn (length u) cs) as A eqn:EA.
  remember (firstn (y - length u) (skipn (length u) cs)) as Bk eqn:EB.
  remember (skipn (y - length u) (skipn (length u) cs)) as C eqn:EC.
  exists A, Bk, C. rewrite !byte_pos_chunk_bytes, E2, <- EA.
  split; [by rewrite <- E1|]. split; [done|]. split; [done|]. split.
  - unfold slice. rewrite <- (chunk_bytes_chunks content), <- Ecs, <- E1.
    rewrite !chunk_bytes_app, !length_app, drop_app_length.
    replace (length (chunk_bytes A) + length (chunk_bytes Bk)
             - length (chunk_bytes A))%nat
      with (length (chunk_bytes Bk)) by lia.
    by rewrite take_app_length.
  - unfold prev_after. by rewrite M1, E3, M2, L2.
Qed.

(** ** The magic-number rule *)

Lemma magic_may_hold (c : N) :
  may_hold MagicNumberRule.magicNumberRegex c = true ->
  (is_digit c || (c =? 46)) = true.
Proof.
  unfold MagicNumberRule.magicNumberRegex, plus_c, lit, lit_runes.
  change (B ".") with [46]. unfold rcat.
  cbn [List.map List.fold_right may_hold]. unfold is_c, is_digit, in_range.
  destruct (N.leb_spec 49 c), (N.leb_spec 48 c), (N.leb_spec c 57),
    (N.eqb_spec c 46); cbn; try done; lia.
Qed.

(** The numbers that [MagicNumberRule] looks at have three characters or
    more, all digits or dots: the exclusions 0, 1, 2 and 10 never apply,
    and the findings are the matches other than 100 and 1000, in order. *)
Theorem MagicNumberRule_numbers `{UnicodeTables} (cfg : RuleConfig)
    (file : ParsedFile) :
  let number m := slice (Content file) (fst m) (snd m) in
  let matches :=
    FindAllStringIndex MagicNumberRule.magicNumberRegex (Content file) in
  Forall (fun m => (3 <= length (number m))%nat
                   /\ Forall (fun b => (is_digit b || (b =? 46)) = true)
                             (number m))
         matches
  /\ MagicNumberRule.Check cfg file
     = List.map (fun m => MagicNumberRule.issue_for cfg file (fst m) (number m))
         (List.filter (fun m => negb (gostring_eqb (number m) (B "100"))
                                && negb (gostring_eqb (number m) (B "1000")))
                      matches).
Proof.
  intros number matches.
  assert (Hall : Forall (fun m => (3 <= length (number m))%nat
                   /\ Forall (fun b => (is_digit b || (b =? 46)) = true)
                             (number m)) matches).
  { apply List.Forall_forall. intros m Hin.
    destruct (FindAllStringIndex_In _ _ _ Hin)
      as (cs1 & cs2 & cs3 & Ecs & _ & _ & Es & Hm).
    unfold number. rewrite Es.
    destruct (match_here_consumed _ _ _ _ Hm) as (u & w & E & Lu & Lmin & F).
    assert (Eu : u = List.map fst cs2).
    { rewrite List.map_app in E.
      apply (f_equal (firstn (length cs2))) in E.
      rewrite <- (length_map fst cs2) in E at 1.
      rewrite take_app_length, <- Lu, take_app_length in E. done. }
    assert (Fd : Forall (fun c => (is_digit c || (c =? 46)) = true)
                        (List.map fst cs2)).
    { rewrite <- Eu. eapply Forall_impl; [exact F|]. apply magic_may_hold. }
    assert (Hok : Forall chunk_ok cs2).
    { pose proof (chunks_from_ok (Content file) 0) as Hok.
      fold (chunks (Content file)) in Hok. rewrite Ecs in Hok.
      apply Forall_app in Hok. destruct Hok as [_ Hok].
      apply Forall_app in Hok. by destruct Hok. }
    rewrite (chunk_bytes_ascii cs2 Hok).
    - split; [|exact Fd]. rewrite length_map, <- Lu in *. exact Lmin.
    - eapply Forall_impl; [exact Fd|]. cbn. intros c Hc.
      unfold is_digit, in_range in Hc.
      destruct (N.leb_spec c 57), (N.eqb_spec c 46);
        rewrite ?andb_false_r in Hc; cbn in Hc; try done; lia. }
  split; [exact Hall|].
  unfold MagicNumberRule.Check. fold matches. clearbody matches.
  enough (Hacc : forall acc,
             List.fold_left
               (fun issues m =>
                  let number := slice (Content file) (fst m) (snd m) in
                  if MagicNumberRule.isExcludedNumber number then issues
                  else issues
                       ++ [MagicNumberRule.issue_for cfg file (fst m) number])
               matches acc
             = acc ++ List.map (fun m => MagicNumberRule.issue_for cfg file
                                           (fst m) (number m))
                 (List.filter
                    (fun m => negb (gostring_eqb (number m) (B "100"))
                              && negb (gostring_eqb (number m) (B "1000")))
                    matches)) by apply (Hacc []).
  induction Hall as [|m ms [Hm _] _ IH]; intros acc; [by rewrite app_nil_r|].
  cbn [List.fold_left List.filter]. cbn zeta. fold (number m).
  assert (Ex : MagicNumberRule.isExcludedNumber (number m)
               = negb (negb (gostring_eqb (number m) (B "100"))
                       && negb (gostring_eqb (number m) (B "1000")))).
  { unfold MagicNumberRule.isExcludedNumber. cbn [existsb].
    unfold gostring_eqb.
    assert (E0 : number m <> B "0") by (intros E; rewrite E in Hm; vm_compute in Hm; lia).
    assert (E1 : number m <> B "1") by (intros E; rewrite E in Hm; vm_compute in Hm; lia).
    assert (E2 : number m <> B "2") by (intros E; rewrite E in Hm; vm_compute in Hm; lia).
    assert (E3 : number m <> B "10") by (intros E; rewrite E in Hm; vm_compute in Hm; lia).
    rewrite (bool_decide_eq_false_2 _ E0), (bool_decide_eq_false_2 _ E1),
      (bool_decide_eq_false_2 _ E2), (bool_decide_eq_false_2 _ E3).
    cbn [orb]. rewrite orb_false_r.
    by rewrite negb_andb, !negb_involutive. }
  rewrite Ex.
  destruct (negb (gostring_eqb (number m) (B "100"))
            && negb (gostring_eqb (number m) (B "1000")));
    cbn [negb List.map]; rewrite IH; [|done].
  by rewrite <- app_assoc.
Qed.

(** ** Index, Contains and the occurrences of a text *)

Lemma Index_ge (s t : gostring) : (-1 <= Index s t)%Z.
Proof.
  induction s as [|c s IH]; cbn [Index].
  - destruct (HasPrefix [] t); lia.
  - destruct (HasPrefix (c :: s) t); [lia|].
    destruct (Z.ltb_spec (Index s t) 0); lia.
Qed.

(** [Index] is the first start of the text. *)
Lemma Index_found (s t : gostring) :
  forall i, Index s t = Z.of_nat i ->
    HasPrefix (skipn i s) t = true
    /\ (i <= length s)%nat
    /\ forall j, (j < i)%nat -> HasPrefix (skipn j s) t = false.
Proof.
  induction s as [|c s IH]; intros i; cbn [Index].
  - destruct (HasPrefix [] t) eqn:E; [|lia]. intros Hi.
    assert (i = 0%nat) as -> by lia. split; [done|]. split; [done|]. lia.
  - destruct (HasPrefix (c :: s) t) eqn:E.
    + intros Hi. assert (i = 0%nat) as -> by lia.
      split; [done|]. split; [cbn [length]; lia|]. lia.
    + destruct (Z.ltb_spec (Index s t) 0); [lia|]. intros Hi.
      destruct i as [|i]; [lia|].
      destruct (IH i ltac:(lia)) as (H1 & H2 & H3).
      split; [done|]. split; [cbn [length]; lia|].
      intros [|j] Hj; [done|]. apply H3. lia.
Qed.

Lemma occurrences_spec (t : gostring) (s : gostring) :
  t <> [] ->
  forall pos k, In k (occurrences s t pos)
                <-> (pos <= k)%nat /\ HasPrefix (skipn (k - pos) s) t = true.
Proof.
  intros Ht. induction s as [|c s IH]; intros pos k; cbn [occurrences].
  - split; [done|]. intros [_ H]. rewrite skipn_nil in H.
    destruct t; [done|discriminate].
  - rewrite List.in_app_iff, IH. split.
    + intros [Hk|[Hk Hp]].
      * destruct (HasPrefix (c :: s) t) eqn:E; [|done].
        destruct Hk as [<-|[]]. by rewrite Nat.sub_diag.
      * split; [lia|]. by replace (k - pos)%nat with (S (k - S pos)) by lia.
    + intros [Hk Hp]. destruct (decide (k = pos)) as [->|Hne].
      * left. rewrite Nat.sub_diag in Hp. cbn [skipn] in Hp. rewrite Hp.
        by left.
      * right. split; [lia|].
        by replace (k - pos)%nat with (S (k - S pos)) in Hp by lia.
Qed.

Lemma Contains_spec (s t : gostring) :
  Contains s t = true <-> exists j, HasPrefix (skipn j s) t = true.
Proof.
  induction s as [|c s IH]; cbn [Contains].
  - rewrite orb_false_r. split; [by exists 0%nat|].
    intros [j Hj]. by rewrite skipn_nil in Hj.
  - rewrite orb_true_iff, IH. split.
    + intros [H|[j Hj]]; [by exists 0%nat|by exists (S j)].
    + intros [[|j] Hj]; [by left|right; by exists j].
Qed.

(** A text inside a slice is a text of the whole that ends in time. *)
Lemma HasPrefix_firstn (t x : gostring) (j n : nat) :
  t <> [] ->
  HasPrefix (skipn j (firstn n x)) t = true
  <-> HasPrefix (skipn j x) t = true /\ (j + length t <= n)%nat.
Proof.
  intros Ht. rewrite List.skipn_firstn_comm, !HasPrefix_spec. split.
  - intros [r E].
    assert (L : (length t <= n - j)%nat).
    { apply (f_equal (@length N)) in E.
      rewrite length_firstn, length_app in E. lia. }
    assert (0 < length t)%nat by (destruct t; [done|cbn [length]; lia]).
    split; [|lia]. exists (r ++ skipn (n - j) (skipn j x)).
    by rewrite app_assoc, <- E, firstn_skipn.
  - intros [[r E] L]. rewrite E. exists (firstn (n - j - length t) r).
    rewrite List.firstn_app, take_ge by lia. done.
Qed.

Lemma Contains_slice (content t : gostring) (a b : nat) :
  t <> [] ->
  Contains (slice content a b) t = true
  <-> exists k, In k (occurrences content t 0)
                /\ (a <= k)%nat /\ (k + length t <= b)%nat.
Proof.
  intros Ht. unfold slice. rewrite Contains_spec.
  assert (0 < length t)%nat by (destruct t; [done|cbn [length]; lia]).
  split.
  - intros [j Hj]. apply (HasPrefix_firstn _ _ _ _ Ht) in Hj.
    destruct Hj as [Hj L]. rewrite List.skipn_skipn in Hj.
    exists (j + a)%nat. rewrite (occurrences_spec _ _ Ht), Nat.sub_0_r.
    repeat split; [lia|done|lia|lia].
  - intros (k & Hk & Ha & Hb).
    apply (occurrences_spec _ _ Ht) in Hk. rewrite Nat.sub_0_r in Hk.
    destruct Hk as [_ Hk]. exists (k - a)%nat.
    apply (HasPrefix_firstn _ _ _ _ Ht). rewrite List.skipn_skipn.
    replace (k - a + a)%nat with k by lia. split; [done|lia].
Qed.

(** ** The input-validation rule *)

Lemma found_before_spec (annotation : gostring) (parameters : list gostring)
    (content : gostring) :
  annotation <> [] ->
  InputValidationRule.found_before annotation parameters content = true
  <-> exists param i k,
        In param parameters /\ Index content param = Z.of_nat i
        /\ In k (occurrences content annotation 0)
        /\ (i <= k + 100)%nat /\ (k + length annotation <= i)%nat.
Proof.
  intros Ha. unfold InputValidationRule.found_before.
  rewrite existsb_exists. split.
  - intros (param & Hin & H). cbn zeta in H.
    pose proof (Index_ge content param) as Hge.
    destruct (Z.eqb_spec (Index content param) (-1)) as [|Hne];
      [done|]. cbn [negb] in H.
    apply (Contains_slice _ _ _ _ Ha) in H.
    destruct H as (k & Hk & Hlo & Hhi).
    exists param, (Z.to_nat (Index content param)), k.
    split; [done|]. split; [lia|]. split; [done|].
    destruct (Z.ltb_spec (Index content param - 100) 0); lia.
  - intros (param & i & k & Hin & Hi & Hk & Hlo & Hhi).
    exists param. split; [done|]. cbn zeta. rewrite Hi.
    destruct (Z.eqb_spec (Z.of_nat i) (-1)) as [|_]; [lia|]. cbn [negb].
    apply (Contains_slice _ _ _ _ Ha). exists k. split; [done|].
    rewrite Nat2Z.id. destruct (Z.ltb_spec (Z.of_nat i - 100) 0); lia.
Qed.

(** [hasRequestBodyParameter] holds exactly when some parameter text
    occurs in the content and a complete [@RequestBody] lies in the 100
    bytes before the first place where that text occurs, wherever the
    method is; [hasValidAnnotation] is the same for [@Valid]. *)
Theorem annotation_window (parameters : list gostring) (content : gostring) :
  (InputValidationRule.hasRequestBodyParameter parameters content = true
   <-> exists param i k,
         In param parameters /\ Index content param = Z.of_nat i
         /\ In k (occurrences content (B "@RequestBody") 0)
         /\ (i <= k + 100)%nat /\ (k + 12 <= i)%nat)
  /\ (InputValidationRule.hasValidAnnotation parameters content = true
      <-> exists param i k,
            In param parameters /\ Index content param = Z.of_nat i
            /\ In k (occurrences content (B "@Valid") 0)
            /\ (i <= k + 100)%nat /\ (k + 6 <= i)%nat).
Proof.
  split.
  - apply (found_before_spec (B "@RequestBody")). done.
  - apply (found_before_spec (B "@Valid")). done.
Qed.

(** The annotation inside a parameter text is not seen.  When every
    parameter text of the methods first occurs before the end of the
    first [@RequestBody] of the file, as the parameter
    [@RequestBody Order order] of the first such method does, the rule
    reports no missing [@Valid]. *)
Theorem first_RequestBody_not_seen `{UnicodeTables} (cfg : RuleConfig)
    (file : ParsedFile) (class : JavaClass) :
  file_AST file = ASTJavaClass class ->
  (forall method param,
      In method (c_Methods class) -> In param (m_Parameters method) ->
      (Index (Content file) param
       < Index (Content file) (B "@RequestBody") + 12)%Z) ->
  Forall (fun issue =>
            Message issue
            <> B "@RequestBody 파라미터에 @Valid 어노테이션이 누락되었습니다")
         (InputValidationRule.Check cfg file).
Proof.
  intros Hast Hfirst. unfold InputValidationRule.Check. rewrite Hast.
  destruct (negb (isController class)); [constructor|].
  rewrite fold_left_push_map. cbn [app].
  set (texts := List.map _ (FindAllStringIndex _ _)).
  assert (Htexts : Forall (fun issue =>
            Message issue
            <> B "@RequestBody 파라미터에 @Valid 어노테이션이 누락되었습니다")
            texts).
  { apply List.Forall_map. apply List.Forall_forall. intros m _.
    cbn [Message InputValidationRule.text_issue]. by vm_compute. }
  revert Htexts. generalize texts. clear texts.
  induction (c_Methods class) as [|method methods IH]; intros acc Hacc;
    [exact Hacc|].
  cbn [List.fold_left]. apply IH.
  { intros m p Hm. apply Hfirst. by right. }
  assert (Hno : InputValidationRule.hasRequestBodyParameter
                  (m_Parameters method) (Content file) = false).
  { destruct (InputValidationRule.hasRequestBodyParameter _ _) eqn:E;
      [|done]. exfalso.
    apply (found_before_spec (B "@RequestBody")) in E; [|done].
    destruct E as (param & i & k & Hin & Hi & Hk & _ & Hhi).
    specialize (Hfirst method param (or_introl eq_refl) Hin).
    rewrite Hi in Hfirst.
    apply occurrences_spec in Hk; [|done]. rewrite Nat.sub_0_r in Hk.
    destruct Hk as [_ Hk].
    pose proof (Index_ge (Content file) (B "@RequestBody")) as Hge.
    destruct (Z.eqb_spec (Index (Content file) (B "@RequestBody")) (-1))
      as [E|E].
    - rewrite E in Hfirst. change (length (B "@RequestBody")) with 12%nat in Hhi.
      lia.
    - destruct (Index_found (Content file) (B "@RequestBody")
                  (Z.to_nat (Index (Content file) (B "@RequestBody")))
                  ltac:(lia)) as (_ & _ & Hmin).
      change (length (B "@RequestBody")) with 12%nat in Hhi.
      rewrite (Hmin k) in Hk; [done|lia]. }
  rewrite Hno. by destruct (_ && _).
Qed.

Lemma first_RequestBody_not_seen_witness :
  Forall (fun method =>
            InputValidationRule.isControllerMethod method = true
            /\ InputValidationRule.hasValidAnnotation
                 (m_Parameters method) (Content unvalidated_controller)
               = false)
         (match file_AST unvalidated_controller with
          | ASTJavaClass class => c_Methods class
          | _ => []
          end)
  /\ Forall (fun issue =>
               Message issue
               <> B "@RequestBody 파라미터에 @Valid 어노테이션이 누락되었습니다")
            (@InputValidationRule.Check plain_tables sample_config
               unvalidated_controller).
Proof.
  split; [by repeat constructor|].
  apply (@first_RequestBody_not_seen plain_tables sample_config
           unvalidated_controller _ eq_refl).
  intros method param [<-|[]] [<-|[]]. by vm_compute.
Defined.

(** ** The threshold of the method-length rule *)

Lemma B_String (a : ascii) (s : string) :
  B (String a s) = N_of_ascii a :: B s.
Proof. reflexivity. Qed.

Lemma digits_value_uint (d : Decimal.uint) :
  forall acc : nat,
    digits_value (B (NilEmpty.string_of_uint d)) (Z.of_nat acc)
    = Some (Z.of_nat (Nat.of_uint_acc d acc)).
Proof.
  induction d as [|d IH|d IH|d IH|d IH|d IH|d IH|d IH|d IH|d IH|d IH];
    intros acc; cbn [NilEmpty.string_of_uint Nat.of_uint_acc];
    [reflexivity|..];
    rewrite B_String; cbn [digits_value];
    match goal with
    | |- context [is_digit ?c] =>
      change (is_digit c) with true; cbv iota
    end;
    rewrite <- IH; f_equal; rewrite Nat.tail_mul_spec;
    match goal with
    | |- context [Z.of_N ?c] =>
      let v := eval vm_compute in (Z.of_N c) in change (Z.of_N c) with v
    end; lia.
Qed.

Lemma uint_digits (d : Decimal.uint) :
  Forall (fun b => is_digit b = true) (B (NilEmpty.string_of_uint d)).
Proof.
  induction d; cbn [NilEmpty.string_of_uint]; [constructor|..];
    rewrite B_String; by constructor.
Qed.

Lemma digits_value_ok (s : gostring) :
  forall n v, digits_value s n = Some v -> Forall (fun b => is_digit b = true) s.
Proof.
  induction s as [|c s IH]; intros n v; [constructor|]. cbn [digits_value].
  destruct (is_digit c) eqn:E; [|done]. intros Hv.
  constructor; [done|]. by apply (IH _ _ Hv).
Qed.

Lemma digits_value_ge (s : gostring) :
  forall n v, digits_value s n = Some v -> (0 <= n)%Z -> (0 <= v)%Z.
Proof.
  induction s as [|c s IH]; intros n v; cbn [digits_value].
  - intros [= <-]. lia.
  - destruct (is_digit c); [|done]. intros Hv Hn.
    apply (IH _ _ Hv). lia.
Qed.

Lemma Atoi_Itoa (n : nat) :
  (Z.of_nat n <= 2 ^ 63 - 1)%Z -> Atoi (Itoa n) = Some (Z.of_nat n).
Proof.
  intros Hn. unfold Itoa.
  pose proof (DecimalNat.Unsigned.of_to n) as Hof.
  unfold Nat.of_uint in Hof.
  pose proof (digits_value_uint (Nat.to_uint n) 0) as Hv.
  pose proof (uint_digits (Nat.to_uint n)) as Hd.
  rewrite Hof in Hv. cbn [Z.of_nat] in Hv.
  assert (E : exists c t,
             B (NilZero.string_of_uint (Nat.to_uint n)) = c :: t
             /\ is_digit c = true
             /\ digits_value (c :: t) 0 = Some (Z.of_nat n)).
  { destruct (Nat.to_uint n) as [|d|d|d|d|d|d|d|d|d|d] eqn:Ed;
      cbn [NilZero.string_of_uint];
      [ exists 48, []; repeat split; cbn in Hof; by subst n | .. ];
      cbn [NilEmpty.string_of_uint] in *; rewrite B_String in *;
      apply Forall_cons in Hd; destruct Hd as [Hc _]; eauto. }
  destruct E as (c & t & -> & Hc & Hval). unfold Atoi.
  assert ((c =? 45) = false) as ->.
  { apply N.eqb_neq. intros ->. done. }
  assert ((c =? 43) = false) as ->.
  { apply N.eqb_neq. intros ->. done. }
  rewrite Hval.
  destruct (Z.leb_spec (- 2 ^ 63) (Z.of_nat n)); [|lia].
  destruct (Z.leb_spec (Z.of_nat n) (2 ^ 63 - 1)); [done|lia].
Qed.

Lemma digits_value_decimal (s : gostring) :
  forall n, digits_value s n
            = if forallb is_digit s
              then Some (List.fold_left
                           (fun n d => (n * 10 + Z.of_N (d - 48))%Z) s n)
              else None.
Proof.
  induction s as [|c s IH]; intros n; [done|].
  cbn [digits_value forallb List.fold_left].
  destruct (is_digit c); [apply IH|done].
Qed.

Lemma decimal_ge (s : gostring) : (0 <= decimal s)%Z.
Proof.
  assert (H : forall n, (0 <= n)%Z ->
            (0 <= List.fold_left
                    (fun n d => (n * 10 + Z.of_N (d - 48))%Z) s n)%Z).
  { induction s as [|c s IH]; intros n Hn; [done|].
    cbn [List.fold_left]. apply IH. lia. }
  apply H. lia.
Qed.

Lemma Atoi_threshold (s : gostring) :
  match Atoi s with
  | Some maxLines => if (0 <? maxLines)%Z then maxLines else 100%Z
  | None => 100%Z
  end = threshold_of s.
Proof.
  assert (Hd : forall digits : gostring,
             match
               match digits with
               | [] => None
               | _ :: _ =>
                 match digits_value digits 0 with
                 | Some n =>
                   if ((- 2 ^ 63 <=? n) && (n <=? 2 ^ 63 - 1))%Z
                   then Some n else None
                 | None => None
                 end
               end
             with
             | Some maxLines => if (0 <? maxLines)%Z then maxLines else 100%Z
             | None => 100%Z
             end
             = if negb (gostring_eqb digits []) && forallb is_digit digits
                  && (0 <? decimal digits)%Z
                  && (decimal digits <=? 2 ^ 63 - 1)%Z
               then decimal digits else 100%Z).
  { intros digits. destruct digits as [|d ds]; [done|].
    rewrite (proj2 (gostring_eqb_neq (d :: ds) [])) by done. cbn [negb andb].
    rewrite digits_value_decimal. fold (decimal (d :: ds)).
    pose proof (decimal_ge (d :: ds)) as Hge.
    destruct (forallb is_digit (d :: ds)); [|done]. cbn [andb].
    destruct (Z.leb_spec (- 2 ^ 63) (decimal (d :: ds))); [|lia].
    destruct (Z.leb_spec (decimal (d :: ds)) (2 ^ 63 - 1)),
      (Z.ltb_spec 0 (decimal (d :: ds))); cbn [andb]; try done.
    all: try (destruct (Z.ltb_spec 0 (decimal (d :: ds))); [lia|done]).
    destruct (Z.ltb_spec 0 (decimal (d :: ds))); [done|lia]. }
  unfold Atoi, threshold_of, unsigned_part. destruct s as [|c t]; [done|].
  destruct (N.eqb_spec c 45) as [->|H45].
  - change (45 =? 43) with false. cbv iota.
    rewrite (proj2 (gostring_eqb_neq (45 :: t) [])) by done.
    cbn [negb forallb andb]. change (is_digit 45) with false. cbn [andb].
    destruct t as [|d ds]; [done|]. rewrite digits_value_decimal.
    fold (decimal (d :: ds)). pose proof (decimal_ge (d :: ds)) as Hge.
    destruct (forallb is_digit (d :: ds)); [|done]. cbn zeta.
    destruct ((- 2 ^ 63 <=? - decimal (d :: ds))
              && (- decimal (d :: ds) <=? 2 ^ 63 - 1))%Z; [|done].
    destruct (Z.ltb_spec 0 (- decimal (d :: ds))); [lia|done].
  - destruct (N.eqb_spec c 43) as [->|H43]; cbn zeta;
      [apply Hd|apply (Hd (c :: t))].
Qed.

(** The threshold is always positive and fits an [int].  A positive
    number written by [strconv.Itoa] under [max_lines] is the threshold.
    In general the threshold is the number of the value when the value
    is a run of decimal digits, with or without a [+] before it, whose
    number is positive and fits an [int], and 100 in every other case:
    for a missing key, for zero however it is written, for a negative
    number, a blank or any other byte. *)
Theorem getMaxLines_threshold (config : RuleConfig) :
  (0 < MethodLengthRule.getMaxLines config <= 2 ^ 63 - 1)%Z
  /\ (forall n : nat,
         (0 < n)%nat -> (Z.of_nat n <= 2 ^ 63 - 1)%Z ->
         cfg_Custom config !! B "max_lines" = Some (Itoa n) ->
         MethodLengthRule.getMaxLines config = Z.of_nat n)
  /\ (MethodLengthRule.getMaxLines config <> 100%Z ->
      exists maxLinesStr digits,
        cfg_Custom config !! B "max_lines" = Some maxLinesStr
        /\ (maxLinesStr = digits \/ maxLinesStr = 43 :: digits)
        /\ digits <> []
        /\ Forall (fun b => is_digit b = true) digits)
  /\ (forall maxLinesStr,
         cfg_Custom config !! B "max_lines" = Some maxLinesStr ->
         MethodLengthRule.getMaxLines config = threshold_of maxLinesStr)
  /\ (cfg_Custom config !! B "max_lines" = None ->
      MethodLengthRule.getMaxLines config = 100%Z)
  /\ (forall maxLinesStr,
         cfg_Custom config !! B "max_lines" = Some maxLinesStr ->
         (decimal (unsigned_part maxLinesStr) = 0%Z
          \/ (exists b, In b (unsigned_part maxLinesStr)
                        /\ is_digit b = false)
          \/ unsigned_part maxLinesStr = []) ->
         MethodLengthRule.getMaxLines config = 100%Z).
Proof.
  assert (Hexact : forall maxLinesStr,
             cfg_Custom config !! B "max_lines" = Some maxLinesStr ->
             MethodLengthRule.getMaxLines config = threshold_of maxLinesStr).
  { intros str E. unfold MethodLengthRule.getMaxLines. rewrite E.
    apply Atoi_threshold. }
  unfold MethodLengthRule.getMaxLines.
  split; [|split; [|split; [|split; [|split]]]].
  - destruct (cfg_Custom config !! B "max_lines") as [str|]; [|lia].
    destruct (Atoi str) as [v|] eqn:E; [|lia].
    destruct (Z.ltb_spec 0 v); [|lia]. split; [done|].
    unfold Atoi in E.
    destruct (match str with [] => _ | _ => _ end) as [neg digits].
    destruct digits; [done|]. destruct (digits_value _ 0); [|done].
    cbn zeta in E.
    destruct (Z.leb_spec (- 2 ^ 63) (if neg then (- z)%Z else z));
      [|done].
    destruct (Z.leb_spec (if neg then (- z)%Z else z) (2 ^ 63 - 1));
      [|done].
    cbn [andb] in E. injection E as <-. done.
  - intros n Hn Hmax ->. rewrite (Atoi_Itoa n Hmax).
    destruct (Z.ltb_spec 0 (Z.of_nat n)); [done|lia].
  - destruct (cfg_Custom config !! B "max_lines") as [str|]; [|done].
    destruct (Atoi str) as [v|] eqn:E; [|done].
    destruct (Z.ltb_spec 0 v) as [Hv|]; [|done]. intros _.
    unfold Atoi in E. exists str.
    destruct str as [|c t]; [done|].
    destruct (N.eqb_spec c 45) as [->|H45].
    + exfalso. destruct t as [|d t]; [done|].
      destruct (digits_value (d :: t) 0) as [z|] eqn:Ez; [|done].
      pose proof (digits_value_ge _ _ _ Ez ltac:(lia)).
      cbn zeta in E. destruct (_ && _); [|done]. injection E as <-. lia.
    + destruct (N.eqb_spec c 43) as [->|H43].
      * exists t. destruct t as [|d t]; [done|].
        destruct (digits_value (d :: t) 0) as [z|] eqn:Ez; [|done].
        split; [done|]. split; [by right|]. split; [done|].
        by apply (digits_value_ok _ _ _ Ez).
      * exists (c :: t).
        destruct (digits_value (c :: t) 0) as [z|] eqn:Ez; [|done].
        split; [done|]. split; [by left|]. split; [done|].
        by apply (digits_value_ok _ _ _ Ez).
  - intros str E. specialize (Hexact str E).
    unfold MethodLengthRule.getMaxLines in Hexact. exact Hexact.
  - by intros ->.
  - intros str E Hbad. specialize (Hexact str E).
    unfold MethodLengthRule.getMaxLines in Hexact. rewrite Hexact.
    unfold threshold_of. cbn zeta.
    destruct Hbad as [Hz|[(b & Hb & Hnd)|He]].
    + rewrite Hz. by rewrite !andb_false_r || (cbn; rewrite ?andb_false_r).
    + assert (forallb is_digit (unsigned_part str) = false) as ->.
      { apply not_true_iff_false. intros Hall.
        rewrite forallb_forall in Hall. specialize (Hall b Hb). congruence. }
      by rewrite andb_false_r.
    + rewrite He. reflexivity.
Qed.

Lemma getMaxLines_threshold_witness :
  MethodLengthRule.getMaxLines (config_with "max_lines" "250") = 250%Z
  /\ MethodLengthRule.getMaxLines (config_with "max_lines" "-3") = 100%Z
  /\ MethodLengthRule.getMaxLines (config_with "max_lines" "0") = 100%Z
  /\ MethodLengthRule.getMaxLines (config_with "max_lines" "+00") = 100%Z
  /\ MethodLengthRule.getMaxLines (config_with "max_lines" "+7") = 7%Z.
Proof.
  split; [|split; [|split; [|split]]].
  - destruct (getMaxLines_threshold (config_with "max_lines" "250"))
      as (_ & Hround & _).
    apply (Hround 250%nat); [lia|lia|reflexivity].
  - destruct (getMaxLines_threshold (config_with "max_lines" "-3"))
      as (_ & _ & _ & _ & _ & Hbad).
    apply (Hbad (B "-3")); [reflexivity|]. right. left. exists 45.
    split; [by left|reflexivity].
  - destruct (getMaxLines_threshold (config_with "max_lines" "0"))
      as (_ & _ & _ & _ & _ & Hbad).
    apply (Hbad (B "0")); [reflexivity|]. by left.
  - destruct (getMaxLines_threshold (config_with "max_lines" "+00"))
      as (_ & _ & _ & _ & _ & Hbad).
    apply (Hbad (B "+00")); [reflexivity|]. by left.
  - destruct (getMaxLines_threshold (config_with "max_lines" "+7"))
      as (_ & _ & _ & Hexact & _).
    by rewrite (Hexact (B "+7") eq_refl).
Defined.

(** ** The groups of the reporters *)

Lemma group_issues_lookup {K} `{Countable K} (key : Issue -> K)
    (issues : list Issue) (k : K) :
  group_issues key issues !! k
  = match issues_with key k issues with
    | [] => None
    | group => Some group
    end.
Proof.
  unfold group_issues, issues_with.
  induction issues as [|issue issues IH] using rev_ind.
  - cbn. by rewrite lookup_empty.
  - rewrite List.fold_left_app, List.filter_app. cbn [List.fold_left List.filter].
    destruct (decide (key issue = k)) as [->|Hne].
    + rewrite lookup_insert_eq, IH, bool_decide_eq_true_2 by done.
      by destruct (List.filter _ issues).
    + rewrite lookup_insert_ne, IH, bool_decide_eq_false_2 by done.
      by rewrite app_nil_r.
Qed.

Lemma list_sum_Permutation (l1 l2 : list nat) :
  l1 ≡ₚ l2 -> list_sum l1 = list_sum l2.
Proof.
  induction 1 as [|x l1 l2 _ IH|x y l|l1 l2 l3 _ IH1 _ IH2];
    cbn [list_sum List.fold_right] in *; unfold list_sum in *; lia.
Qed.

Lemma grouped_count_insert {K} `{Countable K} (m : gmap K (list Issue))
    (k : K) (group : list Issue) :
  grouped_count (<[k := group]> m)
  = (length group + grouped_count m
     - length (default [] (m !! k)))%nat.
Proof.
  unfold grouped_count.
  destruct (m !! k) as [old|] eqn:E; cbn [default].
  - assert (P1 : map_to_list (<[k := group]> m)
                 ≡ₚ (k, group) :: map_to_list (delete k m)).
    { rewrite <- insert_delete_eq.
      apply map_to_list_insert, lookup_delete_eq. }
    assert (P2 : map_to_list m ≡ₚ (k, old) :: map_to_list (delete k m)).
    { rewrite <- (insert_id m k old E) at 1. rewrite <- insert_delete_eq.
      apply map_to_list_insert, lookup_delete_eq. }
    rewrite (list_sum_Permutation _ _ (Permutation_map _ P1)),
      (list_sum_Permutation _ _ (Permutation_map _ P2)).
    cbn [List.map snd]. unfold list_sum. cbn [List.fold_right]. unfold id. lia.
  - rewrite (list_sum_Permutation _ _
               (Permutation_map _ (map_to_list_insert _ _ _ E))).
    cbn [List.map snd length]. unfold list_sum. cbn [List.fold_right]. lia.
Qed.

Lemma group_issues_count {K} `{Countable K} (key : Issue -> K)
    (issues : list Issue) :
  grouped_count (group_issues key issues) = length issues.
Proof.
  induction issues as [|issue issues IH] using rev_ind.
  - unfold grouped_count, group_issues. cbn [List.fold_left].
    by rewrite map_to_list_empty.
  - unfold group_issues in *. rewrite List.fold_left_app.
    cbn [List.fold_left]. rewrite grouped_count_insert, IH, !length_app.
    cbn [length]. lia.
Qed.

(** Grouping partitions the issues: under a key a reporter finds the
    issues of that key in the order of the result, a key without issue
    has no group, so no group is empty, and the groups together hold as
    many issues as the result. *)
Theorem grouping_partitions (issues : list Issue) :
  (forall rule, groupIssuesByRule issues !! rule
                = match issues_with RuleID rule issues with
                  | [] => None
                  | group => Some group
                  end)
  /\ (forall file, groupIssuesByFile issues !! file
                   = match issues_with File file issues with
                     | [] => None
                     | group => Some group
                     end)
  /\ (forall severity, groupIssuesBySeverity issues !! severity
                       = match issues_with i_Severity severity issues with
                         | [] => None
                         | group => Some group
                         end)
  /\ grouped_count (groupIssuesByRule issues) = length issues
  /\ grouped_count (groupIssuesByFile issues) = length issues
  /\ grouped_count (groupIssuesBySeverity issues) = length issues.
Proof.
  repeat split; try apply group_issues_lookup; apply group_issues_count.
Qed.

(** ** The lines the Spring rules look at *)

Lemma some_line_contains_spec (content : gostring) (lo hi : Z)
    (texts : list gostring) :
  SpringHelpers.some_line_contains (Split content LF)
    (SpringHelpers.max 0 lo)
    (SpringHelpers.min (Z.of_nat (length (Split content LF))) hi) texts
  = true
  <-> exists k, (lo < k <= hi)%Z /\ line_holds content texts k.
Proof.
  unfold SpringHelpers.some_line_contains, SpringHelpers.max,
    SpringHelpers.min, line_holds.
  set (lines := Split content LF). set (n := Z.of_nat (length lines)).
  rewrite existsb_exists. split.
  - intros (i & Hi & Hc). apply List.in_seq in Hi.
    apply existsb_exists in Hc. destruct Hc as (text & Ht & Hc).
    exists (Z.of_nat i + 1)%Z.
    replace (Z.to_nat (Z.of_nat i + 1 - 1)) with i by lia.
    destruct (Z.gtb_spec 0 lo), (Z.ltb_spec n hi);
      (split; [lia|]); (split; [lia|]); by exists text.
  - intros (k & Hk & Hr & text & Ht & Hc). exists (Z.to_nat (k - 1)).
    split.
    + apply List.in_seq. destruct (Z.gtb_spec 0 lo), (Z.ltb_spec n hi); lia.
    + apply existsb_exists. by exists text.
Qed.

Lemma hasValidAnnotation_window (content : gostring) (lineNum : Z) :
  SpringValidationRule.hasValidAnnotation content lineNum = true
  <-> exists k, (lineNum - 1 <= k <= lineNum + 2)%Z
                /\ line_holds content [B "@Valid"] k.
Proof.
  unfold SpringValidationRule.hasValidAnnotation. cbn zeta.
  rewrite some_line_contains_spec.
  split; intros (k & Hk & Hl); exists k; (split; [lia|done]).
Qed.

(** In line numbers counted from 1: the validation rule looks at the line
    before the given one, the line itself and the two lines after it; the
    transactional rule at the line itself and the five lines after it;
    the security rule at the four lines before and at the line itself. *)
Theorem Spring_line_windows (content : gostring) (lineNum : Z) :
  (SpringValidationRule.hasValidAnnotation content lineNum = true
   <-> exists k, (lineNum - 1 <= k <= lineNum + 2)%Z
                 /\ line_holds content [B "@Valid"] k)
  /\ (SpringTransactionalRule.hasThrowsException content lineNum = true
      <-> exists k, (lineNum <= k <= lineNum + 5)%Z
                    /\ line_holds content [B "throws Exception"] k)
  /\ (SpringSecurityRule.hasSecurityAnnotation content lineNum = true
      <-> exists k, (lineNum - 4 <= k <= lineNum)%Z
                    /\ line_holds content
                         [B "@PreAuthorize"; B "@PostAuthorize";
                          B "@Secured"; B "@RolesAllowed"] k).
Proof.
  unfold SpringValidationRule.hasValidAnnotation,
    SpringTransactionalRule.hasThrowsException,
    SpringSecurityRule.hasSecurityAnnotation. cbn zeta.
  rewrite !some_line_contains_spec.
  split; [|split]; split; intros (k & Hk & Hl); exists k; (split; [lia|done]).
Qed.

Lemma Count_firstn (content : gostring) (pos : nat) (b : N) :
  (Count (firstn pos content) b <= Count content b)%nat.
Proof.
  unfold Count. rewrite <- (firstn_skipn pos content) at 2.
  rewrite List.filter_app, length_app. lia.
Qed.

(** Every finding of the validation rule is on a line of the content,
    and neither that line, nor the line before it, nor the two lines
    after it contain [@Valid]; findings need [@Controller] or
    [@RestController] somewhere in the content. *)
Theorem SpringValidationRule_findings `{UnicodeTables} (cfg : RuleConfig)
    (file : ParsedFile) :
  let lines := Split (Content file) LF in
  Forall (fun issue =>
            (1 <= Line issue <= Z.of_nat (length lines))%Z
            /\ (forall k, (Line issue - 1 <= k <= Line issue + 2)%Z ->
                          (1 <= k <= Z.of_nat (length lines))%Z ->
                          Contains (nth (Z.to_nat (k - 1)) lines [])
                                   (B "@Valid") = false)
            /\ (Contains (Content file) (B "@Controller")
                || Contains (Content file) (B "@RestController")) = true)
         (SpringValidationRule.Check cfg file).
Proof.
  intros lines. unfold SpringValidationRule.Check.
  destruct (SpringValidationRule.isController (Content file)) eqn:Ec;
    [|constructor]. cbn [negb].
  rewrite (fold_left_push_if
             (fun m => negb (SpringValidationRule.hasValidAnnotation
                               (Content file)
                               (getLineNumberFromPosition (Content file)
                                                          (fst m))))
             (fun m => SpringValidationRule.issue_for cfg file (fst m))).
  cbn [app]. apply List.Forall_forall. intros issue Hin.
  apply List.in_flat_map in Hin. destruct Hin as (m & _ & Hin).
  destruct (SpringValidationRule.hasValidAnnotation _ _) eqn:Ev;
    cbn [negb] in Hin; [done|]. destruct Hin as [<-|[]].
  cbn [Line SpringValidationRule.issue_for].
  assert (Hline : (1 <= getLineNumberFromPosition (Content file) (fst m)
                   <= Z.of_nat (length lines))%Z).
  { unfold getLineNumberFromPosition, lines. rewrite Split_length.
    pose proof (Count_firstn (Content file) (fst m) LF). lia. }
  split; [exact Hline|]. split.
  - intros k Hk Hr.
    destruct (Contains (nth (Z.to_nat (k - 1)) lines []) (B "@Valid"))
      eqn:E; [|done]. exfalso.
    assert (Ht : SpringValidationRule.hasValidAnnotation (Content file)
                   (getLineNumberFromPosition (Content file) (fst m))
                 = true); [|by rewrite Ht in Ev].
    apply hasValidAnnotation_window. exists k.
    split; [lia|]. split; [exact Hr|]. exists (B "@Valid").
    split; [by left|exact E].
  - unfold SpringValidationRule.isController in Ec. cbn [existsb] in Ec.
    by rewrite orb_false_r in Ec.
Qed.

(** ** A match somewhere *)

Lemma find_all_nonempty (r : regex) (u : list N) :
  forall w prev pos,
    match_here r (last_rune prev u) w <> None ->
    find_all_from r prev (u ++ w) pos 0 false <> [].
Proof.
  induction u as [|c u IH]; intros w prev pos Hm.
  - cbn [app last_rune List.fold_left] in *.
    destruct w as [|d w]; cbn [find_all_from];
      destruct (match_here r prev _) as [[|n]|]; done.
  - cbn [app find_all_from].
    destruct (match_here r prev (c :: u ++ w)) as [[|n]|]; [done|done|].
    by apply IH.
Qed.

(** [MatchString] holds exactly when the pattern matches at some rune. *)
Lemma MatchString_spec (r : regex) (s : gostring) :
  MatchString r s = true
  <-> exists u w, to_runes s = u ++ w
                  /\ match_here r (last_rune None u) w <> None.
Proof.
  unfold MatchString, FindStringIndex, FindAllStringIndex. cbn zeta.
  fold (to_runes s). split.
  - destruct (find_all_from r None (to_runes s) 0 0 false) as [|[x y] tl] eqn:E;
      [done|]. intros _.
    destruct (find_all_head _ _ _ _ _ _ _ _ E) as (u & w & Es & _ & Hm & _).
    exists u, w. split; [done|]. by rewrite Hm.
  - intros (u & w & -> & Hm).
    pose proof (find_all_nonempty r u w None 0 Hm) as Hne.
    by destruct (find_all_from r None (u ++ w) 0 0 false).
Qed.

Lemma match_here_ms (r : regex) prev s :
  match_here r prev s <> None <-> exists cur, In cur (ms r prev s).
Proof.
  unfold match_here. destruct (ms r prev s) as [|[q s'] tl].
  - split; [done|]. by intros [cur []].
  - split; [|done]. intros _. exists (q, s'). by left.
Qed.

Lemma ms_Cat_In (a b : regex) prev s (cur : cursor) :
  In cur (ms (Cat a b) prev s)
  <-> exists x, In x (ms a prev s) /\ In cur (ms b (fst x) (snd x)).
Proof. cbn [ms]. apply List.in_flat_map. Qed.

Lemma alts_In (a : regex) (rs : list regex) prev s (cur : cursor) :
  In cur (ms a prev s) -> In cur (ms (alts a rs) prev s).
Proof.
  unfold alts. revert a. induction rs as [|r rs IH]; intros a Ha; [done|].
  cbn [List.fold_left]. apply IH. cbn [ms]. apply List.in_app_iff. by left.
Qed.

(** ** The responsive-design rule *)

Lemma fixed_width_layout prev s :
  match_here ResponsiveDesignRule.fixedWidthRegex prev s <> None ->
  match_here ResponsiveDesignRule.layoutRegex prev s <> None.
Proof.
  rewrite !match_here_ms. intros [cur Hin].
  unfold ResponsiveDesignRule.fixedWidthRegex,
    ResponsiveDesignRule.layoutRegex, rcat in *.
  cbn [List.fold_right] in *.
  apply ms_Cat_In in Hin. destruct Hin as (x1 & H1 & Hin).
  apply ms_Cat_In in Hin. destruct Hin as (x2 & H2 & Hin).
  apply ms_Cat_In in Hin. destruct Hin as (x3 & H3 & _).
  exists x3. apply ms_Cat_In. exists x1. split; [by apply alts_In|].
  apply ms_Cat_In. exists x2. split; [done|].
  apply ms_Cat_In. exists x3. split; [done|]. cbn [ms]. left.
  by destruct x3.
Qed.

Lemma fixed_width_px (s : gostring) :
  ResponsiveDesignRule.hasFixedWidths s = true ->
  FindAllStringIndex ResponsiveDesignRule.pxRegex s <> [].
Proof.
  unfold ResponsiveDesignRule.hasFixedWidths. rewrite MatchString_spec.
  intros (u & w & E & Hm). apply match_here_ms in Hm.
  destruct Hm as [cur Hin].
  unfold ResponsiveDesignRule.fixedWidthRegex, rcat in Hin.
  cbn [List.fold_right] in Hin.
  apply ms_Cat_In in Hin. destruct Hin as (x1 & H1 & Hin).
  apply ms_Cat_In in Hin. destruct Hin as (x2 & H2 & Hin).
  destruct x1 as [q1 s1], x2 as [q2 s2]. cbn [fst snd] in *.
  destruct (ms_passed _ _ _ _ _ H1) as (u1 & -> & ->).
  destruct (ms_passed _ _ _ _ _ H2) as (u2 & -> & ->).
  assert (Hs : MatchString ResponsiveDesignRule.pxRegex s = true).
  { apply MatchString_spec. exists (u ++ u1 ++ u2), s2.
    split; [by rewrite E, <- !app_assoc|].
    apply match_here_ms. exists cur.
    unfold last_rune in *. by rewrite !List.fold_left_app. }
  unfold MatchString, FindStringIndex in Hs. intros En.
  by rewrite En in Hs.
Qed.

Lemma px_loop_three `{UnicodeTables} (cfg : RuleConfig) (file : ParsedFile)
    (matches : list (nat * nat)) :
  ResponsiveDesignRule.px_loop cfg file (firstn 3 matches) 0 []
  = List.map (ResponsiveDesignRule.px_issue cfg file) (firstn 3 matches).
Proof.
  destruct matches as [|m1 [|m2 [|m3 rest]]]; reflexivity.
Qed.

(** A fixed width is a layout property and has a px value, so a file
    that gets the finding for fixed widths without media queries and has
    no [display: flex] or [display: grid] gets the finding for modern
    layout too.  The px findings are none, or those of the first three
    px values when there are more than ten; the rule never gives more
    than five findings. *)
Theorem ResponsiveDesignRule_findings `{UnicodeTables} (cfg : RuleConfig)
    (file : ParsedFile) :
  let content := Content file in
  let px := FindAllStringIndex ResponsiveDesignRule.pxRegex content in
  (ResponsiveDesignRule.hasFixedWidths content = true ->
   ResponsiveDesignRule.hasLayoutProperties content = true /\ px <> [])
  /\ ResponsiveDesignRule.checkFixedUnits cfg file
     = (if (10 <? length px)%nat
        then List.map (ResponsiveDesignRule.px_issue cfg file) (firstn 3 px)
        else [])
  /\ (length (ResponsiveDesignRule.checkFixedUnits cfg file) = 0%nat
      \/ length (ResponsiveDesignRule.checkFixedUnits cfg file) = 3%nat)
  /\ (length (ResponsiveDesignRule.Check cfg file) <= 5)%nat.
Proof.
  intros content px.
  assert (Hpx : ResponsiveDesignRule.checkFixedUnits cfg file
                = if (10 <? length px)%nat
                  then List.map (ResponsiveDesignRule.px_issue cfg file)
                                (firstn 3 px)
                  else []).
  { unfold ResponsiveDesignRule.checkFixedUnits. cbn zeta. fold content px.
    destruct (10 <? length px)%nat; [apply px_loop_three|done]. }
  assert (Hlen : length (ResponsiveDesignRule.checkFixedUnits cfg file) = 0%nat
                 \/ length (ResponsiveDesignRule.checkFixedUnits cfg file)
                    = 3%nat).
  { rewrite Hpx. destruct (Nat.ltb_spec 10 (length px)); [right|by left].
    rewrite length_map, length_firstn. lia. }
  split; [|split; [exact Hpx|split; [exact Hlen|]]].
  - intros Hw. split; [|by apply fixed_width_px].
    unfold ResponsiveDesignRule.hasFixedWidths,
      ResponsiveDesignRule.hasLayoutProperties in *.
    apply MatchString_spec in Hw. destruct Hw as (u & w & E & Hm).
    apply MatchString_spec. exists u, w. split; [done|].
    by apply fixed_width_layout.
  - unfold ResponsiveDesignRule.Check. cbn zeta.
    destruct (_ && negb _), (negb _ && _);
      rewrite ?length_app; cbn [length app]; lia.
Qed.

(** ** Mixed injection annotations *)

Lemma Contains_occurrences (s t : gostring) :
  t <> [] -> Contains s t = (negb (bool_decide (occurrences s t 0 = []))).
Proof.
  intros Ht. apply eq_true_iff_eq.
  rewrite Contains_spec, negb_true_iff, bool_decide_eq_false. split.
  - intros [j Hj] En.
    assert (Hin : In j (occurrences s t 0)).
    { apply (occurrences_spec _ _ Ht). rewrite Nat.sub_0_r. split; [lia|done]. }
    by rewrite En in Hin.
  - intros Hne. destruct (occurrences s t 0) as [|j l] eqn:E; [done|].
    exists j. assert (Hin : In j (occurrences s t 0)) by (rewrite E; by left).
    apply (occurrences_spec _ _ Ht) in Hin. rewrite Nat.sub_0_r in Hin.
    by destruct Hin.
Qed.

(** [checkAnnotationConsistency] adds findings only to a file in which
    both [@Resource] and [@Autowired] occur: then one for every
    occurrence of [@Resource], in the order of their positions, and after
    all of them one for every occurrence of [@Autowired]. *)
Theorem checkAnnotationConsistency_findings `{UnicodeTables}
    (cfg : RuleConfig) (file : ParsedFile) (issues : list Issue) :
  let resources := occurrences (Content file) (B "@Resource") 0 in
  let autowireds := occurrences (Content file) (B "@Autowired") 0 in
  CodingConventionRule.checkAnnotationConsistency cfg file issues
  = issues
    ++ match resources, autowireds with
       | _ :: _, _ :: _ =>
         List.map (CodingConventionRule.resource_issue cfg file) resources
         ++ List.map (CodingConventionRule.autowired_issue cfg file)
              autowireds
       | _, _ => []
       end.
Proof.
  intros resources autowireds.
  unfold CodingConventionRule.checkAnnotationConsistency. cbn zeta.
  rewrite !Contains_occurrences by done. fold resources autowireds.
  unfold lit.
  rewrite (FindAllStringIndex_literal (B "@Resource"));
    [|repeat constructor|done|reflexivity].
  rewrite (FindAllStringIndex_literal (B "@Autowired"));
    [|repeat constructor|done|reflexivity].
  fold resources autowireds. rewrite !fold_left_push_map, !List.map_map.
  cbn [fst].
  clearbody resources autowireds.
  destruct resources as [|r rs].
  - rewrite bool_decide_eq_true_2 by done. cbn [negb andb].
    by rewrite app_nil_r.
  - rewrite (bool_decide_eq_false_2 (r :: rs = [])) by done.
    cbn [negb andb]. destruct autowireds as [|a l].
    + rewrite bool_decide_eq_true_2 by done. cbn [negb].
      by rewrite app_nil_r.
    + rewrite bool_decide_eq_false_2 by done. cbn [negb].
      by rewrite <- app_assoc.
Qed.

(** ** The engine and the configuration *)

Lemma register_filter (rule_for : RuleConfig -> option Rule)
    (l : list RuleConfig) :
  (forall r, cfg_ID r = [] -> rule_for r = None) ->
  register rule_for l = register rule_for (List.filter has_id l).
Proof.
  intros Hskip. unfold register.
  enough (Hacc : forall acc,
             List.fold_left
               (fun rules ruleConfig =>
                  match rule_for ruleConfig with
                  | Some rule => rules ++ [rule]
                  | None => rules
                  end) l acc
             = List.fold_left
                 (fun rules ruleConfig =>
                    match rule_for ruleConfig with
                    | Some rule => rules ++ [rule]
                    | None => rules
                    end) (List.filter has_id l) acc) by apply Hacc.
  induction l as [|r l IH]; intros acc; [done|].
  cbn [List.fold_left List.filter]. unfold has_id at 1.
  destruct (gostring_eqb (cfg_ID r) []) eqn:E; cbn [negb].
  - apply gostring_eqb_eq in E. rewrite (Hskip r E). apply IH.
  - cbn [List.fold_left]. apply IH.
Qed.

Lemma no_id_no_rule `{UnicodeTables} `{RuleConstructors} (r : RuleConfig) :
  cfg_ID r = [] ->
  java_rule r = None /\ javascript_rule r = None
  /\ html_rule r = None /\ css_rule r = None.
Proof.
  intros E. unfold java_rule, javascript_rule, html_rule, css_rule.
  cbn zeta. rewrite E. unfold gostring_eqb.
  repeat (rewrite bool_decide_eq_false_2 by done). done.
Qed.

(** What [GetRulesForLanguage] gives of the rules with an ID does not
    depend on the flags, once [LoadConfig] has set its defaults. *)
Lemma rules_with_id (c : Config) (language : gostring) :
  List.filter has_id (GetRulesForLanguage (LoadConfig_defaults c) language)
  = List.filter has_id (GetRulesForLanguage (all_enabled c) language).
Proof.
  unfold GetRulesForLanguage, LoadConfig_defaults, all_enabled.
  cbn [conf_Languages]. rewrite !rules_of_language_find.
  induction (conf_Languages c) as [|lr ls IH]; [done|].
  cbn [List.map List.find lr_Language].
  destruct (gostring_eqb (lr_Language lr) language); [|exact IH].
  cbn [lr_Rules]. clear IH.
  unfold has_id, enabled_rule.
  induction (lr_Rules lr) as [|r rs IHr]; [done|].
  destruct r as [id name sev cat descr en pat excl custom].
  cbn [List.map cfg_Enabled cfg_ID].
  destruct en, (gostring_eqb id []) eqn:Ei;
    cbn [negb andb List.filter cfg_Enabled cfg_ID]; rewrite ?Ei;
    cbn [negb]; by rewrite ?IHr.
Qed.

Lemma register_defaults `{UnicodeTables} `{RuleConstructors}
    (rule_for : RuleConfig -> option Rule) (c : Config)
    (language : gostring) :
  (forall r, cfg_ID r = [] -> rule_for r = None) ->
  register rule_for (GetRulesForLanguage (LoadConfig_defaults c) language)
  = register rule_for (GetRulesForLanguage (all_enabled c) language).
Proof.
  intros Hskip. rewrite (register_filter _ _ Hskip), rules_with_id.
  by rewrite <- (register_filter _ _ Hskip).
Qed.

Lemma engine_defaults `{UnicodeTables} `{RuleConstructors} (c : Config) :
  NewEngine (LoadConfig_defaults c) = NewEngine (all_enabled c).
Proof.
  unfold NewEngine, initializeRules, registerCSSRules, registerHTMLRules,
    registerJavaScriptRules, registerJavaRules. cbn zeta.
  rewrite !register_defaults; [done|..]; intros r Hr;
    by destruct (no_id_no_rule r Hr) as (? & ? & ? & ?).
Qed.

(** The flag [enabled] of the configuration file has no effect on the
    engine: [LoadConfig] switches on every rule that has an ID, and a
    rule without ID has no case in the registration.  Two configurations
    that differ in these flags only give the same engine, hence the same
    findings for every file. *)
Theorem enabled_flag_has_no_effect `{UnicodeTables} `{RuleConstructors}
    (c c' : Config) :
  all_enabled c = all_enabled c' ->
  NewEngine (LoadConfig_defaults c) = NewEngine (LoadConfig_defaults c')
  /\ forall file language,
       CheckFile (NewEngine (LoadConfig_defaults c)) file language
       = CheckFile (NewEngine (LoadConfig_defaults c')) file language.
Proof.
  intros E.
  assert (En : NewEngine (LoadConfig_defaults c)
               = NewEngine (LoadConfig_defaults c')).
  { by rewrite !engine_defaults, E. }
  split; [exact En|]. intros file language. by rewrite En.
Qed.

Lemma enabled_flag_has_no_effect_witness :
  cfg_Enabled <$> all_rules sample_configuration = [false; false; true; true; true]
  /\ @NewEngine plain_tables silent_constructors
       (LoadConfig_defaults sample_configuration)
     = @NewEngine plain_tables silent_constructors
         (LoadConfig_defaults (all_enabled sample_configuration)).
Proof.
  split; [reflexivity|].
  apply (@enabled_flag_has_no_effect plain_tables silent_constructors
           sample_configuration (all_enabled sample_configuration)).
  reflexivity.
Defined.

(** ** The languages of the engine *)

Lemma find_first_entry (c : Config) (language : gostring) :
  GetRulesForLanguage c language
  = match first_entry c language with
    | Some lr => List.filter cfg_Enabled (lr_Rules lr)
    | None => []
    end.
Proof. apply rules_of_language_find. Qed.

(** The engine looks at the first entry of each of the languages java,
    javascript, html and css and at nothing else of the configuration.
    TypeScript files get the rules of javascript, and a file of any other
    language gets no finding. *)
Theorem engine_languages `{UnicodeTables} `{RuleConstructors}
    (c c' : Config) :
  (forall language, In language rule_languages ->
                    first_entry c language = first_entry c' language) ->
  NewEngine c = NewEngine c'
  /\ (forall file,
         CheckFile (NewEngine c) file (B "typescript")
         = CheckFile (NewEngine c) file (B "javascript"))
  /\ (forall file language,
         ~ In language (B "typescript" :: rule_languages) ->
         CheckFile (NewEngine c) file language = []).
Proof.
  intros Hfirst. split; [|split].
  - unfold NewEngine, initializeRules, registerCSSRules, registerHTMLRules,
      registerJavaScriptRules, registerJavaRules. cbn zeta.
    rewrite !find_first_entry.
    rewrite !Hfirst; [done|..]; unfold rule_languages; cbn [In]; tauto.
  - intros file. unfold CheckFile, NewEngine, initializeRules,
      registerCSSRules, registerHTMLRules, registerJavaScriptRules,
      registerJavaRules. cbn zeta. cbn [engine_rules].
    rewrite !lookup_insert_ne by done.
    rewrite lookup_insert_eq.
    rewrite !lookup_insert_ne by done.
    by rewrite lookup_insert_eq.
  - intros file language Hno. unfold CheckFile, NewEngine, initializeRules,
      registerCSSRules, registerHTMLRules, registerJavaScriptRules,
      registerJavaRules. cbn zeta. cbn [engine_rules].
    unfold rule_languages in Hno. cbn [In] in Hno.
    rewrite !lookup_insert_ne by (intros E; apply Hno; rewrite E; tauto).
    by rewrite lookup_empty.
Qed.

Lemma engine_languages_witness :
  @NewEngine plain_tables silent_constructors sample_configuration
  = @NewEngine plain_tables silent_constructors
      {| conf_Version := [];
         conf_Languages := firstn 2 (conf_Languages sample_configuration) |}.
Proof.
  apply (@engine_languages plain_tables silent_constructors).
  intros language Hin. unfold rule_languages in Hin. cbn [In] in Hin.
  destruct Hin as [<-|[<-|[<-|[<-|[]]]]]; reflexivity.
Defined.
